(** * DNSMatrix: dispatch, outbox/inbox, agent executor and result stream

    A shallow embedding of the Go sources of the probe service:

    - [geoip]      backend/pkg/geoip           (Geo.Lookup)
    - [model]      backend/internal/model      (rows and messages)
    - [db]         the PostgreSQL pool and its transactions
    - [repository] backend/internal/repository (the SQL statements)
    - [service]    backend/internal/service    (RequestService.CreateRequest)
    - [outbox]     backend/internal/msg/outbox (Publisher)
    - [inbox]      backend/internal/msg/inbox  (Subscriber)
    - [handler]    backend/internal/api/http/handler (StreamResults)
    - [agent]      agent/internal/service      (ParseTask, RunCheck, runners)

    Go values are modelled as follows: [int] as [Z], [string] and [[]byte]
    as [string] (a sequence of bytes), [uuid.UUID] as the string of its
    bytes, [map[string]T] as [gmap string T], slices as lists, [error] as
    the text returned by [Error()].  Calls into PostgreSQL, Kafka, the
    network and the clock are inputs of the model: whatever such a call may
    answer is a parameter (a fault script, a probe outcome), never a fixed
    value. *)

From Stdlib Require Import ZArith QArith String Ascii List Bool Lia DecimalString Sorted DecimalPos.
From stdpp Require Import gmap strings.
Import ListNotations.

Local Open Scope string_scope.
Local Open Scope Z_scope.

(** ** Go's [strings] package, on ASCII

    [ToUpper], [ToLower] and [TrimSpace] work on Unicode code points in Go.
    Here a string is a sequence of bytes and the functions act on the ASCII
    range, leaving every other byte unchanged. *)
Module GoStrings.

Definition upper_ascii (c : ascii) : ascii :=
  let n := nat_of_ascii c in
  if ((97 <=? n) && (n <=? 122))%nat then ascii_of_nat (n - 32) else c.

Definition lower_ascii (c : ascii) : ascii :=
  let n := nat_of_ascii c in
  if ((65 <=? n) && (n <=? 90))%nat then ascii_of_nat (n + 32) else c.

Fixpoint ToUpper (s : string) : string :=
  match s with
  | EmptyString => EmptyString
  | String c s' => String (upper_ascii c) (ToUpper s')
  end.

Fixpoint ToLower (s : string) : string :=
  match s with
  | EmptyString => EmptyString
  | String c s' => String (lower_ascii c) (ToLower s')
  end.

(** The ASCII white space of [unicode.IsSpace]: \t \n \v \f \r and space. *)
Definition is_space (c : ascii) : bool :=
  let n := nat_of_ascii c in
  (((9 <=? n) && (n <=? 13)) || (n =? 32))%nat.

Fixpoint trim_left (s : string) : string :=
  match s with
  | String c s' => if is_space c then trim_left s' else s
  | EmptyString => EmptyString
  end.

(** [trim_right] drops the trailing white space: a character is kept when
    something that is kept follows it, or when it is not a space. *)
Fixpoint trim_right (s : string) : string :=
  match s with
  | EmptyString => EmptyString
  | String c s' =>
      match trim_right s' with
      | EmptyString => if is_space c then EmptyString else String c EmptyString
      | r => String c r
      end
  end.

Definition TrimSpace (s : string) : string := trim_right (trim_left s).

Definition TrimPrefix (s p : string) : string :=
  if String.prefix p s then String.substring (String.length p) (String.length s - String.length p) s
  else s.

Fixpoint rev_string (s : string) : string :=
  match s with
  | EmptyString => EmptyString
  | String c s' => rev_string s' ++ String c EmptyString
  end.

Definition HasSuffix (s p : string) : bool :=
  String.prefix (rev_string p) (rev_string s).

Definition TrimSuffix (s p : string) : string :=
  if HasSuffix s p then String.substring 0 (String.length s - String.length p) s
  else s.

(** [Split s sep] for a one-byte separator. *)
Fixpoint Split1 (s : string) (sep : ascii) : list string :=
  match s with
  | EmptyString => [EmptyString]
  | String c s' =>
      if Ascii.eqb c sep then EmptyString :: Split1 s' sep
      else match Split1 s' sep with
           | [] => [String c EmptyString]
           | p :: ps => String c p :: ps
           end
  end.

(** [%q] of a plain ASCII string: the string between double quotes. *)
Definition doubleQuote : ascii := ascii_of_nat 34.
Definition Quote (s : string) : string :=
  String doubleQuote (s ++ String doubleQuote EmptyString).

Fixpoint contains (c : ascii) (s : string) : bool :=
  match s with
  | EmptyString => false
  | String d s' => Ascii.eqb c d || contains c s'
  end.

(** A character that is neither white space nor a comma, and the
    strings made of such characters. *)
Definition plainChar (c : ascii) : bool := negb (is_space c) && negb (Ascii.eqb c ",").

Fixpoint plain (s : string) : bool :=
  match s with
  | EmptyString => true
  | String c s' => plainChar c && plain s'
  end.

(** [tail]: the last [max] bytes. *)
Definition tail (s : string) (max : Z) : string :=
  if (String.length s <=? Z.to_nat max)%nat then s
  else String.substring (String.length s - Z.to_nat max) (Z.to_nat max) s.

End GoStrings.

(** ** backend/pkg/geoip *)
Module geoip.
Import GoStrings.

(** [net.IP] is a byte slice; [None] is the nil slice. *)
Definition IP := option string.

Definition EuropeRegion : string := "EU".
Definition UnitedStatesRegion : string := "US".
Definition APACRegion : string := "APAC".

(** What the geoip2 readers answer: a record pointer (possibly nil) and
    an error (possibly nil). *)
Record answer (R : Type) := { rec : option R; err : option string }.
Arguments rec {R} _.
Arguments err {R} _.

Record ASNRecord := { AutonomousSystemNumber : N }.
Record CountryRecord := { IsoCode : string; ContinentCode : string }.

Record Geo := {
  countryDB : option (string -> answer CountryRecord);
  asnDB : option (string -> answer ASNRecord)
}.

Record GeoInfo := {
  ASN : Z;
  CC : string;
  Continent : string;
  Region : string
}.

Definition zeroInfo : GeoInfo :=
  {| ASN := 0; CC := ""; Continent := ""; Region := "" |}.

Definition setASN (o : GeoInfo) (v : Z) : GeoInfo :=
  {| ASN := v; CC := CC o; Continent := Continent o; Region := Region o |}.
Definition setCC (o : GeoInfo) (v : string) : GeoInfo :=
  {| ASN := ASN o; CC := v; Continent := Continent o; Region := Region o |}.
Definition setContinent (o : GeoInfo) (v : string) : GeoInfo :=
  {| ASN := ASN o; CC := CC o; Continent := v; Region := Region o |}.
Definition setRegion (o : GeoInfo) (v : string) : GeoInfo :=
  {| ASN := ASN o; CC := CC o; Continent := Continent o; Region := v |}.

(** The switch at the end of [Lookup]. *)
Definition regionOf (continent : string) : string :=
  let u := ToUpper continent in
  if String.eqb u "US" then UnitedStatesRegion
  else if String.eqb u "AS" || String.eqb u "OC" then APACRegion
  else EuropeRegion.

Definition Lookup (g : Geo) (ip : IP) : GeoInfo :=
  let out := zeroInfo in
  match ip with
  | None => setRegion out EuropeRegion
  | Some a =>
      let out :=
        match asnDB g with
        | Some db =>
            match err (db a), rec (db a) with
            | None, Some r => setASN out (Z.of_N (AutonomousSystemNumber r))
            | _, _ => out
            end
        | None => out
        end in
      let out :=
        match countryDB g with
        | Some db =>
            match err (db a), rec (db a) with
            | None, Some r =>
                let out := setCC out (IsoCode r) in
                if String.eqb (ContinentCode r) "" then out
                else setContinent out (ContinentCode r)
            | _, _ => out
            end
        | None => out
        end in
      setRegion out (regionOf (Continent out))
  end.

(** The continent codes the databases emit, as listed next to
    [GeoInfo.Continent] in the source. *)
Definition databaseContinents : list string :=
  ["EU"; "AS"; "NA"; "OC"; "AF"; "SA"; "AN"].

(** The continent code the country database has for an address: empty when
    there is no database, the lookup fails or the record is nil. *)
Definition continentFromDB (g : Geo) (a : string) : string :=
  match countryDB g with
  | Some db =>
      match err (db a), rec (db a) with
      | None, Some r => ContinentCode r
      | _, _ => ""
      end
  | None => ""
  end.

End geoip.

(** ** Results of fallible calls *)

(** A Go call returning [(T, error)]: [Ok v] when the error is nil,
    [Err msg] otherwise ([msg] is the text of the error). *)
Inductive result (A : Type) : Type :=
| Ok (a : A)
| Err (e : string).
Arguments Ok {A} a.
Arguments Err {A} e.

Definition isErr {A} (r : result A) : bool :=
  match r with Err _ => true | Ok _ => false end.

(** ** backend/pkg/geoip: opening and closing the databases *)
Module geofiles.

(** The readers of a [Geo], by the path they were opened from; [None] is
    the nil reader. *)
Record Geo := { countryDB : option string; asnDB : option string }.

Section Readers.

(** The library: the error of [geoip2.Open] for a path and the error of
    [Reader.Close] for the reader of a path, [None] for nil. *)
Variable openErr : string -> option string.
Variable closeErr : string -> option string.

(** [Reader.Close] on the reader of [path], [opened] being the number of
    readers that are open: a close that fails releases nothing. *)
Definition close (path : string) (opened : nat) : nat :=
  match closeErr path with
  | None => Nat.pred opened
  | Some _ => opened
  end.

(** [NewGeo]: the result and the number of open readers afterwards. *)
Definition NewGeo (countryPath asnPath : string) (opened : nat) : result Geo * nat :=
  match openErr countryPath with
  | Some e => (Err e, opened)
  | None =>
      let opened := S opened in
      if String.eqb asnPath "" then
        (Ok {| countryDB := Some countryPath; asnDB := None |}, opened)
      else
        match openErr asnPath with
        | Some e =>
            match closeErr countryPath with
            | Some cErr =>
                (Err (e ++ ", failed to close geoip db: " ++ cErr), close countryPath opened)
            | None => (Err e, close countryPath opened)
            end
        | None =>
            (Ok {| countryDB := Some countryPath; asnDB := Some asnPath |}, S opened)
        end
  end.

(** [Geo.Close]: both readers are closed, the errors are collected into
    the named result, and the function ends with [return nil]. *)
Definition Close (g : Geo) (opened : nat) : option string * nat :=
  let opened :=
    match asnDB g with
    | Some path => close path opened
    | None => opened
    end in
  let opened :=
    match countryDB g with
    | Some path => close path opened
    | None => opened
    end in
  (None, opened).

End Readers.

End geofiles.

(** ** backend/internal/model and the PostgreSQL tables *)
Module model.

Definition UUID := string.

Module Agent.
Record t := { ID : UUID; Region : string; ASN : Z; Online : bool }.
End Agent.

Module Request.
Record t := {
  ID : UUID; Target : string; TimeoutSeconds : Z; Broadcast : bool;
  ClientIP : string; UserAgent : string; ClientASN : Z; ClientCC : string;
  ClientRegion : string; Status : string; ChecksTypes : list string;
  RequestJSON : string
}.
Definition withStatus (r : t) (s : string) : t :=
  {| ID := ID r; Target := Target r; TimeoutSeconds := TimeoutSeconds r;
     Broadcast := Broadcast r; ClientIP := ClientIP r; UserAgent := UserAgent r;
     ClientASN := ClientASN r; ClientCC := ClientCC r;
     ClientRegion := ClientRegion r; Status := s;
     ChecksTypes := ChecksTypes r; RequestJSON := RequestJSON r |}.
End Request.

Module Assignment.
Record t := {
  ID : UUID; RequestID : UUID; AgentID : UUID; AgentRegion : string;
  Status : string; OutboxID : UUID
}.
Definition withStatus (a : t) (s : string) : t :=
  {| ID := ID a; RequestID := RequestID a; AgentID := AgentID a;
     AgentRegion := AgentRegion a; Status := s; OutboxID := OutboxID a |}.
End Assignment.

Module OutboxMessage.
Record t := {
  ID : UUID; Topic : string; Payload : string;
  CreatedAt : Z; Sent : bool; SentAt : option Z
}.
Definition markSent (now : Z) (m : t) : t :=
  {| ID := ID m; Topic := Topic m; Payload := Payload m;
     CreatedAt := CreatedAt m; Sent := true; SentAt := Some now |}.
End OutboxMessage.

Module InboxMessage.
Record t := {
  ID : UUID; Topic : string; Payload : string;
  CreatedAt : Z; Processed : bool; ProcessedAt : option Z
}.
End InboxMessage.

Module CheckResult.
Record t := {
  ID : UUID; AssignmentId : UUID; Type_ : string; Status : string;
  StartedAt : Z; FinishedAt : Z; Payload : string
}.
Definition withStatus (c : t) (s : string) : t :=
  {| ID := ID c; AssignmentId := AssignmentId c; Type_ := Type_ c; Status := s;
     StartedAt := StartedAt c; FinishedAt := FinishedAt c; Payload := Payload c |}.
End CheckResult.

(** The row of the joined view read by [SelectResultsByRequestID]. *)
Module CheckResultResponse.
Record t := {
  RequestID : UUID; AgentID : UUID; AgentRegion : string; Type_ : string;
  Status : string; StartedAt : Z; FinishedAt : Z; Payload : string
}.
End CheckResultResponse.

(** The value of a bus message decoded by the inbox. *)
Module CheckResultFromAgent.
Record t := {
  TaskID : UUID; CheckIndex : Z; Type_ : string; Target : string;
  StartedAt : Z; DurationMs : Z; OK : bool; Error : string; Payload : string
}.
End CheckResultFromAgent.

(** The enum [domain.check_status] of migration 000007. *)
Definition check_status : list string :=
  ["PENDING"; "RUNNING"; "DONE"; "FAILED"; "TIMEOUT"].

End model.

(** ** The database: tables, transactions and faults *)
Module db.
Import model.

Record DB := {
  requests : list Request.t;
  assignments : list Assignment.t;
  outbox_messages : list OutboxMessage.t;
  inbox_messages : list InboxMessage.t;
  check_results : list CheckResult.t;
  agents : list Agent.t
}.

Definition emptyDB : DB :=
  {| requests := []; assignments := []; outbox_messages := [];
     inbox_messages := []; check_results := []; agents := [] |}.

Definition setRequests (d : DB) (v : list Request.t) : DB :=
  {| requests := v; assignments := assignments d;
     outbox_messages := outbox_messages d; inbox_messages := inbox_messages d;
     check_results := check_results d; agents := agents d |}.
Definition setAssignments (d : DB) (v : list Assignment.t) : DB :=
  {| requests := requests d; assignments := v;
     outbox_messages := outbox_messages d; inbox_messages := inbox_messages d;
     check_results := check_results d; agents := agents d |}.
Definition setOutbox (d : DB) (v : list OutboxMessage.t) : DB :=
  {| requests := requests d; assignments := assignments d;
     outbox_messages := v; inbox_messages := inbox_messages d;
     check_results := check_results d; agents := agents d |}.
Definition setInbox (d : DB) (v : list InboxMessage.t) : DB :=
  {| requests := requests d; assignments := assignments d;
     outbox_messages := outbox_messages d; inbox_messages := v;
     check_results := check_results d; agents := agents d |}.
Definition setCheckResults (d : DB) (v : list CheckResult.t) : DB :=
  {| requests := requests d; assignments := assignments d;
     outbox_messages := outbox_messages d; inbox_messages := inbox_messages d;
     check_results := v; agents := agents d |}.

(** The state a backend function runs in.

    - [store]:  the committed tables, what a fresh reader sees;
    - [tx]:     the working copy of the open transaction, [None] when no
                transaction is open;
    - [faults]: the fate of the coming database round trips, in order:
                [true] makes the round trip fail (connection lost,
                statement refused, ...); past the end every round trip
                goes through;
    - [nextID]: how many identifiers [uuid.New] has handed out;
    - [now]:    the reading of the clock ([NOW()], [time.Now()]). *)
Record St := {
  store : DB;
  tx : option DB;
  faults : list bool;
  nextID : nat;
  now : Z
}.

Definition setStore (s : St) (d : DB) : St :=
  {| store := d; tx := tx s; faults := faults s; nextID := nextID s; now := now s |}.
Definition setTx (s : St) (t : option DB) : St :=
  {| store := store s; tx := t; faults := faults s; nextID := nextID s; now := now s |}.
Definition setFaults (s : St) (f : list bool) : St :=
  {| store := store s; tx := tx s; faults := f; nextID := nextID s; now := now s |}.
Definition setNextID (s : St) (n : nat) : St :=
  {| store := store s; tx := tx s; faults := faults s; nextID := n; now := now s |}.

(** Go functions of the backend: state in, result and state out. *)
Definition M (A : Type) : Type := St -> result A * St.

Definition ret {A} (a : A) : M A := fun s => (Ok a, s).
Definition fail {A} (e : string) : M A := fun s => (Err e, s).
Definition bind {A B} (m : M A) (k : A -> M B) : M B :=
  fun s => match m s with
           | (Ok a, s') => k a s'
           | (Err e, s') => (Err e, s')
           end.
(** [if err != nil { return nil, fmt.Errorf("<ctx>: %w", err) }] *)
Definition wrap {A} (ctx : string) (m : M A) : M A :=
  fun s => match m s with
           | (Ok a, s') => (Ok a, s')
           | (Err e, s') => (Err (ctx ++ ": " ++ e), s')
           end.
(** [defer d()] registered in front of [body]: [d] runs when [body] is
    left, whatever it returns, and what [d] returns is dropped. *)
Definition defer {A B} (d : M B) (body : M A) : M A :=
  fun s => let (r, s1) := body s in (r, snd (d s1)).

Declare Scope go_scope.
Delimit Scope go_scope with go.
Notation "'let*' x := m 'in' k" := (bind m (fun x => k))
  (at level 10, x name, m at level 100, k at level 200) : go_scope.

(** One round trip to the server. *)
Definition roundTrip : M unit :=
  fun s => match faults s with
           | true :: fs => (Err "db: round trip failed", setFaults s fs)
           | false :: fs => (Ok tt, setFaults s fs)
           | [] => (Ok tt, s)
           end.

(** [uuid.New()]: the identifiers come from a generator [gen]. *)
Definition uuidNew (gen : nat -> UUID) : M UUID :=
  fun s => (Ok (gen (nextID s)), setNextID s (S (nextID s))).

(** [repository.RepoExtension]: the pool (the [nil] of the callers, which
    the repositories replace by [r.db]) or the open transaction. *)
Inductive RepoExtension := viaPool | viaTx.

Definition ErrTxClosed : string := "tx is closed".

(** The tables a statement sent through [ext] works on. *)
Definition view (ext : RepoExtension) : M DB :=
  fun s => match ext with
           | viaPool => (Ok (store s), s)
           | viaTx => match tx s with
                      | Some d => (Ok d, s)
                      | None => (Err ErrTxClosed, s)
                      end
           end.

Definition write (ext : RepoExtension) (d : DB) : M unit :=
  fun s => match ext with
           | viaPool => (Ok tt, setStore s d)
           | viaTx => (Ok tt, setTx s (Some d))
           end.

(** [pool.Begin], [tx.Commit], [tx.Rollback].  A commit that fails leaves
    the store as it was and closes the transaction. *)
Definition Begin : M unit :=
  (let* _ := roundTrip in fun s => (Ok tt, setTx s (Some (store s))))%go.

Definition Commit : M unit :=
  fun s => match tx s with
           | None => (Err ErrTxClosed, s)
           | Some d =>
               match roundTrip s with
               | (Ok _, s') => (Ok tt, setTx (setStore s' d) None)
               | (Err e, s') => (Err e, setTx s' None)
               end
           end.

Definition Rollback : M unit :=
  fun s => match tx s with
           | None => (Err ErrTxClosed, s)
           | Some _ => (Ok tt, setTx s None)
           end.

(** *** Vocabulary for statements about the monad *)

(** A call keeps the committed store. *)
Definition keeps {A} (m : M A) : Prop :=
  forall s, store (snd (m s)) = store s.

(** A call that fails keeps the committed store. *)
Definition errKeeps {A} (m : M A) : Prop :=
  forall s, isErr (fst (m s)) = true -> store (snd (m s)) = store s.

(** A call that cannot fail. *)
Definition total {A} (m : M A) : Prop :=
  forall s, isErr (fst (m s)) = false.

(** From [s] to [s'] no round trip failed: the part of the fault script
    used up in between holds [false] only. *)
Definition untroubled (s s' : St) : Prop :=
  exists k, faults s = (repeat false k ++ faults s')%list.

(** A call that succeeds has met no failing round trip. *)
Definition okUntroubled {A} (m : M A) : Prop :=
  forall s a s', m s = (Ok a, s') -> untroubled s s'.

(** Two states that differ at most in the fault script. *)
Definition sameButFaults (s s' : St) : Prop :=
  store s' = store s /\ tx s' = tx s /\ nextID s' = nextID s /\ now s' = now s.

(** What a statement does to the working copy of the transaction. *)
Definition txStep (s s' : St) (d d' : DB) : Prop :=
  tx s = Some d /\ tx s' = Some d' /\
  store s' = store s /\ nextID s' = nextID s /\ now s' = now s.

End db.

(** ** backend/internal/repository *)
Module repository.
Import model db.
Local Open Scope go_scope.

Definition hasRequest (d : DB) (id : UUID) : bool :=
  existsb (fun r => String.eqb (Request.ID r) id) (requests d).
Definition hasAssignment (d : DB) (id : UUID) : bool :=
  existsb (fun a => String.eqb (Assignment.ID a) id) (assignments d).
Definition hasOutbox (d : DB) (id : UUID) : bool :=
  existsb (fun m => String.eqb (OutboxMessage.ID m) id) (outbox_messages d).
Definition hasInbox (d : DB) (id : UUID) : bool :=
  existsb (fun m => String.eqb (InboxMessage.ID m) id) (inbox_messages d).
Definition hasCheckResult (d : DB) (id : UUID) : bool :=
  existsb (fun c => String.eqb (CheckResult.ID c) id) (check_results d).

Definition isCheckStatus (s : string) : bool :=
  existsb (String.eqb s) check_status.

(** [client_ip] is an [INET] column (migration 000007) and the service
    sends [ip.String()]: the text [<nil>], which a nil [net.IP] prints as,
    is no address.  Any other text is taken for the address it was printed
    from. *)
Definition isInet (text : string) : bool := negb (String.eqb text "<nil>").

(** [RequestRepository.InsertRequest]: [id] is the primary key; the row
    gets the column default ['PENDING'], which [RETURNING status] writes
    back into the request. *)
Definition InsertRequest (ext : RepoExtension) (request : Request.t) : M Request.t :=
  let* d := view ext in
  let* _ := roundTrip in
  if negb (isInet (Request.ClientIP request))
  then fail "invalid input syntax for type inet"
  else if hasRequest d (Request.ID request)
  then fail "duplicate key value violates unique constraint"
  else
    let row := Request.withStatus request "PENDING" in
    let* _ := write ext (setRequests d (requests d ++ [row])) in
    ret row.

(** [RequestRepository.InsertAssignment]: [id] is the primary key,
    [request_id] references [domain.requests], [status] defaults to
    ['PENDING']. *)
Definition InsertAssignment (ext : RepoExtension) (assignment : Assignment.t) : M unit :=
  let* d := view ext in
  let* _ := roundTrip in
  if hasAssignment d (Assignment.ID assignment)
  then fail "duplicate key value violates unique constraint"
  else if negb (hasRequest d (Assignment.RequestID assignment))
  then fail "insert or update violates foreign key constraint"
  else write ext (setAssignments d
         (assignments d ++ [Assignment.withStatus assignment "PENDING"])).

(** [RequestRepository.InsertCheckResult]: [id] is the primary key and
    [status] a [domain.check_status]. *)
Definition InsertCheckResult (ext : RepoExtension) (checkResult : CheckResult.t) : M unit :=
  let* d := view ext in
  let* _ := roundTrip in
  if hasCheckResult d (CheckResult.ID checkResult)
  then fail "duplicate key value violates unique constraint"
  else if negb (isCheckStatus (CheckResult.Status checkResult))
  then fail "invalid input value for enum domain.check_status"
  else write ext (setCheckResults d (check_results d ++ [checkResult])).

(** [SelectResultsByRequestID]: assignments joined with the check results
    whose [assignment_id] is the request id ([JOIN ... ON a.request_id =
    c.assignment_id WHERE a.request_id = $1]).  The rows come in table
    order; [ORDER BY a.agent_id] is not modelled, no property below reads
    the order. *)
Definition SelectResultsByRequestID (ext : RepoExtension) (requestID : UUID)
  : M (list CheckResultResponse.t) :=
  let* d := view ext in
  let* _ := roundTrip in
  ret (flat_map (fun a =>
         if String.eqb (Assignment.RequestID a) requestID then
           map (fun c =>
                  {| CheckResultResponse.RequestID := Assignment.RequestID a;
                     CheckResultResponse.AgentID := Assignment.AgentID a;
                     CheckResultResponse.AgentRegion := Assignment.AgentRegion a;
                     CheckResultResponse.Type_ := CheckResult.Type_ c;
                     CheckResultResponse.Status := CheckResult.Status c;
                     CheckResultResponse.StartedAt := CheckResult.StartedAt c;
                     CheckResultResponse.FinishedAt := CheckResult.FinishedAt c;
                     CheckResultResponse.Payload := CheckResult.Payload c |})
               (List.filter (fun c => String.eqb (Assignment.RequestID a) (CheckResult.AssignmentId c))
                       (check_results d))
         else []) (assignments d)).

(** [AgentRepository.SelectAgents] and [SelectAgentByRegion]
    ([QueryRow(...).Scan] takes the first row, and fails without one). *)
Definition SelectAgents (ext : RepoExtension) : M (list Agent.t) :=
  let* d := view ext in
  let* _ := roundTrip in
  ret (agents d).

Definition SelectAgentByRegion (ext : RepoExtension) (region : string) : M Agent.t :=
  let* d := view ext in
  let* _ := roundTrip in
  match List.filter (fun a => String.eqb (Agent.Region a) region) (agents d) with
  | a :: _ => ret a
  | [] => fail "no rows in result set"
  end.

(** [OutboxRepository.InsertMessage]: [ON CONFLICT DO NOTHING] on the
    primary key; [created_at], [sent] and [sent_at] take their defaults. *)
Definition outboxRow (id : UUID) (topic payload : string) (createdAt : Z) : OutboxMessage.t :=
  {| OutboxMessage.ID := id; OutboxMessage.Topic := topic;
     OutboxMessage.Payload := payload;
     OutboxMessage.CreatedAt := createdAt;
     OutboxMessage.Sent := false; OutboxMessage.SentAt := None |}.

Definition OutboxInsertMessage (ext : RepoExtension) (id : UUID) (topic payload : string) : M unit :=
  let* d := view ext in
  let* _ := roundTrip in
  fun s =>
    if hasOutbox d id then (Ok tt, s)
    else write ext (setOutbox d (outbox_messages d ++
                                   [outboxRow id topic payload (now s)])) s.

(** [OutboxRepository.UpdateAsSent]:
    [SET sent = true, sent_at = NOW() WHERE id = $1]. *)
Definition UpdateAsSent (ext : RepoExtension) (messageID : UUID) : M unit :=
  let* d := view ext in
  let* _ := roundTrip in
  fun s =>
    write ext (setOutbox d
      (map (fun m => if String.eqb (OutboxMessage.ID m) messageID
                     then OutboxMessage.markSent (now s) m else m)
           (outbox_messages d))) s.

(** [ORDER BY created_at]: a stable insertion sort on the column. *)
Fixpoint insertByCreatedAt (m : OutboxMessage.t) (l : list OutboxMessage.t) : list OutboxMessage.t :=
  match l with
  | [] => [m]
  | x :: l' =>
      if OutboxMessage.CreatedAt m <? OutboxMessage.CreatedAt x then m :: l
      else x :: insertByCreatedAt m l'
  end.

Definition orderByCreatedAt (l : list OutboxMessage.t) : list OutboxMessage.t :=
  fold_right insertByCreatedAt [] l.

(** [OutboxRepository.SelectUnsentBatch]:
    [WHERE sent = false ORDER BY created_at LIMIT $1]. *)
Definition unsentBatch (d : DB) (batchSize : nat) : list OutboxMessage.t :=
  firstn batchSize
    (orderByCreatedAt
       (List.filter (fun m => negb (OutboxMessage.Sent m)) (outbox_messages d))).

Definition SelectUnsentBatch (ext : RepoExtension) (batchSize : nat) : M (list OutboxMessage.t) :=
  let* d := view ext in
  let* _ := roundTrip in
  ret (unsentBatch d batchSize).

(** [InboxRepository.InsertMessage]: [ON CONFLICT DO NOTHING]. *)
Definition inboxRow (id : UUID) (topic payload : string) (createdAt : Z) : InboxMessage.t :=
  {| InboxMessage.ID := id; InboxMessage.Topic := topic;
     InboxMessage.Payload := payload;
     InboxMessage.CreatedAt := createdAt;
     InboxMessage.Processed := false;
     InboxMessage.ProcessedAt := None |}.

Definition InboxInsertMessage (ext : RepoExtension) (id : UUID) (topic payload : string) : M unit :=
  let* d := view ext in
  let* _ := roundTrip in
  fun s =>
    if hasInbox d id then (Ok tt, s)
    else write ext (setInbox d (inbox_messages d ++
                                  [inboxRow id topic payload (now s)])) s.

End repository.

(** ** Values of [interface{}] in check parameters *)
Module json.

(** What a [map[string]interface{}] of check parameters holds: the values
    [json.Unmarshal] produces (nil, bool, float64, string, []interface{},
    map[string]interface{}) and the Go values [normalizeCheckParams] stores
    back into the map ([[2]int], [map[string]string], [[]string]).  A
    float64 is represented by the rational it denotes. *)
#[local] Set Warnings "-register-all".
Inductive value : Type :=
| Null
| Bool (b : bool)
| Number (q : Q)
| Str (s : string)
| Array (l : list value)
| Object (l : list (string * value))
| IntPair (a b : Z)
| StringMap (m : list (string * string))
| StringList (l : list string).

End json.

(** ** Messages on the bus (both model packages declare the same structs) *)
Module wire.
Import model.

(** [Params] is a [map[string]interface{}]: [None] is the nil map, which
    [json.Unmarshal] leaves when the key is missing or null. *)
Module CheckRequest.
Record t := { Type_ : string; Params : option (gmap string json.value) }.
End CheckRequest.

Module Geo.
Record t := { Region : string; Continent : string }.
End Geo.

Module ClientContext.
Record t := { IP : string; ASN : Z; Geo : Geo.t; UserAgent : string }.
End ClientContext.

Module TaskMessage.
Record t := {
  ID : UUID; Target : string; TimeoutSeconds : Z;
  ClientContext : ClientContext.t;
  Checks : list CheckRequest.t;
  Metadata : gmap string string
}.
End TaskMessage.

(** The body of POST /check/task. *)
Module TaskMessageRequest.
Record t := {
  Target : string; TimeoutSeconds : Z; Broadcast : bool;
  Checks : list CheckRequest.t
}.
End TaskMessageRequest.

End wire.

(** ** backend/internal/service: RequestService.CreateRequest *)
Module service.
Import model db repository wire.
Local Open Scope go_scope.

Definition baseProduceTopic : string := "hosts-check".

(** [fmt.Sprintf("%s-%s", baseProduceTopic, region)] *)
Definition topicFor (region : string) : string :=
  baseProduceTopic ++ "-" ++ region.

Definition lift {A} (r : result A) : M A := fun s => (r, s).

(** [for _, x := range l { body }], left on the first error. *)
Fixpoint forEach {A} (l : list A) (body : A -> M unit) : M unit :=
  match l with
  | [] => ret tt
  | x :: l' => let* _ := body x in forEach l' body
  end.

Section RequestService.

(** The collaborators of the service: the geo database, [uuid.New], the
    serializer [json.Marshal] of the task message and [net.IP.String]. *)
Variable geo : geoip.Geo.
Variable gen : nat -> UUID.
Variable marshalTask : TaskMessage.t -> result string.
Variable ipText : string -> string.

Definition IPString (ip : geoip.IP) : string :=
  match ip with
  | None => "<nil>"
  | Some a => ipText a
  end.

Definition taskMessageOf (id : UUID) (req : TaskMessageRequest.t)
    (ip : geoip.IP) (ua : string) (gi : geoip.GeoInfo) : TaskMessage.t :=
  {| TaskMessage.ID := id;
     TaskMessage.Target := TaskMessageRequest.Target req;
     TaskMessage.TimeoutSeconds := TaskMessageRequest.TimeoutSeconds req;
     TaskMessage.ClientContext :=
       {| ClientContext.IP := IPString ip;
          ClientContext.ASN := geoip.ASN gi;
          ClientContext.Geo :=
            {| Geo.Region := geoip.Region gi; Geo.Continent := geoip.Continent gi |};
          ClientContext.UserAgent := ua |};
     TaskMessage.Checks :=
       map (fun check =>
              {| CheckRequest.Type_ := CheckRequest.Type_ check;
                 CheckRequest.Params := CheckRequest.Params check |})
           (TaskMessageRequest.Checks req);
     TaskMessage.Metadata :=
       <["origin" := "api"]> (<["region" := geoip.Region gi]> ∅) |}.

Definition requestOf (id : UUID) (req : TaskMessageRequest.t)
    (ip : geoip.IP) (ua : string) (gi : geoip.GeoInfo) (payload : string) : Request.t :=
  {| Request.ID := id;
     Request.Target := TaskMessageRequest.Target req;
     Request.TimeoutSeconds := TaskMessageRequest.TimeoutSeconds req;
     Request.Broadcast := TaskMessageRequest.Broadcast req;
     Request.ClientIP := IPString ip;
     Request.UserAgent := ua;
     Request.ClientASN := geoip.ASN gi;
     Request.ClientCC := geoip.CC gi;
     Request.ClientRegion := geoip.Region gi;
     Request.Status := "";
     Request.ChecksTypes := map CheckRequest.Type_ (TaskMessageRequest.Checks req);
     Request.RequestJSON := payload |}.

Definition assignmentOf (aid id : UUID) (agent : Agent.t) (outboxID : UUID) : Assignment.t :=
  {| Assignment.ID := aid;
     Assignment.RequestID := id;
     Assignment.AgentID := Agent.ID agent;
     Assignment.AgentRegion := Agent.Region agent;
     Assignment.Status := "";
     Assignment.OutboxID := outboxID |}.

(** The body of the broadcast loop, for one agent. *)
Definition dispatchTo (id : UUID) (payload : string) (topic : string) (agent : Agent.t) : M unit :=
  let* outboxID := uuidNew gen in
  let* aid := uuidNew gen in
  let assignment := assignmentOf aid id agent outboxID in
  let* _ := wrap "failed to insert outbox message"
              (OutboxInsertMessage viaTx outboxID topic payload) in
  wrap "failed to insert assignment" (InsertAssignment viaTx assignment).

Definition CreateRequest (req : TaskMessageRequest.t) (ip : geoip.IP) (ua : string)
  : M Request.t :=
  let gi := geoip.Lookup geo ip in
  let* id := uuidNew gen in
  let taskMessage := taskMessageOf id req ip ua gi in
  let* payload := wrap "failed to marshal task message" (lift (marshalTask taskMessage)) in
  let request := requestOf id req ip ua gi payload in
  if TaskMessageRequest.Broadcast req then
    let* _ := wrap "failed to begin transaction" Begin in
    defer Rollback (
      let* request := wrap "failed to insert request" (InsertRequest viaTx request) in
      let* allAgents := wrap "failed to select agents" (SelectAgents viaTx) in
      let* _ := forEach allAgents (fun agent =>
                  dispatchTo id payload (topicFor (Agent.Region agent)) agent) in
      let* _ := wrap "error committing transaction" Commit in
      ret request)
  else
    let* _ := wrap "failed to begin transaction" Begin in
    defer Rollback (
      let* request := wrap "failed to insert request" (InsertRequest viaTx request) in
      let* agent := wrap "failed to select agent"
                      (SelectAgentByRegion viaTx (geoip.Region gi)) in
      let* _ := dispatchTo id payload (topicFor (geoip.Region gi)) agent in
      let* _ := wrap "error committing transaction" Commit in
      ret request).




End RequestService.

(** [RequestService.GetResultsByRequestID]: the query runs on the pool
    ([ext] is nil). *)
Definition GetResultsByRequestID (requestID : UUID) : M (list CheckResultResponse.t) :=
  wrap "failed to select results" (SelectResultsByRequestID viaPool requestID).

(** *** Vocabulary for statements about the results of a request *)

(** The assignments of a request, and the check results stored under the
    request id ([check_results.assignment_id] holds the task id of the
    envelope, which is the request id). *)
Definition assignmentsOf (d : DB) (requestID : UUID) : list Assignment.t :=
  List.filter (fun a => String.eqb (Assignment.RequestID a) requestID) (assignments d).

Definition resultsOf (d : DB) (requestID : UUID) : list CheckResult.t :=
  List.filter (fun c => String.eqb requestID (CheckResult.AssignmentId c)) (check_results d).

(** The row the query gives for an assignment and a check result. *)
Definition joinRow (a : Assignment.t) (c : CheckResult.t) : CheckResultResponse.t :=
  {| CheckResultResponse.RequestID := Assignment.RequestID a;
     CheckResultResponse.AgentID := Assignment.AgentID a;
     CheckResultResponse.AgentRegion := Assignment.AgentRegion a;
     CheckResultResponse.Type_ := CheckResult.Type_ c;
     CheckResultResponse.Status := CheckResult.Status c;
     CheckResultResponse.StartedAt := CheckResult.StartedAt c;
     CheckResultResponse.FinishedAt := CheckResult.FinishedAt c;
     CheckResultResponse.Payload := CheckResult.Payload c |}.

End service.

(** ** The bus *)
Module kafka.

(** Modelled from the spec: the package hackathon-back/pkg/kafka
    ([Producer], [ConsumerGroupRunner], [MessageWithMarkFunc]) is not among
    the sources.  The specification names a producer that pushes a record
    by key, value and topic and a consumer whose polled messages carry a
    [Mark()] acknowledgement.  A record is its topic, key and value. *)
Record Message := { Topic : string; Key : string; Value : string }.

(** Modelled from the spec: what [Producer.PushMessage] answers, the
    partition and offset of the accepted record or an error.  [Mark()] on a
    consumed message is modelled where it is called, as the list of the
    messages marked so far ([inbox.marked]). *)
Inductive pushed :=
| PushOk (partition offset : Z)
| PushErr (e : string).

End kafka.

Module uuid.
Import model.

(** [uuid.FromBytes]: a UUID is 16 bytes. *)
Definition FromBytes (b : string) : result UUID :=
  if (String.length b =? 16)%nat then Ok b else Err "invalid UUID".

(** [UUID.MarshalBinary] never fails. *)
Definition MarshalBinary (u : UUID) : result string := Ok u.

End uuid.

(** ** backend/internal/msg/outbox *)
Module outbox.
Import model db repository.

Definition BathSizeMultiply : nat := 5.

Record Config := { WorkerCount : nat; BatchSize : nat }.

(** The publisher and its surroundings.

    - [world]:       the database;
    - [bus]:         the records the broker has accepted, oldest first;
    - [sending]:     what is left of the batch [Run] is feeding into the
                     channel (the [for _, msg := range messages] loop);
    - [messagePipe]: the buffered channel, next to be received first;
    - [marking]:     the workers inside [sendAndMark] between the publish
                     and [UpdateAsSent], each with its message. *)
Record State := {
  world : St;
  bus : list kafka.Message;
  sending : list OutboxMessage.t;
  messagePipe : list OutboxMessage.t;
  marking : list OutboxMessage.t
}.

Definition setWorld (q : State) (w : St) : State :=
  {| world := w; bus := bus q; sending := sending q;
     messagePipe := messagePipe q; marking := marking q |}.

Definition init (w : St) : State :=
  {| world := w; bus := []; sending := []; messagePipe := []; marking := [] |}.

Definition busRecord (message : OutboxMessage.t) : kafka.Message :=
  {| kafka.Topic := OutboxMessage.Topic message;
     kafka.Key := OutboxMessage.ID message;
     kafka.Value := OutboxMessage.Payload message |}.

(** [Publisher.sendAndMark] on one message: [push] is what the producer
    answers.  The result is the function's result, the new database state
    and the records added to the bus. *)
Definition sendAndMark (push : kafka.pushed) (message : OutboxMessage.t) (w : St)
  : result (Z * Z) * St * list kafka.Message :=
  match uuid.MarshalBinary (OutboxMessage.ID message) with
  | Err e => (Err ("failed to marshal message id: " ++ e), w, [])
  | Ok messageID =>
      match push with
      | kafka.PushErr e => (Err ("failed to push message: " ++ e), w, [])
      | kafka.PushOk partition offset =>
          let sent := [{| kafka.Topic := OutboxMessage.Topic message;
                          kafka.Key := messageID;
                          kafka.Value := OutboxMessage.Payload message |}] in
          match UpdateAsSent viaPool (OutboxMessage.ID message) w with
          | (Err e, w') => (Err ("failed to update as sent: " ++ e), w', sent)
          | (Ok _, w') => (Ok (partition, offset), w', sent)
          end
      end
  end.

(** What can happen next.  The goroutines of [Run] and of the workers
    interleave; a worker is cut in two at the only point where another
    goroutine can observe it, between the publish and the mark. *)
Inductive event :=
| Tick                               (* the ticker fires: SelectUnsentBatch *)
| Feed                               (* messagePipe <- msg *)
| Send (push : kafka.pushed)         (* a worker receives and publishes *)
| Mark (i : nat)                     (* the i-th marking worker runs UpdateAsSent *)
| Elapse (dt : N)                    (* time passes *)
| Dispatched (id : UUID) (topic payload : string). (* a dispatcher commits a row *)

Definition setNow (w : St) (t : Z) : St :=
  {| store := store w; tx := tx w; faults := faults w; nextID := nextID w; now := t |}.

Fixpoint removeAt {A} (i : nat) (l : list A) : list A :=
  match i, l with
  | _, [] => []
  | O, _ :: l' => l'
  | S i', x :: l' => x :: removeAt i' l'
  end.

Definition step (cfg : Config) (e : event) (q : State) : State :=
  match e with
  | Tick =>
      match sending q with
      | _ :: _ => q
      | [] =>
          match SelectUnsentBatch viaPool (BatchSize cfg) (world q) with
          | (Ok messages, w') =>
              {| world := w'; bus := bus q; sending := messages;
                 messagePipe := messagePipe q; marking := marking q |}
          | (Err _, w') => setWorld q w'
          end
      end
  | Feed =>
      match sending q with
      | msg :: rest =>
          if (length (messagePipe q) <? BatchSize cfg * BathSizeMultiply)%nat then
            {| world := world q; bus := bus q; sending := rest;
               messagePipe := messagePipe q ++ [msg]; marking := marking q |}
          else q
      | [] => q
      end
  | Send push =>
      match messagePipe q with
      | msg :: rest =>
          if (length (marking q) <? WorkerCount cfg)%nat then
            match push with
            | kafka.PushErr _ =>
                {| world := world q; bus := bus q; sending := sending q;
                   messagePipe := rest; marking := marking q |}
            | kafka.PushOk _ _ =>
                {| world := world q; bus := bus q ++ [busRecord msg];
                   sending := sending q;
                   messagePipe := rest; marking := marking q ++ [msg] |}
            end
          else q
      | [] => q
      end
  | Mark i =>
      match nth_error (marking q) i with
      | Some msg =>
          {| world := snd (UpdateAsSent viaPool (OutboxMessage.ID msg) (world q));
             bus := bus q; sending := sending q;
             messagePipe := messagePipe q; marking := removeAt i (marking q) |}
      | None => q
      end
  | Elapse dt => setWorld q (setNow (world q) (now (world q) + Z.of_N dt))
  | Dispatched id topic payload =>
      setWorld q (snd (OutboxInsertMessage viaPool id topic payload (world q)))
  end.

Definition run (cfg : Config) (evs : list event) (q : State) : State :=
  fold_left (fun q e => step cfg e q) evs q.

Definition isSent (d : DB) (id : UUID) : bool :=
  existsb (fun m => String.eqb (OutboxMessage.ID m) id && OutboxMessage.Sent m)
          (outbox_messages d).

Definition onBus (b : list kafka.Message) (id : UUID) : bool :=
  existsb (fun r => String.eqb (kafka.Key r) id) b.

(** Does the run publish a row that the table already shows as sent? *)
Fixpoint republishes (cfg : Config) (evs : list event) (q : State) : bool :=
  match evs with
  | [] => false
  | e :: evs' =>
      let here :=
        match e, messagePipe q with
        | Send (kafka.PushOk _ _), msg :: _ =>
            (length (marking q) <? WorkerCount cfg)%nat
            && isSent (store (world q)) (OutboxMessage.ID msg)
        | _, _ => false
        end in
      here || republishes cfg evs' (step cfg e q)
  end.

(** *** Vocabulary for statements about the publisher *)

Definition unsentRows (d : DB) : list OutboxMessage.t :=
  List.filter (fun m => negb (OutboxMessage.Sent m)) (outbox_messages d).

Definition markRows (id : UUID) (t : Z) (l : list OutboxMessage.t) : list OutboxMessage.t :=
  map (fun m => if String.eqb (OutboxMessage.ID m) id
                then OutboxMessage.markSent t m else m) l.

Definition sentImpliesSentAt (d : DB) : Prop :=
  forall r, In r (outbox_messages d) ->
            OutboxMessage.Sent r = true -> OutboxMessage.SentAt r <> None.

Definition Inv (d0 : DB) (q : State) : Prop :=
  (forall m, In m (marking q) -> onBus (bus q) (OutboxMessage.ID m) = true) /\
  (forall r, In r (outbox_messages (store (world q))) ->
             OutboxMessage.Sent r = true ->
             OutboxMessage.SentAt r <> None /\
             (In r (outbox_messages d0) \/ onBus (bus q) (OutboxMessage.ID r) = true)).


(** A record of the bus is the publication of a row: key, topic and value
    are the row's id, topic and payload. *)
Definition publishes (r : kafka.Message) (row : OutboxMessage.t) : Prop :=
  kafka.Key r = OutboxMessage.ID row /\
  kafka.Topic r = OutboxMessage.Topic row /\
  kafka.Value r = OutboxMessage.Payload row.

(** The table after [UpdateAsSent] has run at time [t] for the messages of
    [l], one after the other. *)
Definition marks (t : Z) (l rows : list OutboxMessage.t) : list OutboxMessage.t :=
  fold_left (fun rows m => markRows (OutboxMessage.ID m) t rows) l rows.

(** [isSent] on the rows. *)
Definition sentRow (id : UUID) (rows : list OutboxMessage.t) : bool :=
  existsb (fun m => String.eqb (OutboxMessage.ID m) id && OutboxMessage.Sent m) rows.

(** A queued message that stands for a row of the table. *)
Definition fromTable (q : State) (m : OutboxMessage.t) : Prop :=
  exists row, In row (outbox_messages (store (world q))) /\ publishes (busRecord m) row.

(** [ORDER BY created_at]: no row comes before an older one. *)
Definition oldestFirst (l : list OutboxMessage.t) : Prop :=
  StronglySorted (fun a b => OutboxMessage.CreatedAt a <= OutboxMessage.CreatedAt b) l.

(** A round without overlap: one poll, the [k] rows of its batch fed into
    the channel, then a worker publishing and marking them one by one. *)
Definition quietRound (k : nat) : list event :=
  Tick :: repeat Feed k ++ concat (repeat [Send (kafka.PushOk 0 0); Mark 0] k).

(** The wording of the specification: once a row has [sent = true] no run
    of the publisher publishes it again. *)
Definition neverRepublished (cfg : Config) (w : St) : Prop :=
  forall evs, republishes cfg evs (init w) = false.

End outbox.

(** ** backend/internal/msg/inbox *)
Module inbox.
Import model db repository.
Local Open Scope go_scope.

Record Config := { Topic : string }.

(** The subscriber and its surroundings: the database, the messages whose
    [Mark] has been called (the acknowledged offsets), and the log. *)
Record State := {
  world : St;
  marked : list kafka.Message;
  log : list string
}.

(** [defer func() { if err != nil { if rErr := tx.Rollback(ctx); rErr != nil
    { err = fmt.Errorf("%w, failed to rollback transaction: %w", err, rErr) } } }()]
    on the named result [err]. *)
Definition deferRollbackOnErr {A} (body : M A) : M A :=
  fun s =>
    match body s with
    | (Ok a, s1) => (Ok a, s1)
    | (Err e, s1) =>
        match Rollback s1 with
        | (Ok _, s2) => (Err e, s2)
        | (Err rErr, s2) =>
            (Err (e ++ ", failed to rollback transaction: " ++ rErr), s2)
        end
    end.

Section Subscriber.

(** The collaborators: the configuration, [uuid.New] and [json.Unmarshal]
    into [model.CheckResultFromAgent]. *)
Variable cfg : Config.
Variable gen : nat -> UUID.
Variable unmarshal : string -> result CheckResultFromAgent.t.

Definition checkResultOf (id : UUID) (c : CheckResultFromAgent.t)
    (finishedAt : Z) (value : string) : CheckResult.t :=
  let checkResult :=
    {| CheckResult.ID := id;
       CheckResult.AssignmentId := CheckResultFromAgent.TaskID c;
       CheckResult.Type_ := CheckResultFromAgent.Type_ c;
       CheckResult.Status := "DONE";
       CheckResult.StartedAt := CheckResultFromAgent.StartedAt c;
       CheckResult.FinishedAt := finishedAt;
       CheckResult.Payload := value |} in
  if CheckResultFromAgent.OK c
  then CheckResult.withStatus checkResult "DONE"
  else CheckResult.withStatus checkResult "FAILED".

Definition process (message : kafka.Message) : M unit :=
  let* messageID := wrap "failed to parse message id"
                      (service.lift (uuid.FromBytes (kafka.Key message))) in
  let* checkResultFromAgent :=
    wrap "failed to unmarshal checkResult"
      (service.lift (unmarshal (kafka.Value message))) in
  let* id := uuidNew gen in
  fun s =>
    let checkResult :=
      checkResultOf id checkResultFromAgent (now s) (kafka.Value message) in
    (let* _ := wrap "error begin transaction" Begin in
     deferRollbackOnErr (
       let* _ := wrap "failed to insert message"
                   (InboxInsertMessage viaTx messageID (Topic cfg) (kafka.Value message)) in
       let* _ := wrap "failed to insert checkResult"
                   (InsertCheckResult viaTx checkResult) in
       wrap "failed to commit transaction" Commit)) s.

(** One turn of the [worker] loop, on a message received from the pipe. *)
Definition worker (msg : kafka.Message) (q : State) : State :=
  match uuid.FromBytes (kafka.Key msg) with
  | Err e =>
      (* s.l.Error("Error parsing message id", ...); continue *)
      {| world := world q; marked := marked q;
         log := (log q ++ [("Error parsing message id: " ++ e)%string])%list |}
  | Ok messageID =>
      let (r, w) := process msg (world q) in
      let log1 :=
        match r with
        | Err e => (log q ++ [("Error processing message: " ++ e)%string])%list
        | Ok _ => log q
        end in
      (* s.l.Info("Message received", ...); msg.Mark() *)
      {| world := w; marked := marked q ++ [msg];
         log := (log1 ++ [("Message received: " ++ messageID)%string])%list |}
  end.

(** The worker on the messages it receives from the pipe, one after the
    other. *)
Definition workerRun (msgs : list kafka.Message) (q : State) : State :=
  fold_left (fun q msg => worker msg q) msgs q.

(** Does the key of a message parse as a UUID? *)
Definition keyIsUUID (msg : kafka.Message) : bool :=
  negb (isErr (uuid.FromBytes (kafka.Key msg))).

(** The tables after a successful ingest of a message with key [id]. *)
Definition ingested (d : DB) (id : UUID) (value : string) (t : Z) (cr : CheckResult.t) : DB :=
  setCheckResults
    (if hasInbox d id then d
     else setInbox d (inbox_messages d ++ [inboxRow id (Topic cfg) value t]))
    (check_results d ++ [cr]).


(** The wording of the specification for a consumed message: both rows are
    committed and the offset is acknowledged, or neither row is persisted
    and the message is not acknowledged. *)
Definition persistedAndAcked (msg : kafka.Message) (q q' : State) : Prop :=
  hasInbox (store (world q')) (kafka.Key msg) = true /\
  length (check_results (store (world q'))) = S (length (check_results (store (world q)))) /\
  marked q' = (marked q ++ [msg])%list.

Definition neitherPersistedNorAcked (q q' : State) : Prop :=
  store (world q') = store (world q) /\ marked q' = marked q.

Definition allOrNothing (msg : kafka.Message) (q : State) : Prop :=
  persistedAndAcked msg q (worker msg q) \/ neitherPersistedNorAcked q (worker msg q).

(** The wording of the specification for a key that is no UUID: nothing
    changes in the database and the offset is acknowledged. *)
Definition poisonAcked (msg : kafka.Message) (q : State) : Prop :=
  store (world (worker msg q)) = store (world q) /\ In msg (marked (worker msg q)).

End Subscriber.

End inbox.

(** ** backend/internal/api/http/handler: the result stream *)
Module handler.
Import model.

Module wsMessage.
Record t := {
  Type_ : string;
  Data : option (list CheckResultResponse.t);
  Err : string
}.
End wsMessage.

Definition isTerminalStatus (status : string) : bool :=
  String.eqb status "SUCCESS" || String.eqb status "FAILED"
  || String.eqb status "TIMEOUT" || String.eqb status "CANCELLED".

(** The [for _, it := range list] loop of [allTerminal]. *)
Fixpoint allTerminalLoop (list : list CheckResultResponse.t) : bool :=
  match list with
  | [] => true
  | it :: rest =>
      if isTerminalStatus (CheckResultResponse.Status it)
      then allTerminalLoop rest
      else false
  end.

Definition allTerminal (list : list CheckResultResponse.t) : bool :=
  if (length list =? 0)%nat then false else allTerminalLoop list.

(** The socket as the loop of [StreamResults] sees it: the frames written
    so far, the hash of the last list sent, and whether the handler has
    returned (which closes the connection). *)
Record Stream := {
  frames : list wsMessage.t;
  lastHash : string;
  returned : bool
}.

Definition opened : Stream := {| frames := []; lastHash := ""; returned := false |}.

Section StreamResults.

(** [hex(sha256(json.Marshal(results)))]. *)
Variable hashOf : list CheckResultResponse.t -> string.

Definition frame (typ : string) (results : list CheckResultResponse.t) : wsMessage.t :=
  {| wsMessage.Type_ := typ; wsMessage.Data := Some results; wsMessage.Err := "" |}.

(** The [case <-ticker.C] branch: [query] is what
    [GetResultsByRequestID] returns, [writable] tells whether [WriteJSON]
    inside [send] succeeds. *)
Definition onTick (query : result (list CheckResultResponse.t)) (writable : bool)
    (c : Stream) : Stream :=
  if returned c then c else
  match query with
  | Err e =>
      if writable
      then {| frames := frames c ++ [{| wsMessage.Type_ := "error"; wsMessage.Data := None;
                                   wsMessage.Err := e |}];
              lastHash := lastHash c; returned := false |}
      else {| frames := frames c; lastHash := lastHash c; returned := true |}
  | Ok results =>
      let newHash := hashOf results in
      let sent :=
        if String.eqb (lastHash c) "" then Some (frame "snapshot" results)
        else if negb (String.eqb newHash (lastHash c)) then Some (frame "update" results)
        else None in
      match sent with
      | Some f =>
          if writable then
            if allTerminal results
            then {| frames := frames c ++ [f; frame "done" results];
                    lastHash := newHash; returned := true |}
            else {| frames := frames c ++ [f]; lastHash := newHash; returned := false |}
          else {| frames := frames c; lastHash := lastHash c; returned := true |}
      | None =>
          if allTerminal results
          then {| frames := frames c ++ [frame "done" results];
                  lastHash := lastHash c; returned := true |}
          else c
      end
  end.

(** The [case <-ctx.Done()] branch: a bare done frame, then return. *)
Definition onCancel (c : Stream) : Stream :=
  if returned c then c else
  {| frames := frames c ++ [{| wsMessage.Type_ := "done"; wsMessage.Data := None;
                               wsMessage.Err := "" |}];
     lastHash := lastHash c; returned := true |}.

(** One turn of the [for { select { ... } }] loop. *)
Inductive turn :=
| Ticked (query : result (list CheckResultResponse.t)) (writable : bool)
| Cancelled.

Definition onTurn (t : turn) (c : Stream) : Stream :=
  match t with
  | Ticked query writable => onTick query writable c
  | Cancelled => onCancel c
  end.

(** [StreamResults] after the upgrade: [requestID] is what [uuid.Parse]
    makes of the path parameter, [turns] what the loop meets. *)
Definition StreamResults (requestID : result UUID) (turns : list turn) : Stream :=
  match requestID with
  | Err _ =>
      {| frames := [{| wsMessage.Type_ := "error"; wsMessage.Data := None;
                       wsMessage.Err := "invalid request_id" |}];
         lastHash := ""; returned := true |}
  | Ok _ => fold_left (fun c t => onTurn t c) turns opened
  end.

End StreamResults.

(** *** Vocabulary for statements about the stream *)

(** The order of frame types on a socket: error frames at any time before
    the end, one snapshot before any update, a done frame last. *)
Inductive phase := Fresh | Streaming | Closed.

Definition accepts (p : phase) (typ : string) : option phase :=
  match p with
  | Fresh =>
      if String.eqb typ "error" then Some Fresh
      else if String.eqb typ "snapshot" then Some Streaming
      else if String.eqb typ "done" then Some Closed
      else None
  | Streaming =>
      if String.eqb typ "error" then Some Streaming
      else if String.eqb typ "update" then Some Streaming
      else if String.eqb typ "done" then Some Closed
      else None
  | Closed => None
  end.

Fixpoint protocol (p : phase) (types : list string) : option phase :=
  match types with
  | [] => Some p
  | typ :: rest =>
      match accepts p typ with
      | Some p' => protocol p' rest
      | None => None
      end
  end.

(** The invariant of the loop: the frames written so far follow the
    protocol, and while the handler runs the phase is told by [lastHash]. *)
Definition following (c : Stream) : Prop :=
  if returned c
  then exists p, protocol Fresh (map wsMessage.Type_ (frames c)) = Some p
  else (lastHash c = "" /\ protocol Fresh (map wsMessage.Type_ (frames c)) = Some Fresh) \/
       (lastHash c <> "" /\ protocol Fresh (map wsMessage.Type_ (frames c)) = Some Streaming).

(** *** The HTTP handlers of request.go *)

Definition StatusErr : string := "error".
Definition StatusSuccess : string := "success".
Definition StatusNotPermitted : string := "not permitted".
Definition StatusForbidden : string := "forbidden".

(** What [c.JSON] is given: [ResponseWithMessage] or [ResponseWithData]. *)
Inductive body :=
| ResponseWithMessage (status message : string)
| RequestData (status : string) (data : Request.t)
| ResultsData (status : string) (data : list CheckResultResponse.t).

Record response := { code : Z; payload : body }.

Section RequestHandler.
Import db.

(** The service behind the handler and the library calls of the handler:
    [net.ParseIP] and [uuid.Parse]. *)
Variable geo : geoip.Geo.
Variable gen : nat -> UUID.
Variable marshalTask : wire.TaskMessage.t -> result string.
Variable ipText : string -> string.
Variable ParseIP : string -> geoip.IP.
Variable uuidParse : string -> result UUID.

(** [RequestHandler.CreateRequest]: [bound] is what [c.ShouldBindJSON]
    gives, [clientIPStr] is [c.ClientIP()], [userAgent] the header. *)
Definition CreateRequest (bound : result wire.TaskMessageRequest.t)
    (clientIPStr userAgent : string) (s : St) : response * St :=
  match bound with
  | Err e => ({| code := 400; payload := ResponseWithMessage StatusErr e |}, s)
  | Ok req =>
      let clientIP := ParseIP clientIPStr in
      match service.CreateRequest geo gen marshalTask ipText req clientIP userAgent s with
      | (Err e, s') => ({| code := 500; payload := ResponseWithMessage StatusErr e |}, s')
      | (Ok request, s') => ({| code := 201; payload := RequestData StatusSuccess request |}, s')
      end
  end.

(** [RequestHandler.GetResults]: [uri] is what [c.ShouldBindUri] gives, the
    text of the path parameter. *)
Definition GetResults (uri : result string) (s : St) : response * St :=
  match uri with
  | Err e => ({| code := 400; payload := ResponseWithMessage StatusErr e |}, s)
  | Ok id =>
      match uuidParse id with
      | Err e => ({| code := 400; payload := ResponseWithMessage StatusErr e |}, s)
      | Ok requestUID =>
          match service.GetResultsByRequestID requestUID s with
          | (Err e, s') => ({| code := 500; payload := ResponseWithMessage StatusErr e |}, s')
          | (Ok res, s') => ({| code := 200; payload := ResultsData StatusSuccess res |}, s')
          end
      end
  end.

End RequestHandler.

End handler.

(** ** backend/internal/api/http/middleware: RequireRoles *)
Module middleware.

(** A value stored in the gin context under a key: a string, or a value of
    another dynamic type (nil included). *)
Inductive any :=
| AnyString (s : string)
| AnyOther.

(** What the middleware does with the context. *)
Inductive effect :=
| AbortWithStatusJSON (code : Z) (status message : string)
| Next.

Section RequireRoles.

(** [model.UserRoleKey], the key under which [JWTAuth] stores the role
    claim. *)
Variable UserRoleKey : string.

(** The handler [RequireRoles(allowedRoles...)] returns, on a context with
    the given keys.  A role that is no string aborts and, there being no
    [return] after it, goes on with the zero string as role. *)
Definition RequireRoles (allowedRoles : list string) (keys : gmap string any)
  : list effect :=
  let roleSet : gset string := list_to_set allowedRoles in
  match keys !! UserRoleKey with
  | None =>
      [AbortWithStatusJSON 403 handler.StatusNotPermitted "no data about the users roles"]
  | Some roleVal =>
      let role := match roleVal with AnyString s => s | AnyOther => "" end in
      let aborted :=
        match roleVal with
        | AnyString _ => []
        | AnyOther =>
            [AbortWithStatusJSON 403 handler.StatusNotPermitted "invalid role format"]
        end in
      if decide (role ∈ roleSet) then aborted ++ [Next]
      else aborted ++
           [AbortWithStatusJSON 403 handler.StatusForbidden "insufficient roles privileges"]
  end.

End RequireRoles.

End middleware.

(** ** Go's [strconv.Atoi] *)
Module strconv.

Definition digitOf (c : ascii) : option Z :=
  let n := nat_of_ascii c in
  if ((48 <=? n) && (n <=? 57))%nat then Some (Z.of_nat n - 48) else None.

Fixpoint digits (s : string) (acc : Z) : option Z :=
  match s with
  | EmptyString => Some acc
  | String c s' =>
      match digitOf c with
      | Some d => digits s' (10 * acc + d)
      | None => None
      end
  end.

(** One optional sign, then at least one decimal digit. *)
Definition parseDecimal (s : string) : option Z :=
  match s with
  | EmptyString => None
  | String c s' =>
      if Ascii.eqb c "+" then
        match s' with EmptyString => None | _ => digits s' 0 end
      else if Ascii.eqb c "-" then
        match s' with EmptyString => None | _ => option_map Z.opp (digits s' 0) end
      else digits s 0
  end.


Definition minInt : Z := - 2 ^ 63.
Definition maxInt : Z := 2 ^ 63 - 1.

Definition Atoi (s : string) : result Z :=
  match parseDecimal s with
  | None => Err "strconv.Atoi: invalid syntax"
  | Some z =>
      if (minInt <=? z) && (z <=? maxInt) then Ok z
      else Err "strconv.Atoi: value out of range"
  end.

End strconv.

(** ** agent/internal/model and agent/internal/service *)
Module agent.
Import GoStrings wire.

(** How a call ends: it returns a value, returns an error, or panics. *)
Inductive outcome (A : Type) : Type :=
| Returned (a : A)
| Failed (e : string)
| Panicked (why : string).
Arguments Returned {A} a.
Arguments Failed {A} e.
Arguments Panicked {A} why.

Definition obind {A B} (m : outcome A) (k : A -> outcome B) : outcome B :=
  match m with
  | Returned a => k a
  | Failed e => Failed e
  | Panicked w => Panicked w
  end.

Definition ofResult {A} (r : result A) : outcome A :=
  match r with Ok a => Returned a | Err e => Failed e end.

Declare Scope agent_scope.
Delimit Scope agent_scope with agent.
Notation "'let*' x := m 'in' k" := (obind m (fun x => k))
  (at level 10, x name, m at level 100, k at level 200) : agent_scope.
Local Open Scope agent_scope.

Module HTTPParams.
Record t := {
  Scheme : string; Path : string; Headers : gmap string string;
  ExpectedStatusRange : Z * Z; FollowRedirects : bool; MaxBodyBytes : Z
}.
End HTTPParams.

Module PingParams.
Record t := { Count : Z; IntervalMs : Z }.
End PingParams.

Module TCPParams.
Record t := { Port : Z; ConnectTimeoutMs : Z }.
End TCPParams.

Module TracerouteParams.
Record t := { Mode : string; Port : Z; MaxHops : Z; Paris : bool }.
End TracerouteParams.

Module DNSParams.
Record t := { Records : list string; Resolver : string }.
End DNSParams.

(** The result envelope.  [Error] is empty when the field is omitted
    ([omitempty]); [Payload] is [None] for a nil [json.RawMessage]. *)
Module CheckResult.
Record t := {
  TaskID : model.UUID; CheckIndex : nat; Type_ : string; Target : string;
  StartedAt : Z; DurationMs : Z; OK : bool; Error : string;
  Payload : option json.value
}.
End CheckResult.

(** *** Maps of parameters *)

Definition Params := option (gmap string json.value).

(** [v, ok := m[k]]: reading a nil map finds nothing. *)
Definition lookupParam (m : Params) (k : string) : option json.value :=
  match m with
  | None => None
  | Some g => g !! k
  end.

(** [m[k] = v]: writing into a nil map panics. *)
Definition assignParam (m : Params) (k : string) (v : json.value) : outcome Params :=
  match m with
  | None => Panicked "assignment to entry in nil map"
  | Some g => Returned (Some (<[k := v]> g))
  end.

(** [delete(m, k)]: a no-op on a nil map. *)
Definition deleteParam (m : Params) (k : string) : Params :=
  match m with
  | None => None
  | Some g => Some (delete k g)
  end.

(** *** encoding/json on the parameter structs

    [decodeLoose] marshals the map and unmarshals the text into a struct;
    [mustToMap] marshals the struct and unmarshals into a fresh map.  Both
    are modelled on values: a struct field reads the entry spelled as its
    JSON tag (the case-insensitive fallback of encoding/json is not
    modelled), a missing or null entry leaves the field zero, an entry of
    another type is an error, and unknown entries are skipped.  A float64
    holding an integer is printed without exponent below 1e21, so it reads
    back into an [int] exactly when it is integral and fits 64 bits. *)

Definition isIntegral (q : Q) : bool :=
  (Qnum q mod Zpos (Qden q) =? 0)%Z.

(** [int(t)] for a float64 [t]: truncation towards zero. *)
Definition truncate (q : Q) : Z := Z.quot (Qnum q) (Zpos (Qden q)).

Definition typeError {A} (what : string) : result A :=
  Err ("json: cannot unmarshal " ++ what).

Definition decNumber (q : Q) : result Z :=
  if isIntegral q && (strconv.minInt <=? truncate q)%Z && (truncate q <=? strconv.maxInt)%Z
  then Ok (truncate q)
  else typeError "number into Go value of type int".

Definition decInt (o : option json.value) : result Z :=
  match o with
  | None | Some json.Null => Ok 0%Z
  | Some (json.Number q) => decNumber q
  | Some _ => typeError "value into Go value of type int"
  end.

Definition decString (o : option json.value) : result string :=
  match o with
  | None | Some json.Null => Ok ""
  | Some (json.Str s) => Ok s
  | Some _ => typeError "value into Go value of type string"
  end.

Definition decBool (o : option json.value) : result bool :=
  match o with
  | None | Some json.Null => Ok false
  | Some (json.Bool b) => Ok b
  | Some _ => typeError "value into Go value of type bool"
  end.

Definition rbind {A B} (r : result A) (k : A -> result B) : result B :=
  match r with Ok a => k a | Err e => Err e end.

(** Into [[2]int]: the first two elements count, missing ones are zero. *)
Definition decIntPair (o : option json.value) : result (Z * Z) :=
  match o with
  | None | Some json.Null => Ok (0, 0)%Z
  | Some (json.IntPair a b) => Ok (a, b)
  | Some (json.Array l) =>
      rbind (decInt (nth_error l 0)) (fun a =>
      rbind (decInt (nth_error l 1)) (fun b => Ok (a, b)))
  | Some _ => typeError "value into Go value of type [2]int"
  end.

Fixpoint decStrings (l : list json.value) : result (list string) :=
  match l with
  | [] => Ok []
  | v :: l' =>
      rbind (decString (Some v)) (fun s =>
      rbind (decStrings l') (fun ss => Ok (s :: ss)))
  end.

Definition decStringList (o : option json.value) : result (list string) :=
  match o with
  | None | Some json.Null => Ok []
  | Some (json.StringList l) => Ok l
  | Some (json.Array l) => decStrings l
  | Some _ => typeError "value into Go value of type []string"
  end.

Fixpoint decFields (l : list (string * json.value)) : result (list (string * string)) :=
  match l with
  | [] => Ok []
  | (k, v) :: l' =>
      rbind (decString (Some v)) (fun s =>
      rbind (decFields l') (fun ss => Ok ((k, s) :: ss)))
  end.

Definition decStringMap (o : option json.value) : result (gmap string string) :=
  match o with
  | None | Some json.Null => Ok ∅
  | Some (json.StringMap l) => Ok (list_to_map l)
  | Some (json.Object l) => rbind (decFields l) (fun l' => Ok (list_to_map l'))
  | Some _ => typeError "value into Go value of type map[string]string"
  end.

Definition number (z : Z) : json.value := json.Number (inject_Z z).

Definition decodeHTTP (m : Params) : result HTTPParams.t :=
  rbind (decString (lookupParam m "scheme")) (fun scheme =>
  rbind (decString (lookupParam m "path")) (fun path =>
  rbind (decStringMap (lookupParam m "headers")) (fun headers =>
  rbind (decIntPair (lookupParam m "expectedStatusRange")) (fun range =>
  rbind (decBool (lookupParam m "followRedirects")) (fun follow =>
  rbind (decInt (lookupParam m "maxBodyBytes")) (fun maxBody =>
  Ok {| HTTPParams.Scheme := scheme; HTTPParams.Path := path;
        HTTPParams.Headers := headers;
        HTTPParams.ExpectedStatusRange := range;
        HTTPParams.FollowRedirects := follow;
        HTTPParams.MaxBodyBytes := maxBody |})))))).

Definition decodePing (m : Params) : result PingParams.t :=
  rbind (decInt (lookupParam m "count")) (fun count =>
  rbind (decInt (lookupParam m "intervalMs")) (fun interval =>
  Ok {| PingParams.Count := count; PingParams.IntervalMs := interval |})).

Definition decodeTCP (m : Params) : result TCPParams.t :=
  rbind (decInt (lookupParam m "port")) (fun port =>
  rbind (decInt (lookupParam m "connectTimeoutMs")) (fun timeout =>
  Ok {| TCPParams.Port := port; TCPParams.ConnectTimeoutMs := timeout |})).

Definition decodeTraceroute (m : Params) : result TracerouteParams.t :=
  rbind (decString (lookupParam m "mode")) (fun mode =>
  rbind (decInt (lookupParam m "port")) (fun port =>
  rbind (decInt (lookupParam m "maxHops")) (fun maxHops =>
  rbind (decBool (lookupParam m "paris")) (fun paris =>
  Ok {| TracerouteParams.Mode := mode; TracerouteParams.Port := port;
        TracerouteParams.MaxHops := maxHops; TracerouteParams.Paris := paris |})))).

Definition decodeDNS (m : Params) : result DNSParams.t :=
  rbind (decStringList (lookupParam m "records")) (fun records =>
  rbind (decString (lookupParam m "resolver")) (fun resolver =>
  Ok {| DNSParams.Records := records; DNSParams.Resolver := resolver |})).

(** [mustToMap], struct by struct ([omitempty] drops an empty [headers]
    and an empty [resolver]). *)
Definition headersValue (h : gmap string string) : json.value :=
  json.Object (map (fun kv => (fst kv, json.Str (snd kv))) (map_to_list h)).

Definition mapOfHTTP (hp : HTTPParams.t) : Params :=
  let m : gmap string json.value :=
    <["scheme" := json.Str (HTTPParams.Scheme hp)]>
    (<["path" := json.Str (HTTPParams.Path hp)]>
    (<["expectedStatusRange" :=
         json.Array [number (fst (HTTPParams.ExpectedStatusRange hp));
                     number (snd (HTTPParams.ExpectedStatusRange hp))]]>
    (<["followRedirects" := json.Bool (HTTPParams.FollowRedirects hp)]>
    (<["maxBodyBytes" := number (HTTPParams.MaxBodyBytes hp)]> ∅)))) in
  Some (if decide (HTTPParams.Headers hp = ∅) then m
        else <["headers" := headersValue (HTTPParams.Headers hp)]> m).

Definition mapOfPing (pp : PingParams.t) : Params :=
  Some (<["count" := number (PingParams.Count pp)]>
        (<["intervalMs" := number (PingParams.IntervalMs pp)]> ∅)).

Definition mapOfTCP (tp : TCPParams.t) : Params :=
  Some (<["port" := number (TCPParams.Port tp)]>
        (<["connectTimeoutMs" := number (TCPParams.ConnectTimeoutMs tp)]> ∅)).

Definition mapOfTraceroute (tp : TracerouteParams.t) : Params :=
  Some (<["mode" := json.Str (TracerouteParams.Mode tp)]>
        (<["port" := number (TracerouteParams.Port tp)]>
        (<["maxHops" := number (TracerouteParams.MaxHops tp)]>
        (<["paris" := json.Bool (TracerouteParams.Paris tp)]> ∅)))).

Definition mapOfDNS (dp : DNSParams.t) : Params :=
  let m : gmap string json.value :=
    <["records" := match DNSParams.Records dp with
                   | [] => json.Null
                   | l => json.Array (map json.Str l)
                   end]> ∅ in
  Some (if String.eqb (DNSParams.Resolver dp) "" then m
        else <["resolver" := json.Str (DNSParams.Resolver dp)]> m).

(** *** service.go: parsing and normalizing a task *)

Definition Itoa (z : Z) : string := NilZero.string_of_int (Z.to_int z).

Definition parseRange2Int (s : string) : result (Z * Z) :=
  let s := TrimSpace s in
  let s := TrimPrefix s "[" in
  let s := TrimSuffix s "]" in
  let parts := Split1 s "," in
  match parts with
  | [p0; p1] =>
      rbind (strconv.Atoi (TrimSpace p0)) (fun a =>
      rbind (strconv.Atoi (TrimSpace p1)) (fun b => Ok (a, b)))
  | _ => Err "range must be like [a,b]"
  end.

(** [toInt]: the values of a decoded JSON array are float64, strings,
    bools, ...; only the numbers convert.  [int(t)] truncates; where the
    float is outside the range of [int] the conversion is left to the
    platform, and amd64 gives the least [int]. *)
Definition toInt (v : json.value) : Z :=
  match v with
  | json.Number q =>
      let z := truncate q in
      if (strconv.minInt <=? z)%Z && (z <=? strconv.maxInt)%Z then z
      else strconv.minInt
  | _ => 0%Z
  end.

Definition withParams (c : CheckRequest.t) (m : Params) : CheckRequest.t :=
  {| CheckRequest.Type_ := CheckRequest.Type_ c; CheckRequest.Params := m |}.



Section Service.

(** [json.Unmarshal] of a task message, of a [map[string]string] and of a
    [[]string]; [None] when it returns an error. *)
Variable unmarshalTask : string -> result TaskMessage.t.
Variable unmarshalStringMap : string -> option (list (string * string)).
Variable unmarshalStringList : string -> option (list string).

(** The [expectedStatusRange] block of the http case. *)
Definition normalizeRange (m : Params) : outcome Params :=
  match lookupParam m "expectedStatusRange" with
  | Some v =>
      match v with
      | json.Str vv =>
          match parseRange2Int vv with
          | Err e => Failed ("expectedStatusRange: " ++ e)
          | Ok r => assignParam m "expectedStatusRange" (json.IntPair (fst r) (snd r))
          end
      | json.Array vv =>
          match vv with
          | [v0; v1] =>
              assignParam m "expectedStatusRange" (json.IntPair (toInt v0) (toInt v1))
          | _ => Failed "expectedStatusRange must have 2 elements"
          end
      | _ => Returned m
      end
  | None => assignParam m "expectedStatusRange" (json.IntPair 200 299)
  end.

(** The [headers] block of the http case. *)
Definition normalizeHeaders (m : Params) : outcome Params :=
  match lookupParam m "headers" with
  | Some (json.Str s) =>
      let str := TrimSpace s in
      if String.eqb str "" then Returned (deleteParam m "headers")
      else if String.prefix "{" str then
        match unmarshalStringMap str with
        | Some h => assignParam m "headers" (json.StringMap h)
        | None => Returned (deleteParam m "headers")
        end
      else Returned (deleteParam m "headers")
  | _ => Returned m
  end.

Definition defaultsHTTP (hp : HTTPParams.t) : HTTPParams.t :=
  {| HTTPParams.Scheme :=
       if String.eqb (HTTPParams.Scheme hp) "" then "https" else HTTPParams.Scheme hp;
     HTTPParams.Path :=
       if String.eqb (HTTPParams.Path hp) "" then "/" else HTTPParams.Path hp;
     HTTPParams.Headers := HTTPParams.Headers hp;
     HTTPParams.ExpectedStatusRange :=
       (let r := HTTPParams.ExpectedStatusRange hp in
        if (fst r =? 0)%Z && (snd r =? 0)%Z then (200, 299)%Z else r);
     HTTPParams.FollowRedirects := HTTPParams.FollowRedirects hp;
     HTTPParams.MaxBodyBytes := HTTPParams.MaxBodyBytes hp |}.

Definition defaultsPing (pp : PingParams.t) : PingParams.t :=
  {| PingParams.Count := if (PingParams.Count pp <=? 0)%Z then 4%Z else PingParams.Count pp;
     PingParams.IntervalMs :=
       if (PingParams.IntervalMs pp <=? 0)%Z then 1000%Z else PingParams.IntervalMs pp |}.

Definition defaultsTCP (tp : TCPParams.t) : TCPParams.t :=
  {| TCPParams.Port := TCPParams.Port tp;
     TCPParams.ConnectTimeoutMs :=
       if (TCPParams.ConnectTimeoutMs tp <=? 0)%Z then 3000%Z
       else TCPParams.ConnectTimeoutMs tp |}.

Definition defaultsTraceroute (tp : TracerouteParams.t) : TracerouteParams.t :=
  {| TracerouteParams.Mode :=
       if String.eqb (TracerouteParams.Mode tp) "" then "udp" else TracerouteParams.Mode tp;
     TracerouteParams.Port := TracerouteParams.Port tp;
     TracerouteParams.MaxHops :=
       if (TracerouteParams.MaxHops tp <=? 0)%Z then 30%Z else TracerouteParams.MaxHops tp;
     TracerouteParams.Paris := TracerouteParams.Paris tp |}.

Definition defaultsDNS (dp : DNSParams.t) : DNSParams.t :=
  {| DNSParams.Records :=
       match DNSParams.Records dp with [] => ["A"] | l => l end;
     DNSParams.Resolver := DNSParams.Resolver dp |}.

(** The [records] block of the dns case. *)
Definition normalizeRecords (m : Params) : outcome Params :=
  match lookupParam m "records" with
  | Some (json.Str s) =>
      match unmarshalStringList s with
      | Some arr => assignParam m "records" (json.StringList arr)
      | None => Returned m
      end
  | _ => Returned m
  end.

(** [normalizeCheckParams] returns the check as the caller finds it
    afterwards. *)
Definition normalizeCheckParams (c : CheckRequest.t) : outcome CheckRequest.t :=
  let typ := ToLower (CheckRequest.Type_ c) in
  if String.eqb typ "http" then
    let* m := normalizeRange (CheckRequest.Params c) in
    let* m := normalizeHeaders m in
    let* hp := ofResult (decodeHTTP m) in
    Returned (withParams c (mapOfHTTP (defaultsHTTP hp)))
  else if String.eqb typ "ping" then
    let* pp := ofResult (decodePing (CheckRequest.Params c)) in
    Returned (withParams c (mapOfPing (defaultsPing pp)))
  else if String.eqb typ "tcp" then
    let* tp := ofResult (decodeTCP (CheckRequest.Params c)) in
    Returned (withParams c (mapOfTCP (defaultsTCP tp)))
  else if String.eqb typ "traceroute" then
    let* tp := ofResult (decodeTraceroute (CheckRequest.Params c)) in
    Returned (withParams c (mapOfTraceroute (defaultsTraceroute tp)))
  else if String.eqb typ "dns" then
    let* m := normalizeRecords (CheckRequest.Params c) in
    let* dp := ofResult (decodeDNS m) in
    Returned (withParams c (mapOfDNS (defaultsDNS dp)))
  else Failed ("unsupported check type " ++ Quote (CheckRequest.Type_ c)).

(** The loop of [ParseTask] over [t.Checks], from index [i] on. *)
Fixpoint normalizeChecks (i : nat) (checks : list CheckRequest.t)
  : outcome (list CheckRequest.t) :=
  match checks with
  | [] => Returned []
  | c :: rest =>
      match normalizeCheckParams c with
      | Returned c' =>
          let* rest' := normalizeChecks (S i) rest in
          Returned (c' :: rest')
      | Failed e =>
          Failed ("check " ++ Itoa (Z.of_nat i) ++ " (" ++ CheckRequest.Type_ c ++ "): " ++ e)
      | Panicked w => Panicked w
      end
  end.

Definition withChecks (t : TaskMessage.t) (checks : list CheckRequest.t) : TaskMessage.t :=
  {| TaskMessage.ID := TaskMessage.ID t; TaskMessage.Target := TaskMessage.Target t;
     TaskMessage.TimeoutSeconds := TaskMessage.TimeoutSeconds t;
     TaskMessage.ClientContext := TaskMessage.ClientContext t;
     TaskMessage.Checks := checks;
     TaskMessage.Metadata := TaskMessage.Metadata t |}.

Definition ParseTask (data : string) : outcome TaskMessage.t :=
  match unmarshalTask data with
  | Err e => Failed ("bad task json: " ++ e)
  | Ok t =>
      let* checks := normalizeChecks 0 (TaskMessage.Checks t) in
      Returned (withChecks t checks)
  end.

(** *** service.go: running the checks *)

(** Seconds. *)
Definition perCheckTimeout (typ : string) : Z :=
  let t := ToLower typ in
  if String.eqb t "http" then 5
  else if String.eqb t "tcp" then 3
  else if String.eqb t "ping" then 6
  else if String.eqb t "dns" then 4
  else if String.eqb t "traceroute" then 16
  else 5.

(** [err] is the Go error ([None] for nil) by its text, [payload] the
    value to marshal ([None] for nil); [elapsedMs] is
    [time.Since(start).Milliseconds()]. *)
Definition makeResTemplate (taskID : model.UUID) (idx : nat) (typ target : string)
    (start elapsedMs : Z) (ok : bool) (err : option string)
    (payload : option json.value) : CheckResult.t :=
  {| CheckResult.TaskID := taskID;
     CheckResult.CheckIndex := idx;
     CheckResult.Type_ := ToLower typ;
     CheckResult.Target := target;
     CheckResult.StartedAt := start;
     CheckResult.DurationMs := elapsedMs;
     CheckResult.OK := ok;
     CheckResult.Error := match err with Some e => e | None => "" end;
     CheckResult.Payload := payload |}.

Definition withDurationMs (r : CheckResult.t) (ms : Z) : CheckResult.t :=
  {| CheckResult.TaskID := CheckResult.TaskID r;
     CheckResult.CheckIndex := CheckResult.CheckIndex r;
     CheckResult.Type_ := CheckResult.Type_ r;
     CheckResult.Target := CheckResult.Target r;
     CheckResult.StartedAt := CheckResult.StartedAt r;
     CheckResult.DurationMs := ms;
     CheckResult.OK := CheckResult.OK r;
     CheckResult.Error := CheckResult.Error r;
     CheckResult.Payload := CheckResult.Payload r |}.

(** What the outside answers to a probe. *)
Inductive httpAnswer :=
| NewRequestError (e : string)           (* http.NewRequestWithContext fails *)
| DoError (e : string)                   (* client.Do fails *)
| Response (status : Z) (finalURL : string) (latencyMs : Z).

Inductive tcpAnswer :=
| DialError (e : string)
| Connected (handshakeMs : Z).

Inductive cmdError :=
| ExitError (code : Z) (text : string)   (* *exec.ExitError *)
| OtherError (text : string).

Definition cmdErrorText (e : cmdError) : string :=
  match e with ExitError _ t => t | OtherError t => t end.

Record cmdAnswer := { output : string; failure : option cmdError }.

(** Everything a check may get from the outside: the clock, the answers
    of the HTTP client, of the dialer, of the resolver (per position in
    [records]) and of the ping and traceroute commands. *)
Record answers := {
  start : Z;
  elapsedMs : Z;
  http : httpAnswer;
  tcp : tcpAnswer;
  lookupHost : nat -> result (list string);
  lookupMX : nat -> result (list (string * Z));
  ping : cmdAnswer;
  traceroute : cmdAnswer
}.

(** What happens to the goroutine of a check: the task context is already
    done when it starts ([ctx.Err()] and the clock are given), or the probe
    runs. *)
Inductive fate :=
| ContextDone (ctxErr : string) (at_ : Z)
| Probed (a : answers).

Section Runners.

(** The platform and the libraries: [runtime.GOOS == "windows"], the code
    page decoders, [net.ParseIP] with [To4] ([Some true] for IPv4,
    [Some false] for IPv6, [None] when the text is no address),
    [fmt.Sprintf("%.3f", ms/1000)], [exec.Cmd.String] and the hops
    [runTraceroute] derives from the output (hop extraction and geo
    resolution are not modelled: they feed the payload only). *)
Variable windows : bool.
Variable decodeCodePage : string -> string.
Variable ipFamily : string -> option bool.
Variable formatSeconds : Z -> string.
Variable cmdString : string -> list string -> string.
Variable hopsOf : string -> json.value.

Definition nonEmpty (s def : string) : string :=
  if String.eqb (TrimSpace s) "" then def else s.

Definition JoinHostPort (host port : string) : string :=
  if contains ":" host || contains "%" host
  then "[" ++ host ++ "]:" ++ port
  else host ++ ":" ++ port.

Definition decodeConsole (out : string) : string :=
  if windows then decodeCodePage out else out.

Definition exitCode (err : option cmdError) : Z :=
  match err with
  | None => 0
  | Some (ExitError code _) => code
  | Some (OtherError _) => -1
  end.

Definition runHTTP (target : string) (p : HTTPParams.t) (a : httpAnswer)
    (makeRes : bool -> option string -> option json.value -> CheckResult.t)
  : CheckResult.t :=
  let url := nonEmpty (HTTPParams.Scheme p) "https" ++ "://" ++ target
             ++ nonEmpty (HTTPParams.Path p) "/" in
  match a with
  | NewRequestError e => makeRes false (Some e) None
  | DoError e => makeRes false (Some e) (Some (json.Object [("url", json.Str url)]))
  | Response status finalURL latencyMs =>
      let ok := (fst (HTTPParams.ExpectedStatusRange p) <=? status)%Z
                && (status <=? snd (HTTPParams.ExpectedStatusRange p))%Z in
      let payload :=
        json.Object [("url", json.Str url);
                     ("status", number status);
                     ("latencyMs", number latencyMs);
                     ("finalURL", json.Str finalURL);
                     ("limitBytes", number (HTTPParams.MaxBodyBytes p))] in
      makeRes ok None (Some payload)
  end.

Definition runTCP (target : string) (p : TCPParams.t) (a : tcpAnswer)
    (makeRes : bool -> option string -> option json.value -> CheckResult.t)
  : CheckResult.t :=
  let addr := JoinHostPort target (Itoa (TCPParams.Port p)) in
  match a with
  | DialError e => makeRes false (Some e) (Some (json.Object [("addr", json.Str addr)]))
  | Connected handshakeMs =>
      makeRes true None
        (Some (json.Object [("addr", json.Str addr); ("handshake", number handshakeMs)]))
  end.

Definition stringsValue (l : list string) : json.value :=
  match l with
  | [] => json.Null
  | _ => json.Array (map json.Str l)
  end.

(** The loop of [runDNS] over [p.Records], from position [i] on. *)
Fixpoint dnsLoop (a : answers) (i : nat) (records : list string)
    (results : gmap string json.value) (haveError : bool)
  : gmap string json.value * bool :=
  match records with
  | [] => (results, haveError)
  | rr :: rest =>
      let u := ToUpper rr in
      let step :=
        if String.eqb u "A" then
          match lookupHost a i with
          | Err e => (<["A_error" := json.Str e]> results, true)
          | Ok ips =>
              (<["A" := stringsValue
                          (List.filter (fun ip => match ipFamily ip with
                                                  | Some true => true
                                                  | _ => false
                                                  end) ips)]> results,
               haveError)
          end
        else if String.eqb u "AAAA" then
          match lookupHost a i with
          | Err e => (<["AAAA_error" := json.Str e]> results, true)
          | Ok ips =>
              (<["AAAA" := stringsValue
                             (List.filter (fun ip => match ipFamily ip with
                                                     | Some false => true
                                                     | _ => false
                                                     end) ips)]> results,
               haveError)
          end
        else if String.eqb u "MX" then
          match lookupMX a i with
          | Err e => (<["MX_error" := json.Str e]> results, true)
          | Ok mx =>
              (<["MX" := json.Array
                           (map (fun r => json.Object [("host", json.Str (fst r));
                                                       ("pref", number (snd r))]) mx)]>
                 results,
               haveError)
          end
        else (<[(u ++ "_error")%string := json.Str "unsupported record type"]> results, true) in
      dnsLoop a (S i) rest (fst step) (snd step)
  end.

Definition runDNS (p : DNSParams.t) (a : answers)
    (makeRes : bool -> option string -> option json.value -> CheckResult.t)
  : CheckResult.t :=
  let r := dnsLoop a 0 (DNSParams.Records p) ∅ false in
  makeRes (negb (snd r)) None (Some (json.Object (map_to_list (fst r)))).

Definition runPing (target : string) (p : PingParams.t) (a : cmdAnswer)
    (makeRes : bool -> option string -> option json.value -> CheckResult.t)
  : CheckResult.t :=
  let args :=
    if windows then ["-n"; Itoa (PingParams.Count p); target]
    else ["-c"; Itoa (PingParams.Count p); "-i";
          formatSeconds (PingParams.IntervalMs p); target] in
  let out := decodeConsole (output a) in
  match failure a with
  | Some err =>
      makeRes false (Some (cmdErrorText err))
        (Some (json.Object [("command", json.Str (cmdString "ping" args));
                            ("output", json.Str (tail out 4096));
                            ("exitCode", number (exitCode (Some err)))]))
  | None =>
      makeRes true None
        (Some (json.Object [("command", json.Str (cmdString "ping" args));
                            ("output", json.Str (tail out 4096));
                            ("exitCode", number 0)]))
  end.

Definition buildTracerouteArgs (target : string) (p : TracerouteParams.t)
  : string * list string :=
  let maxHops := if (TracerouteParams.MaxHops p <=? 0)%Z then 30%Z
                 else TracerouteParams.MaxHops p in
  if windows then ("tracert", ["-d"; "-h"; Itoa maxHops; "-w"; "1000"; target])
  else
    let args := ["-n"; "-m"; Itoa maxHops] in
    let mode := ToLower (TracerouteParams.Mode p) in
    let args :=
      if String.eqb mode "tcp" then
        (args ++ ["-T"] ++
           (if (0 <? TracerouteParams.Port p)%Z
            then ["-p"; Itoa (TracerouteParams.Port p)] else []))%list
      else if String.eqb mode "icmp" then (args ++ ["-I"])%list
      else args in
    ("traceroute", (args ++ [target])%list).

Definition runTraceroute (target : string) (p : TracerouteParams.t) (a : answers)
    (makeRes : bool -> option string -> option json.value -> CheckResult.t)
  : CheckResult.t :=
  let cmd := buildTracerouteArgs target p in
  let err := failure (traceroute a) in
  let out := decodeConsole (output (traceroute a)) in
  let payload :=
    json.Object [("command", json.Str (cmdString (fst cmd) (snd cmd)));
                 ("output", json.Str (tail out 8192));
                 ("exitCode", number (exitCode err));
                 ("hops", hopsOf out)] in
  let ok := match err with None => true | Some _ => false end in
  let res := makeRes ok (option_map cmdErrorText err) (Some payload) in
  withDurationMs res (elapsedMs a).

(** [_ = decodeLoose(chk.Params, &p)]: the error is dropped.  After
    [ParseTask] the decoding succeeds; where it would not, the struct is
    taken zero. *)
Definition orZero {A} (zero : A) (r : result A) : A :=
  match r with Ok a => a | Err _ => zero end.

Definition zeroHTTP : HTTPParams.t :=
  {| HTTPParams.Scheme := ""; HTTPParams.Path := ""; HTTPParams.Headers := ∅;
     HTTPParams.ExpectedStatusRange := (0, 0)%Z;
     HTTPParams.FollowRedirects := false; HTTPParams.MaxBodyBytes := 0 |}.
Definition zeroPing : PingParams.t := {| PingParams.Count := 0; PingParams.IntervalMs := 0 |}.
Definition zeroTCP : TCPParams.t := {| TCPParams.Port := 0; TCPParams.ConnectTimeoutMs := 0 |}.
Definition zeroTraceroute : TracerouteParams.t :=
  {| TracerouteParams.Mode := ""; TracerouteParams.Port := 0;
     TracerouteParams.MaxHops := 0; TracerouteParams.Paris := false |}.
Definition zeroDNS : DNSParams.t := {| DNSParams.Records := []; DNSParams.Resolver := "" |}.

Definition runOne (task : TaskMessage.t) (idx : nat) (chk : CheckRequest.t)
    (a : answers) : CheckResult.t :=
  let makeRes ok err payload :=
    makeResTemplate (TaskMessage.ID task) idx (CheckRequest.Type_ chk)
      (TaskMessage.Target task) (start a) (elapsedMs a) ok err payload in
  let typ := ToLower (CheckRequest.Type_ chk) in
  let params := CheckRequest.Params chk in
  if String.eqb typ "http" then
    runHTTP (TaskMessage.Target task) (orZero zeroHTTP (decodeHTTP params)) (http a) makeRes
  else if String.eqb typ "ping" then
    runPing (TaskMessage.Target task) (orZero zeroPing (decodePing params)) (ping a) makeRes
  else if String.eqb typ "tcp" then
    runTCP (TaskMessage.Target task) (orZero zeroTCP (decodeTCP params)) (tcp a) makeRes
  else if String.eqb typ "traceroute" then
    runTraceroute (TaskMessage.Target task)
      (orZero zeroTraceroute (decodeTraceroute params)) a makeRes
  else if String.eqb typ "dns" then
    runDNS (orZero zeroDNS (decodeDNS params)) a makeRes
  else
    makeRes false (Some ("unsupported check type " ++ Quote (CheckRequest.Type_ chk))) None.

(** The goroutine [RunCheck] starts for check [i].  When the task context
    is done the envelope is stamped [time.Now()] and built at once: its
    duration is taken as 0 ms. *)
Definition runCheckAt (task : TaskMessage.t) (i : nat) (chk : CheckRequest.t)
    (f : fate) : CheckResult.t :=
  match f with
  | ContextDone ctxErr at_ =>
      makeResTemplate (TaskMessage.ID task) i (CheckRequest.Type_ chk)
        (TaskMessage.Target task) at_ 0 false (Some ctxErr) None
  | Probed a => runOne task i chk a
  end.

(** The overall deadline of a task, in seconds. *)
Definition taskTimeout (task : TaskMessage.t) : Z :=
  if (TaskMessage.TimeoutSeconds task <=? 0)%Z then 20
  else TaskMessage.TimeoutSeconds task.

(** [RunCheck]: one goroutine per check, each handing one envelope to
    [publish].  The envelopes are listed by check index; the order in which
    the goroutines publish is not fixed. *)
Definition RunCheck (task : TaskMessage.t) (fates : nat -> fate) : list CheckResult.t :=
  imap (fun i chk => runCheckAt task i chk (fates i)) (TaskMessage.Checks task).

(** [Service.process] on the value of a consumed message: the envelopes
    handed to [publish] ([nil] when [ParseTask] fails), or the panic that
    ends the agent. *)
Definition process (value : string) (fates : nat -> fate)
  : outcome (list CheckResult.t) :=
  match ParseTask value with
  | Returned task => Returned (RunCheck task fates)
  | Failed e => Failed e
  | Panicked w => Panicked w
  end.

(** *** Vocabulary for statements about the agent *)

Definition knownKind (typ : string) : bool :=
  existsb (String.eqb (ToLower typ)) ["http"; "ping"; "tcp"; "traceroute"; "dns"].

(** The envelopes of an outcome: none when the call failed or panicked. *)
Definition envelopes (o : outcome (list CheckResult.t)) : list CheckResult.t :=
  match o with
  | Returned l => l
  | _ => []
  end.




(** The wording of the specification: N checks give N envelopes. *)
Definition emitsOnePerCheck (value : string) (fates : nat -> fate) : Prop :=
  forall t, unmarshalTask value = Ok t ->
            length (envelopes (process value fates)) = length (TaskMessage.Checks t).

(** The wording of the specification: [error] is non-empty whenever
    [ok = false] and omitted whenever [ok = true]. *)
Definition errorFollowsOK (r : CheckResult.t) : Prop :=
  (CheckResult.OK r = false -> CheckResult.Error r <> "") /\
  (CheckResult.OK r = true -> CheckResult.Error r = "").

(** Every error the outside reports has a text. *)
Definition errorsHaveText (f : fate) : Prop :=
  match f with
  | ContextDone ctxErr _ => ctxErr <> ""
  | Probed a =>
      (forall e, http a = NewRequestError e -> e <> "") /\
      (forall e, http a = DoError e -> e <> "") /\
      (forall e, tcp a = DialError e -> e <> "") /\
      (forall e, failure (ping a) = Some e -> cmdErrorText e <> "") /\
      (forall e, failure (traceroute a) = Some e -> cmdErrorText e <> "")
  end.

(** The two failures that set no error: an HTTP response (whatever its
    status) and a DNS run. *)
Definition failsWithoutError (chk : CheckRequest.t) (f : fate) : Prop :=
  match f with
  | ContextDone _ _ => False
  | Probed a =>
      (ToLower (CheckRequest.Type_ chk) = "http" /\
       exists status finalURL latencyMs, http a = Response status finalURL latencyMs) \/
      ToLower (CheckRequest.Type_ chk) = "dns"
  end.

(** A record of a dns check fails when its lookup fails, or when its
    type is none of A, AAAA and MX. *)
Definition recordFails (a : answers) (i : nat) (rr : string) : bool :=
  let u := ToUpper rr in
  if String.eqb u "A" then isErr (lookupHost a i)
  else if String.eqb u "AAAA" then isErr (lookupHost a i)
  else if String.eqb u "MX" then isErr (lookupMX a i)
  else true.

(** The key a record leaves in the payload. *)
Definition recordKey (a : answers) (i : nat) (rr : string) : string :=
  if recordFails a i rr then ToUpper rr ++ "_error" else ToUpper rr.

End Runners.

End Service.

(** *** service.go: the addresses of a trace *)

(** [net.ParseIP] followed by [To4]: no address, an address with no
    4-byte form, or the four bytes. *)
Inductive parsedIP :=
| NotAnIP
| IPv6Only
| IPv4 (b0 b1 b2 b3 : Z).

Section TraceIPs.

Variable ParseIP : string -> parsedIP.

Definition validIPv4 (ip : string) : bool :=
  match ParseIP ip with
  | IPv4 _ _ _ _ => true
  | _ => false
  end.

Definition isPrivateOrReserved (ip : string) : bool :=
  match ParseIP ip with
  | NotAnIP => true
  | IPv6Only => true
  | IPv4 b0 b1 _ _ =>
      if (b0 =? 10)%Z then true
      else if (b0 =? 172)%Z && (Z.land b1 240 =? 16)%Z then true
      else if (b0 =? 192)%Z && (b1 =? 168)%Z then true
      else if (b0 =? 100)%Z && (Z.land b1 192 =? 64)%Z then true
      else if (b0 =? 127)%Z then true
      else if (b0 =? 169)%Z && (b1 =? 254)%Z then true
      else false
  end.

End TraceIPs.

(** A byte of an address. *)
Definition byte (z : Z) : Prop := (0 <= z < 256)%Z.

(** *** service.go: MemoryGeoCache *)

(** A cached position and the time it expires at. *)
Record geoEntry := { lat : Q; lon : Q; exp : Z }.

(** [MemoryGeoCache.Resolve] at time [now], on the map [mapt]: the result,
    the map afterwards, and the addresses handed to the inner resolver
    [inner]. *)
Definition Resolve (inner : string -> result (Q * Q)) (ttl : Z) (now : Z)
    (ip : string) (mapt : gmap string geoEntry)
  : result (Q * Q) * gmap string geoEntry * list string :=
  let miss :=
    match inner ip with
    | Err e => (Err e, mapt, [ip])
    | Ok (la, lo) =>
        (Ok (la, lo), <[ip := {| lat := la; lon := lo; exp := now + ttl |}]> mapt, [ip])
    end in
  match mapt !! ip with
  | Some e => if (now <? exp e)%Z then (Ok (lat e, lon e), mapt, []) else miss
  | None => miss
  end.

(** *** service.go: the worker *)

Section Worker.

(** The task decoder and the runners as above, the topic the agent
    produces to, and [json.Marshal] of an envelope. *)
Variable unmarshalTask : string -> result TaskMessage.t.
Variable unmarshalStringMap : string -> option (list (string * string)).
Variable unmarshalStringList : string -> option (list string).
Variable windows : bool.
Variable decodeCodePage : string -> string.
Variable ipFamily : string -> option bool.
Variable formatSeconds : Z -> string.
Variable cmdString : string -> list string -> string.
Variable hopsOf : string -> json.value.
Variable produceTopic : string.
Variable marshalResult : CheckResult.t -> result string.

(** The agent and its surroundings: the records handed to
    [PushMessage], the messages whose [Mark] has been called, the log. *)
Record State := {
  pushed : list kafka.Message;
  marked : list kafka.Message;
  log : list string
}.

(** [Service.publish]: the errors of [json.Marshal] and of [PushMessage]
    are logged and the function goes on; a value that did not marshal is
    pushed empty.  [accepted] tells whether the broker takes the record. *)
Definition publish (res : CheckResult.t) (accepted : bool) (q : State) : State :=
  let b := match marshalResult res with Ok b => b | Err _ => "" end in
  let log1 :=
    match marshalResult res with
    | Ok _ => log q
    | Err e => (log q ++ [("Failed to marshal message: " ++ e)%string])%list
    end in
  let taskID := match uuid.MarshalBinary (CheckResult.TaskID res) with
                | Ok k => k
                | Err _ => ""
                end in
  let record := {| kafka.Topic := produceTopic; kafka.Key := taskID; kafka.Value := b |} in
  {| pushed := (pushed q ++ [record])%list;
     marked := marked q;
     log := ((if accepted then log1 else log1 ++ ["Failed to push message"])
             ++ ["Message sent"])%list |}.

(** The record [publish] hands to [PushMessage] for an envelope. *)
Definition recordOf (res : CheckResult.t) : kafka.Message :=
  {| kafka.Topic := produceTopic;
     kafka.Key := CheckResult.TaskID res;
     kafka.Value := match marshalResult res with Ok b => b | Err _ => "" end |}.

(** The envelopes of a task, published in the order the goroutines finish
    in; here, by check index. *)
Fixpoint publishAll (l : list CheckResult.t) (accepted : nat -> bool) (i : nat)
    (q : State) : State :=
  match l with
  | [] => q
  | res :: rest => publishAll rest accepted (S i) (publish res (accepted i) q)
  end.

(** One turn of the [worker] loop on a message received from the pipe:
    the state afterwards, or the panic that ends the agent. *)
Definition worker (msg : kafka.Message) (fates : nat -> fate) (accepted : nat -> bool)
    (q : State) : outcome State :=
  match uuid.FromBytes (kafka.Key msg) with
  | Err e =>
      Returned {| pushed := pushed q; marked := marked q;
                  log := (log q ++ [("Error parsing message id: " ++ e)%string])%list |}
  | Ok messageID =>
      match process unmarshalTask unmarshalStringMap unmarshalStringList
              windows decodeCodePage ipFamily formatSeconds cmdString hopsOf
              (kafka.Value msg) fates with
      | Panicked w => Panicked w
      | Failed e =>
          Returned {| pushed := pushed q; marked := (marked q ++ [msg])%list;
                      log := (log q ++ [("Error parsing task: " ++ e)%string;
                                        ("Processing failed: " ++ e)%string])%list |}
      | Returned l =>
          let q1 := publishAll l accepted 0 q in
          Returned {| pushed := pushed q1; marked := (marked q1 ++ [msg])%list;
                      log := log q1 |}
      end
  end.

End Worker.

End agent.

(** ** Concrete inputs for the examples *)
Module samples.
Import model db.

(** A generator of pairwise distinct identifiers. *)
Fixpoint unary (n : nat) : string :=
  match n with
  | O => "id"
  | S k => String "u" (unary k)
  end.

Definition agentAPAC : Agent.t :=
  {| Agent.ID := "6d40a8b9"; Agent.Region := "APAC"; Agent.ASN := 12345; Agent.Online := true |}.
Definition agentUS : Agent.t :=
  {| Agent.ID := "f022e955"; Agent.Region := "US"; Agent.ASN := 67890; Agent.Online := true |}.
Definition agentEU : Agent.t :=
  {| Agent.ID := "1832f867"; Agent.Region := "EU"; Agent.ASN := 23456; Agent.Online := true |}.

(** The database after the migrations: the three seeded agents. *)
Definition seeded : DB :=
  {| requests := []; assignments := []; outbox_messages := [];
     inbox_messages := []; check_results := [];
     agents := [agentAPAC; agentUS; agentEU] |}.

Definition worldOf (d : DB) (script : list bool) : St :=
  {| store := d; tx := None; faults := script; nextID := 0; now := 1000 |}.

(** A result message with a 16-byte key, and one with a 3-byte key. *)
Definition resultMessage : kafka.Message :=
  {| kafka.Topic := "result-stream"; kafka.Key := "0123456789abcdef";
     kafka.Value := "{ok:true}" |}.
Definition poisonMessage : kafka.Message :=
  {| kafka.Topic := "result-stream"; kafka.Key := "abc"; kafka.Value := "{ok:true}" |}.

Definition decodedResult : CheckResultFromAgent.t :=
  {| CheckResultFromAgent.TaskID := "0123456789abcdef";
     CheckResultFromAgent.CheckIndex := 0;
     CheckResultFromAgent.Type_ := "http";
     CheckResultFromAgent.Target := "example.com";
     CheckResultFromAgent.StartedAt := 990;
     CheckResultFromAgent.DurationMs := 10;
     CheckResultFromAgent.OK := true;
     CheckResultFromAgent.Error := "";
     CheckResultFromAgent.Payload := "{}" |}.

Definition inboxConfig : inbox.Config := {| inbox.Topic := "result-stream" |}.

Definition subscriber (script : list bool) : inbox.State :=
  {| inbox.world := worldOf seeded script; inbox.marked := []; inbox.log := [] |}.

(** One unsent outbox row, one worker, batches of one. *)
Definition pendingRow : OutboxMessage.t :=
  repository.outboxRow "k1" "hosts-check-EU" "{task}" 900.

Definition withOutbox : DB := setOutbox seeded [pendingRow].

Definition publisherConfig : outbox.Config :=
  {| outbox.WorkerCount := 1; outbox.BatchSize := 1 |}.

(** Two polls find the row unsent and queue it twice; the first copy is
    published and marked, then the second copy is published. *)
Definition twoPolls : list outbox.event :=
  [outbox.Tick; outbox.Feed; outbox.Tick; outbox.Feed;
   outbox.Send (kafka.PushOk 0 0); outbox.Mark 0;
   outbox.Send (kafka.PushOk 0 1)].

(** The publish fails once, a later poll queues the row again. *)
Definition retryAfterFailure : list outbox.event :=
  [outbox.Tick; outbox.Feed; outbox.Send (kafka.PushErr "broker down");
   outbox.Tick; outbox.Feed; outbox.Send (kafka.PushOk 0 0); outbox.Mark 0].

(** The joined row of a probe that succeeded, as the inbox stores it. *)
Definition doneRow : CheckResultResponse.t :=
  {| CheckResultResponse.RequestID := "0123456789abcdef";
     CheckResultResponse.AgentID := "1832f867";
     CheckResultResponse.AgentRegion := "EU";
     CheckResultResponse.Type_ := "http";
     CheckResultResponse.Status := "DONE";
     CheckResultResponse.StartedAt := 990;
     CheckResultResponse.FinishedAt := 1000;
     CheckResultResponse.Payload := "{ok:true}" |}.

(** A task with an http check and a check of a kind the agent does not
    know. *)
Definition httpCheck : wire.CheckRequest.t :=
  {| wire.CheckRequest.Type_ := "http";
     wire.CheckRequest.Params :=
       Some (<["expectedStatusRange" := json.Str "[200,299]"]> ∅) |}.
Definition smtpCheck : wire.CheckRequest.t :=
  {| wire.CheckRequest.Type_ := "smtp"; wire.CheckRequest.Params := Some ∅ |}.
Definition dnsCheck : wire.CheckRequest.t :=
  {| wire.CheckRequest.Type_ := "dns"; wire.CheckRequest.Params := Some ∅ |}.
(** An http check whose [params] is missing: the map is nil. *)
Definition bareHTTPCheck : wire.CheckRequest.t :=
  {| wire.CheckRequest.Type_ := "http"; wire.CheckRequest.Params := None |}.

Definition taskOf (checks : list wire.CheckRequest.t) : wire.TaskMessage.t :=
  {| wire.TaskMessage.ID := "0123456789abcdef";
     wire.TaskMessage.Target := "example.com";
     wire.TaskMessage.TimeoutSeconds := 20;
     wire.TaskMessage.ClientContext :=
       {| wire.ClientContext.IP := "203.0.113.57"; wire.ClientContext.ASN := 0;
          wire.ClientContext.Geo :=
            {| wire.Geo.Region := "EU"; wire.Geo.Continent := "EU" |};
          wire.ClientContext.UserAgent := "curl" |};
     wire.TaskMessage.Checks := checks;
     wire.TaskMessage.Metadata := ∅ |}.

(** The outside: an HTTP 500, a refused dial, a resolver that knows no
    such host, commands that exit with status 1. *)
Definition outage : agent.answers :=
  {| agent.start := 1000; agent.elapsedMs := 12;
     agent.http := agent.Response 500 "https://example.com/" 11;
     agent.tcp := agent.DialError "connection refused";
     agent.lookupHost := fun _ => Err "no such host";
     agent.lookupMX := fun _ => Err "no such host";
     agent.ping := {| agent.output := ""; agent.failure := Some (agent.ExitError 1 "exit status 1") |};
     agent.traceroute :=
       {| agent.output := ""; agent.failure := Some (agent.ExitError 1 "exit status 1") |} |}.

(** The agent on Linux, with the library calls it does not depend on
    here answered trivially. *)
Definition agentProcess (t : wire.TaskMessage.t) (fates : nat -> agent.fate)
  : agent.outcome (list agent.CheckResult.t) :=
  agent.process (fun _ => Ok t) (fun _ => None) (fun _ => None)
    false (fun s => s) (fun _ => None) (fun _ => "1.000")
    (fun name args => String.concat " " (name :: args)) (fun _ => json.Array [])
    "{task}" fates.

Definition agentRunCheckAt (t : wire.TaskMessage.t) (i : nat) (chk : wire.CheckRequest.t)
    (f : agent.fate) : agent.CheckResult.t :=
  agent.runCheckAt false (fun s => s) (fun _ => None) (fun _ => "1.000")
    (fun name args => String.concat " " (name :: args)) (fun _ => json.Array [])
    t i chk f.

(** A country database that places every address in North America, and a
    service without ASN database. *)
Definition northAmerica : geoip.Geo :=
  {| geoip.countryDB :=
       Some (fun _ => {| geoip.rec := Some {| geoip.IsoCode := "US";
                                              geoip.ContinentCode := "NA" |};
                         geoip.err := None |});
     geoip.asnDB := None |}.

(** The bodies of scenario 1 (nearest region) and scenario 2 (broadcast). *)
Definition nearestRequest : wire.TaskMessageRequest.t :=
  {| wire.TaskMessageRequest.Target := "example.com";
     wire.TaskMessageRequest.TimeoutSeconds := 20;
     wire.TaskMessageRequest.Broadcast := false;
     wire.TaskMessageRequest.Checks := [httpCheck] |}.

Definition broadcastRequest : wire.TaskMessageRequest.t :=
  {| wire.TaskMessageRequest.Target := "example.com";
     wire.TaskMessageRequest.TimeoutSeconds := 20;
     wire.TaskMessageRequest.Broadcast := true;
     wire.TaskMessageRequest.Checks := [httpCheck] |}.

Definition dispatch (req : wire.TaskMessageRequest.t) (ip : geoip.IP) (s : St)
  : result Request.t * St :=
  service.CreateRequest northAmerica unary (fun _ => Ok "{task}") (fun a => a)
    req ip "curl" s.

(** The request of [taskOf] assigned to two agents, with the one result
    that has come back so far. *)
Definition assignmentTo (id : UUID) (agent : Agent.t) : Assignment.t :=
  {| Assignment.ID := id; Assignment.RequestID := "0123456789abcdef";
     Assignment.AgentID := Agent.ID agent; Assignment.AgentRegion := Agent.Region agent;
     Assignment.Status := "PENDING"; Assignment.OutboxID := id |}.

Definition answered : DB :=
  {| requests := [];
     assignments := [assignmentTo "a1" agentEU; assignmentTo "a2" agentUS];
     outbox_messages := []; inbox_messages := [];
     check_results := [inbox.checkResultOf "r1" decodedResult 1000 "{ok:true}"];
     agents := [agentAPAC; agentUS; agentEU] |}.

(** Two unsent outbox rows, the newer one first in the table. *)
Definition backlog : DB :=
  setOutbox seeded [repository.outboxRow "k2" "hosts-check-US" "{task}" 950; pendingRow].

(** The outside when all is well: an HTTP 200, a dial that connects, a
    resolver that answers, commands that exit with status 0. *)
Definition healthy : agent.answers :=
  {| agent.start := 1000; agent.elapsedMs := 12;
     agent.http := agent.Response 200 "https://example.com/" 11;
     agent.tcp := agent.Connected 3;
     agent.lookupHost := fun _ => Ok ["93.184.216.34"];
     agent.lookupMX := fun _ => Ok [];
     agent.ping := {| agent.output := "1 packets transmitted"; agent.failure := None |};
     agent.traceroute := {| agent.output := " 1  192.0.2.1"; agent.failure := None |} |}.

End samples.

(** * Properties *)

Local Open Scope list_scope.

(** ** Geo.Lookup *)
Section GeoFacts.
Import GoStrings geoip.

Lemma regionOf_cases c :
  (regionOf c = "US" /\ ToUpper c = "US") \/
  (regionOf c = "APAC" /\ (ToUpper c = "AS" \/ ToUpper c = "OC")) \/
  (regionOf c = "EU" /\ ToUpper c <> "US" /\ ToUpper c <> "AS" /\ ToUpper c <> "OC").
Proof.
  unfold regionOf; cbn zeta.
  destruct (String.eqb_spec (ToUpper c) "US") as [-> | Hus]; [left; auto |].
  destruct (String.eqb_spec (ToUpper c) "AS") as [-> | Has]; [right; left; auto |].
  destruct (String.eqb_spec (ToUpper c) "OC") as [-> | Hoc]; [right; left; auto |].
  right; right; auto.
Qed.

Lemma Lookup_Region g ip :
  Region (Lookup g ip) = regionOf (Continent (Lookup g ip)).
Proof.
  destruct ip as [a |]; [| reflexivity].
  unfold Lookup. reflexivity.
Qed.

Lemma Lookup_Continent g a :
  Continent (Lookup g (Some a)) = continentFromDB g a.
Proof.
  unfold Lookup, continentFromDB.
  destruct (countryDB g) as [db |]; cbn.
  - destruct (err (db a)), (rec (db a)) as [r |]; cbn;
      try (destruct (asnDB g) as [adb |]; cbn;
           [destruct (err (adb a)), (rec (adb a)); reflexivity | reflexivity]).
    destruct (String.eqb_spec (ContinentCode r) ""); cbn.
    + destruct (asnDB g) as [adb |]; cbn;
        [destruct (err (adb a)), (rec (adb a)); cbn | ]; congruence.
    + reflexivity.
  - destruct (asnDB g) as [adb |]; cbn;
      [destruct (err (adb a)), (rec (adb a)); reflexivity | reflexivity].
Qed.

(** C10. For every IP, the region of [Geo.Lookup] is APAC exactly when the
    upper-cased continent code is AS or OC, is US only when (and exactly
    when) that code is the literal US, and is EU in every other case.  For
    an address the continent code is the one the country database has for it
    (empty without a usable record).  The databases emit NA for North
    America, so NA maps to EU, and no documented continent code reaches the
    US branch.  A nil IP gives region EU with ASN 0, CC and continent
    empty. *)
Theorem Lookup_region_table (g : Geo) (ip : IP) :
  let out := Lookup g ip in
  let code := ToUpper (Continent out) in
  (Region out = "APAC" <-> code = "AS" \/ code = "OC") /\
  (Region out = "US" <-> code = "US") /\
  (Region out = "EU" <-> code <> "AS" /\ code <> "OC" /\ code <> "US") /\
  (forall a, ip = Some a -> Continent out = continentFromDB g a) /\
  (Continent out = "NA" -> Region out = "EU") /\
  (In (Continent out) databaseContinents -> Region out <> "US") /\
  (ip = None ->
   out = {| ASN := 0; CC := ""; Continent := ""; Region := "EU" |}).
Proof.
  cbn zeta. rewrite Lookup_Region.
  set (c := Continent (Lookup g ip)).
  pose proof (regionOf_cases c) as Hc.
  split; [| split; [| split; [| split; [| split; [| split]]]]].
  - destruct Hc as [[Hr Hu] | [[Hr Hu] | [Hr (Hus & Has & Hoc)]]]; rewrite Hr;
      split; intros H; try discriminate; try tauto; destruct H; congruence.
  - destruct Hc as [[Hr Hu] | [[Hr Hu] | [Hr (Hus & Has & Hoc)]]]; rewrite Hr;
      split; intros H; try discriminate; try tauto; destruct Hu; congruence.
  - destruct Hc as [[Hr Hu] | [[Hr Hu] | [Hr (Hus & Has & Hoc)]]]; rewrite Hr;
      split; intros H; try discriminate; try tauto;
      destruct H as (H1 & H2 & H3); tauto.
  - intros a ->. apply Lookup_Continent.
  - intros ->. reflexivity.
  - intros Hin. cbn in Hin.
    repeat (destruct Hin as [<- | Hin]; [cbv; discriminate |]).
    contradiction.
  - intros ->. reflexivity.
Qed.

End GeoFacts.

(** ** The database monad *)
Section DbFacts.
Import model db repository.

Lemma keeps_errKeeps {A} (m : M A) : keeps m -> errKeeps m.
Proof. intros H s _. apply H. Qed.

Lemma keeps_ret {A} (a : A) : keeps (ret a).
Proof. intros s. reflexivity. Qed.

Lemma keeps_fail {A} e : keeps (@fail A e).
Proof. intros s. reflexivity. Qed.

Lemma keeps_bind {A B} (m : M A) (k : A -> M B) :
  keeps m -> (forall a, keeps (k a)) -> keeps (bind m k).
Proof.
  intros Hm Hk s. unfold bind. specialize (Hm s).
  destruct (m s) as [[a | e] s1]; cbn in *; [| assumption].
  rewrite Hk. assumption.
Qed.

Lemma keeps_wrap {A} ctx (m : M A) : keeps m -> keeps (wrap ctx m).
Proof.
  intros Hm s. unfold wrap. specialize (Hm s).
  destruct (m s) as [[a | e] s1]; assumption.
Qed.

Lemma keeps_roundTrip : keeps roundTrip.
Proof. intros s. unfold roundTrip. destruct (faults s) as [| [] fs]; reflexivity. Qed.

Lemma keeps_uuidNew gen : keeps (uuidNew gen).
Proof. intros s. reflexivity. Qed.

Lemma keeps_view ext : keeps (view ext).
Proof. intros s. unfold view. destruct ext; [| destruct (tx s)]; reflexivity. Qed.

Lemma keeps_write_tx d : keeps (write viaTx d).
Proof. intros s. reflexivity. Qed.

Lemma keeps_Begin : keeps Begin.
Proof.
  unfold Begin. apply keeps_bind; [apply keeps_roundTrip |].
  intros _ s. reflexivity.
Qed.

Lemma keeps_Rollback : keeps Rollback.
Proof. intros s. unfold Rollback. destruct (tx s); reflexivity. Qed.

Lemma errKeeps_Commit : errKeeps Commit.
Proof.
  intros s. unfold Commit. destruct (tx s) as [d |]; [| reflexivity].
  pose proof (keeps_roundTrip s) as Hr.
  destruct (roundTrip s) as [[[] | e] s1]; cbn in *; [discriminate | auto].
Qed.

Lemma errKeeps_wrap {A} ctx (m : M A) : errKeeps m -> errKeeps (wrap ctx m).
Proof.
  intros Hm s. unfold wrap. specialize (Hm s).
  destruct (m s) as [[a | e] s1]; cbn in *; auto.
Qed.

Lemma errKeeps_bind {A B} (m : M A) (k : A -> M B) :
  keeps m -> (forall a, errKeeps (k a)) -> errKeeps (bind m k).
Proof.
  intros Hm Hk s. unfold bind. specialize (Hm s).
  destruct (m s) as [[a | e] s1]; cbn in *; [| auto].
  intros He. rewrite (Hk a s1 He). assumption.
Qed.

Lemma errKeeps_bind_total {A B} (m : M A) (k : A -> M B) :
  errKeeps m -> (forall a, total (k a)) -> errKeeps (bind m k).
Proof.
  intros Hm Hk s. unfold bind. specialize (Hm s).
  destruct (m s) as [[a | e] s1]; cbn in *; [| auto].
  intros He. rewrite Hk in He. discriminate.
Qed.

Lemma errKeeps_defer {A B} (d : M B) (body : M A) :
  keeps d -> errKeeps body -> errKeeps (defer d body).
Proof.
  intros Hd Hb s. unfold defer. specialize (Hb s).
  destruct (body s) as [r s1]; cbn in *.
  intros He. rewrite Hd. auto.
Qed.

Lemma total_ret {A} (a : A) : total (ret a).
Proof. intros s. reflexivity. Qed.

(** Statements sent through the transaction keep the store. *)
Lemma keeps_InsertRequest r : keeps (InsertRequest viaTx r).
Proof.
  unfold InsertRequest. apply keeps_bind; [apply keeps_view | intros d].
  apply keeps_bind; [apply keeps_roundTrip | intros _].
  destruct (negb (isInet (Request.ClientIP r))); [apply keeps_fail |].
  destruct (hasRequest d (Request.ID r)); [apply keeps_fail |].
  apply keeps_bind; [apply keeps_write_tx | intros _; apply keeps_ret].
Qed.

Lemma keeps_InsertAssignment a : keeps (InsertAssignment viaTx a).
Proof.
  unfold InsertAssignment. apply keeps_bind; [apply keeps_view | intros d].
  apply keeps_bind; [apply keeps_roundTrip | intros _].
  destruct (hasAssignment d (Assignment.ID a)); [apply keeps_fail |].
  destruct (negb (hasRequest d (Assignment.RequestID a))); [apply keeps_fail |].
  apply keeps_write_tx.
Qed.

Lemma keeps_InsertCheckResult c : keeps (InsertCheckResult viaTx c).
Proof.
  unfold InsertCheckResult. apply keeps_bind; [apply keeps_view | intros d].
  apply keeps_bind; [apply keeps_roundTrip | intros _].
  destruct (hasCheckResult d (CheckResult.ID c)); [apply keeps_fail |].
  destruct (negb (isCheckStatus (CheckResult.Status c))); [apply keeps_fail |].
  apply keeps_write_tx.
Qed.

Lemma keeps_OutboxInsertMessage id topic payload :
  keeps (OutboxInsertMessage viaTx id topic payload).
Proof.
  unfold OutboxInsertMessage. apply keeps_bind; [apply keeps_view | intros d].
  apply keeps_bind; [apply keeps_roundTrip | intros _].
  intros s. destruct (hasOutbox d id); reflexivity.
Qed.

Lemma keeps_InboxInsertMessage id topic payload :
  keeps (InboxInsertMessage viaTx id topic payload).
Proof.
  unfold InboxInsertMessage. apply keeps_bind; [apply keeps_view | intros d].
  apply keeps_bind; [apply keeps_roundTrip | intros _].
  intros s. destruct (hasInbox d id); reflexivity.
Qed.

Lemma keeps_SelectAgents : keeps (SelectAgents viaTx).
Proof.
  unfold SelectAgents. apply keeps_bind; [apply keeps_view | intros d].
  apply keeps_bind; [apply keeps_roundTrip | intros _; apply keeps_ret].
Qed.

Lemma keeps_SelectAgentByRegion region : keeps (SelectAgentByRegion viaTx region).
Proof.
  unfold SelectAgentByRegion. apply keeps_bind; [apply keeps_view | intros d].
  apply keeps_bind; [apply keeps_roundTrip | intros _].
  destruct (List.filter _ _); [apply keeps_fail | apply keeps_ret].
Qed.


(** Successful calls, step by step. *)
Lemma bind_Ok {A B} (m : M A) (k : A -> M B) s b s' :
  bind m k s = (Ok b, s') ->
  exists a s1, m s = (Ok a, s1) /\ k a s1 = (Ok b, s').
Proof.
  unfold bind. destruct (m s) as [[a | e] s1]; [eauto | discriminate].
Qed.

Lemma wrap_Ok {A} ctx (m : M A) s a s' :
  wrap ctx m s = (Ok a, s') -> m s = (Ok a, s').
Proof.
  unfold wrap. destruct (m s) as [[a' | e] s1]; [auto | discriminate].
Qed.

Lemma defer_Ok {A B} (d : M B) (body : M A) s a s' :
  defer d body s = (Ok a, s') ->
  exists s1, body s = (Ok a, s1) /\ s' = snd (d s1).
Proof.
  unfold defer. destruct (body s) as [r s1]. intros [= -> <-]. eauto.
Qed.

Lemma roundTrip_same s r s' : roundTrip s = (r, s') -> sameButFaults s s'.
Proof.
  unfold roundTrip, sameButFaults.
  destruct (faults s) as [| [] fs]; intros [= <- <-]; cbn; auto.
Qed.

Lemma view_tx_Ok s d s' : view viaTx s = (Ok d, s') -> tx s = Some d /\ s' = s.
Proof.
  unfold view. destruct (tx s) as [d0 |]; [intros [= -> <-]; auto | discriminate].
Qed.

Lemma InsertRequest_Ok r s row s' :
  InsertRequest viaTx r s = (Ok row, s') ->
  exists d,
    isInet (Request.ClientIP r) = true /\
    hasRequest d (Request.ID r) = false /\
    row = Request.withStatus r "PENDING" /\
    txStep s s' d (setRequests d (requests d ++ [row])).
Proof.
  unfold InsertRequest. intros H.
  apply bind_Ok in H as (d & s1 & Hv & H). apply view_tx_Ok in Hv as [Hd ->].
  apply bind_Ok in H as ([] & s2 & Hrt & H). apply roundTrip_same in Hrt as (Hs & Ht & Hn & Hc).
  exists d. destruct (isInet (Request.ClientIP r)); [| discriminate]. cbn [negb] in H.
  destruct (hasRequest d (Request.ID r)); [discriminate |].
  apply bind_Ok in H as ([] & s3 & Hw & H). cbv [write] in Hw.
  injection Hw as <-. injection H as <- <-.
  repeat split; cbn; congruence.
Qed.

Lemma InsertAssignment_Ok a s s' :
  InsertAssignment viaTx a s = (Ok tt, s') ->
  exists d,
    hasAssignment d (Assignment.ID a) = false /\
    hasRequest d (Assignment.RequestID a) = true /\
    txStep s s' d (setAssignments d
                     (assignments d ++ [Assignment.withStatus a "PENDING"])).
Proof.
  unfold InsertAssignment. intros H.
  apply bind_Ok in H as (d & s1 & Hv & H). apply view_tx_Ok in Hv as [Hd ->].
  apply bind_Ok in H as ([] & s2 & Hrt & H). apply roundTrip_same in Hrt as (Hs & Ht & Hn & Hc).
  exists d. destruct (hasAssignment d (Assignment.ID a)); [discriminate |].
  destruct (hasRequest d (Assignment.RequestID a)); [| discriminate].
  cbv [write negb] in H. injection H as <-.
  repeat split; cbn; congruence.
Qed.

Lemma OutboxInsertMessage_Ok id topic payload s s' :
  OutboxInsertMessage viaTx id topic payload s = (Ok tt, s') ->
  exists d,
    txStep s s' d
      (if hasOutbox d id then d
       else setOutbox d (outbox_messages d ++ [outboxRow id topic payload (now s)])).
Proof.
  unfold OutboxInsertMessage. intros H.
  apply bind_Ok in H as (d & s1 & Hv & H). apply view_tx_Ok in Hv as [Hd ->].
  apply bind_Ok in H as ([] & s2 & Hrt & H). apply roundTrip_same in Hrt as (Hs & Ht & Hn & Hc).
  exists d. destruct (hasOutbox d id).
  - injection H as <-. repeat split; cbn; congruence.
  - cbv [write] in H. injection H as <-. rewrite Hc. repeat split; cbn; congruence.
Qed.

Lemma SelectAgents_Ok s l s' :
  SelectAgents viaTx s = (Ok l, s') ->
  exists d, l = agents d /\ txStep s s' d d.
Proof.
  unfold SelectAgents. intros H.
  apply bind_Ok in H as (d & s1 & Hv & H). apply view_tx_Ok in Hv as [Hd ->].
  apply bind_Ok in H as ([] & s2 & Hrt & H). apply roundTrip_same in Hrt as (Hs & Ht & Hn & Hc).
  injection H as <- <-. exists d. repeat split; congruence.
Qed.

Lemma SelectAgentByRegion_Ok region s a s' :
  SelectAgentByRegion viaTx region s = (Ok a, s') ->
  exists d,
    In a (agents d) /\ Agent.Region a = region /\ txStep s s' d d.
Proof.
  unfold SelectAgentByRegion. intros H.
  apply bind_Ok in H as (d & s1 & Hv & H). apply view_tx_Ok in Hv as [Hd ->].
  apply bind_Ok in H as ([] & s2 & Hrt & H). apply roundTrip_same in Hrt as (Hs & Ht & Hn & Hc).
  exists d.
  destruct (List.filter (fun a0 => String.eqb (Agent.Region a0) region) (agents d))
    as [| a0 rest] eqn:Hf; [discriminate |].
  injection H as <- <-.
  assert (In a0 (List.filter (fun a => String.eqb (Agent.Region a) region) (agents d))) as Hin
    by (rewrite Hf; left; reflexivity).
  apply filter_In in Hin as [Hin Heq]. apply String.eqb_eq in Heq.
  repeat split; auto; congruence.
Qed.

Lemma Begin_Ok s s' :
  Begin s = (Ok tt, s') ->
  tx s' = Some (store s) /\ store s' = store s /\
  nextID s' = nextID s /\ now s' = now s.
Proof.
  unfold Begin. intros H.
  apply bind_Ok in H as ([] & s1 & Hrt & H). apply roundTrip_same in Hrt as (Hs & Ht & Hn & Hc).
  injection H as <-. cbn. repeat split; congruence.
Qed.

Lemma Commit_Ok s s' :
  Commit s = (Ok tt, s') ->
  exists d, tx s = Some d /\ store s' = d /\ tx s' = None /\
            nextID s' = nextID s /\ now s' = now s.
Proof.
  unfold Commit. destruct (tx s) as [d |] eqn:Hd; [| discriminate].
  destruct (roundTrip s) as [[[] | e] s1] eqn:Hrt; [| discriminate].
  apply roundTrip_same in Hrt as (Hs & Ht & Hn & Hc).
  intros [= <-]. exists d. cbn. repeat split; congruence.
Qed.

Lemma Rollback_closed s : tx s = None -> snd (Rollback s) = s.
Proof. unfold Rollback. intros ->. reflexivity. Qed.


(** Successful calls have met no failing round trip. *)
Lemma untroubled_refl s : untroubled s s.
Proof. exists 0%nat. reflexivity. Qed.

Lemma untroubled_trans s1 s2 s3 :
  untroubled s1 s2 -> untroubled s2 s3 -> untroubled s1 s3.
Proof.
  intros [k1 H1] [k2 H2]. exists (k1 + k2)%nat.
  rewrite H1, H2, repeat_app, <- app_assoc. reflexivity.
Qed.

Lemma untroubled_same_faults s s' : faults s' = faults s -> untroubled s s'.
Proof. intros H. exists 0%nat. rewrite H. reflexivity. Qed.

Lemma okUntroubled_ret {A} (a : A) : okUntroubled (ret a).
Proof. intros s a' s' [= _ <-]. apply untroubled_refl. Qed.

Lemma okUntroubled_fail {A} e : okUntroubled (@fail A e).
Proof. intros s a s' H. discriminate. Qed.

Lemma okUntroubled_bind {A B} (m : M A) (k : A -> M B) :
  okUntroubled m -> (forall a, okUntroubled (k a)) -> okUntroubled (bind m k).
Proof.
  intros Hm Hk s b s' H. apply bind_Ok in H as (a & s1 & H1 & H2).
  eapply untroubled_trans; [eapply Hm, H1 | eapply Hk, H2].
Qed.

Lemma okUntroubled_wrap {A} ctx (m : M A) : okUntroubled m -> okUntroubled (wrap ctx m).
Proof. intros Hm s a s' H. apply wrap_Ok in H. eapply Hm, H. Qed.

Lemma okUntroubled_roundTrip : okUntroubled roundTrip.
Proof.
  intros s a s'. unfold roundTrip. destruct (faults s) as [| [] fs] eqn:Hf.
  - intros [= _ <-]. apply untroubled_refl.
  - discriminate.
  - intros [= _ <-]. exists 1%nat. cbn. assumption.
Qed.

Lemma okUntroubled_uuidNew gen : okUntroubled (uuidNew gen).
Proof. intros s a s' [= _ <-]. apply untroubled_same_faults. reflexivity. Qed.

Lemma okUntroubled_view ext : okUntroubled (view ext).
Proof.
  intros s a s'. unfold view. destruct ext; [| destruct (tx s)];
    intros H; try discriminate; injection H as _ <-; apply untroubled_refl.
Qed.

Lemma okUntroubled_write ext d : okUntroubled (write ext d).
Proof.
  intros s a s'. unfold write. destruct ext; intros [= _ <-];
    apply untroubled_same_faults; reflexivity.
Qed.

Lemma okUntroubled_Begin : okUntroubled Begin.
Proof.
  unfold Begin. apply okUntroubled_bind; [apply okUntroubled_roundTrip |].
  intros _ s a s' [= _ <-]. apply untroubled_same_faults. reflexivity.
Qed.

Lemma okUntroubled_Commit : okUntroubled Commit.
Proof.
  intros s a s'. unfold Commit. destruct (tx s) as [d |]; [| discriminate].
  destruct (roundTrip s) as [[[] | e] s1] eqn:Hrt; [| discriminate].
  intros [= _ <-]. apply okUntroubled_roundTrip in Hrt as [k Hk].
  exists k. exact Hk.
Qed.

Lemma faults_Rollback s : faults (snd (Rollback s)) = faults s.
Proof. unfold Rollback. destruct (tx s); reflexivity. Qed.

Lemma okUntroubled_defer_Rollback {A} (body : M A) :
  okUntroubled body -> okUntroubled (defer Rollback body).
Proof.
  intros Hb s a s' H. apply defer_Ok in H as (s1 & H1 & ->).
  eapply untroubled_trans; [eapply Hb, H1 |].
  apply untroubled_same_faults, faults_Rollback.
Qed.

Lemma okUntroubled_InsertRequest r : okUntroubled (InsertRequest viaTx r).
Proof.
  unfold InsertRequest. apply okUntroubled_bind; [apply okUntroubled_view | intros d].
  apply okUntroubled_bind; [apply okUntroubled_roundTrip | intros _].
  destruct (negb (isInet (Request.ClientIP r))); [apply okUntroubled_fail |].
  destruct (hasRequest d (Request.ID r)); [apply okUntroubled_fail |].
  apply okUntroubled_bind; [apply okUntroubled_write | intros _; apply okUntroubled_ret].
Qed.

Lemma okUntroubled_InsertAssignment a : okUntroubled (InsertAssignment viaTx a).
Proof.
  unfold InsertAssignment. apply okUntroubled_bind; [apply okUntroubled_view | intros d].
  apply okUntroubled_bind; [apply okUntroubled_roundTrip | intros _].
  destruct (hasAssignment d (Assignment.ID a)); [apply okUntroubled_fail |].
  destruct (negb (hasRequest d (Assignment.RequestID a))); [apply okUntroubled_fail |].
  apply okUntroubled_write.
Qed.

Lemma okUntroubled_OutboxInsertMessage id topic payload :
  okUntroubled (OutboxInsertMessage viaTx id topic payload).
Proof.
  unfold OutboxInsertMessage. apply okUntroubled_bind; [apply okUntroubled_view | intros d].
  apply okUntroubled_bind; [apply okUntroubled_roundTrip | intros _].
  intros s a s'. destruct (hasOutbox d id).
  - intros [= _ <-]. apply untroubled_refl.
  - apply okUntroubled_write.
Qed.

Lemma okUntroubled_SelectAgents : okUntroubled (SelectAgents viaTx).
Proof.
  unfold SelectAgents. apply okUntroubled_bind; [apply okUntroubled_view | intros d].
  apply okUntroubled_bind; [apply okUntroubled_roundTrip | intros _; apply okUntroubled_ret].
Qed.

Lemma okUntroubled_SelectAgentByRegion region :
  okUntroubled (SelectAgentByRegion viaTx region).
Proof.
  unfold SelectAgentByRegion. apply okUntroubled_bind; [apply okUntroubled_view | intros d].
  apply okUntroubled_bind; [apply okUntroubled_roundTrip | intros _].
  destruct (List.filter _ _); [apply okUntroubled_fail | apply okUntroubled_ret].
Qed.

End DbFacts.

Create HintDb dbkeep.
#[local] Hint Resolve keeps_ret keeps_fail keeps_roundTrip keeps_uuidNew keeps_view
  keeps_write_tx keeps_Begin keeps_Rollback keeps_InsertRequest
  keeps_InsertAssignment keeps_InsertCheckResult keeps_OutboxInsertMessage
  keeps_InboxInsertMessage keeps_SelectAgents keeps_SelectAgentByRegion
  keeps_wrap errKeeps_Commit errKeeps_wrap total_ret keeps_errKeeps : dbkeep.

Create HintDb dbquiet.
#[local] Hint Resolve okUntroubled_ret okUntroubled_fail okUntroubled_wrap
  okUntroubled_roundTrip okUntroubled_uuidNew okUntroubled_view okUntroubled_write
  okUntroubled_Begin okUntroubled_Commit okUntroubled_InsertRequest
  okUntroubled_InsertAssignment okUntroubled_OutboxInsertMessage
  okUntroubled_SelectAgents okUntroubled_SelectAgentByRegion : dbquiet.

(** ** The dispatcher *)
Section DispatchFacts.
Import model db repository wire service.

Variable geo : geoip.Geo.
Variable gen : nat -> UUID.
Variable marshalTask : TaskMessage.t -> result string.
Variable ipText : string -> string.

Lemma keeps_lift {A} (r : result A) : keeps (lift r).
Proof. intros s. reflexivity. Qed.

Lemma keeps_forEach {A} (l : list A) (body : A -> M unit) :
  (forall a, keeps (body a)) -> keeps (forEach l body).
Proof.
  intros Hb. induction l as [| x l IH]; cbn; [apply keeps_ret |].
  apply keeps_bind; auto.
Qed.

Lemma keeps_dispatchTo id payload topic agent :
  keeps (dispatchTo gen id payload topic agent).
Proof.
  unfold dispatchTo.
  apply keeps_bind; [apply keeps_uuidNew | intros oid].
  apply keeps_bind; [apply keeps_uuidNew | intros aid].
  apply keeps_bind; [auto with dbkeep | intros _; auto with dbkeep].
Qed.






(** The end of both branches: [Commit], then [return request, nil]. *)
Lemma errKeeps_commit_ret {A} (x : A) :
  errKeeps (bind (wrap "error committing transaction" Commit) (fun _ => ret x)).
Proof. apply errKeeps_bind_total; auto with dbkeep. Qed.

Lemma errKeeps_CreateRequest req ip ua :
  errKeeps (CreateRequest geo gen marshalTask ipText req ip ua).
Proof.
  unfold CreateRequest. cbn zeta.
  apply errKeeps_bind; [apply keeps_uuidNew | intros id].
  apply errKeeps_bind; [apply keeps_wrap, keeps_lift | intros payload].
  destruct (TaskMessageRequest.Broadcast req).
  - apply errKeeps_bind; [auto with dbkeep | intros _].
    apply errKeeps_defer; [apply keeps_Rollback |].
    apply errKeeps_bind; [auto with dbkeep | intros request].
    apply errKeeps_bind; [auto with dbkeep | intros allAgents].
    apply errKeeps_bind; [| intros _; apply errKeeps_commit_ret].
    apply keeps_forEach. intros agent. apply keeps_dispatchTo.
  - apply errKeeps_bind; [auto with dbkeep | intros _].
    apply errKeeps_defer; [apply keeps_Rollback |].
    apply errKeeps_bind; [auto with dbkeep | intros request].
    apply errKeeps_bind; [auto with dbkeep | intros agent].
    apply errKeeps_bind; [apply keeps_dispatchTo | intros _; apply errKeeps_commit_ret].
Qed.


Lemma topicFor_text region : topicFor region = ("hosts-check-" ++ region)%string.
Proof. reflexivity. Qed.



Lemma okUntroubled_lift {A} (r : result A) : okUntroubled (lift r).
Proof. intros s a s' [= _ <-]. apply untroubled_refl. Qed.

Lemma okUntroubled_forEach {A} (l : list A) (body : A -> M unit) :
  (forall a, okUntroubled (body a)) -> okUntroubled (forEach l body).
Proof.
  intros Hb. induction l as [| x l IH]; cbn; [apply okUntroubled_ret |].
  apply okUntroubled_bind; auto.
Qed.

Lemma okUntroubled_dispatchTo id payload topic agent :
  okUntroubled (dispatchTo gen id payload topic agent).
Proof.
  unfold dispatchTo.
  apply okUntroubled_bind; [apply okUntroubled_uuidNew | intros oid].
  apply okUntroubled_bind; [apply okUntroubled_uuidNew | intros aid].
  apply okUntroubled_bind; [auto with dbquiet | intros _; auto with dbquiet].
Qed.

Lemma okUntroubled_CreateRequest req ip ua :
  okUntroubled (CreateRequest geo gen marshalTask ipText req ip ua).
Proof.
  unfold CreateRequest. cbn zeta.
  apply okUntroubled_bind; [apply okUntroubled_uuidNew | intros id].
  apply okUntroubled_bind; [apply okUntroubled_wrap, okUntroubled_lift | intros payload].
  destruct (TaskMessageRequest.Broadcast req).
  - apply okUntroubled_bind; [auto with dbquiet | intros _].
    apply okUntroubled_defer_Rollback.
    apply okUntroubled_bind; [auto with dbquiet | intros request].
    apply okUntroubled_bind; [auto with dbquiet | intros allAgents].
    apply okUntroubled_bind.
    + apply okUntroubled_forEach. intros agent. apply okUntroubled_dispatchTo.
    + intros _. apply okUntroubled_bind; [auto with dbquiet | intros _; auto with dbquiet].
  - apply okUntroubled_bind; [auto with dbquiet | intros _].
    apply okUntroubled_defer_Rollback.
    apply okUntroubled_bind; [auto with dbquiet | intros request].
    apply okUntroubled_bind; [auto with dbquiet | intros agent].
    apply okUntroubled_bind; [apply okUntroubled_dispatchTo | intros _].
    apply okUntroubled_bind; [auto with dbquiet | intros _; auto with dbquiet].
Qed.

(** C5. A call of [CreateRequest] that meets a failing round trip (begin,
    request insert, agent selection, outbox insert, assignment insert or
    commit) returns an error: a call that returns no error has used up a
    part of the fault script that holds no failure.  And whenever the call
    returns an error, whatever the step that failed, the committed tables
    are the ones before the call: no request, no assignment and no outbox
    row of that request is persisted. *)
Theorem CreateRequest_rollback req ip ua s :
  let run := CreateRequest geo gen marshalTask ipText req ip ua s in
  (isErr (fst run) = false -> untroubled s (snd run)) /\
  (isErr (fst run) = true -> store (snd run) = store s).
Proof.
  cbn zeta. split; [| apply errKeeps_CreateRequest].
  pose proof (okUntroubled_CreateRequest req ip ua s) as H.
  destruct (CreateRequest geo gen marshalTask ipText req ip ua s) as [[r | e] s'];
    cbn; [| discriminate].
  intros _. eapply H. reflexivity.
Qed.

End DispatchFacts.

(** ** The outbox publisher *)
Section OutboxFacts.
Import model db repository outbox.

Lemma In_firstn {A} (x : A) n l : In x (firstn n l) -> In x l.
Proof.
  revert l. induction n as [| n IH]; intros [| y l]; cbn; try tauto.
  intros [-> | H]; auto.
Qed.

Lemma In_insertByCreatedAt x m l :
  In x (insertByCreatedAt m l) <-> x = m \/ In x l.
Proof.
  induction l as [| y l IH]; cbn.
  - intuition congruence.
  - destruct (OutboxMessage.CreatedAt m <? OutboxMessage.CreatedAt y); cbn.
    + intuition congruence.
    + rewrite IH. intuition congruence.
Qed.

Lemma In_orderByCreatedAt x l : In x (orderByCreatedAt l) <-> In x l.
Proof.
  unfold orderByCreatedAt. induction l as [| y l IH]; cbn; [tauto |].
  rewrite In_insertByCreatedAt, IH. intuition congruence.
Qed.

Lemma length_insertByCreatedAt m l :
  length (insertByCreatedAt m l) = S (length l).
Proof.
  induction l as [| y l IH]; cbn; [reflexivity |].
  destruct (OutboxMessage.CreatedAt m <? OutboxMessage.CreatedAt y); cbn; congruence.
Qed.

Lemma length_orderByCreatedAt l : length (orderByCreatedAt l) = length l.
Proof.
  unfold orderByCreatedAt. induction l as [| y l IH]; cbn; [reflexivity |].
  rewrite length_insertByCreatedAt. congruence.
Qed.

(** A row in a batch is a row of the table with [sent = false]. *)
Lemma unsentBatch_unsent d n m :
  In m (unsentBatch d n) ->
  In m (outbox_messages d) /\ OutboxMessage.Sent m = false.
Proof.
  unfold unsentBatch. intros H.
  apply In_firstn, In_orderByCreatedAt, filter_In in H as [Hin Hs].
  split; [assumption |]. destruct (OutboxMessage.Sent m); [discriminate | reflexivity].
Qed.

(** An unsent row is in the batch as soon as the batch is large enough for
    the unsent rows. *)
Lemma unsent_in_batch d n m :
  In m (outbox_messages d) -> OutboxMessage.Sent m = false ->
  (length (unsentRows d) <= n)%nat ->
  In m (unsentBatch d n).
Proof.
  intros Hin Hs Hn. unfold unsentBatch. fold (unsentRows d).
  rewrite firstn_all2 by (rewrite length_orderByCreatedAt; assumption).
  apply In_orderByCreatedAt. unfold unsentRows. apply filter_In.
  rewrite Hs. auto.
Qed.

Lemma SelectUnsentBatch_pool n w :
  store (snd (SelectUnsentBatch viaPool n w)) = store w /\
  now (snd (SelectUnsentBatch viaPool n w)) = now w /\
  forall l, fst (SelectUnsentBatch viaPool n w) = Ok l -> l = unsentBatch (store w) n.
Proof.
  unfold SelectUnsentBatch, bind, view, ret.
  destruct (roundTrip w) as [[[] | e] w1] eqn:Hrt;
    apply roundTrip_same in Hrt as (Hs & _ & _ & Hc); cbn;
    repeat split; auto; [congruence | discriminate].
Qed.

(** [UpdateAsSent] through the pool: the round trip fails and nothing
    changes, or the rows with that id get [sent = true, sent_at = NOW()]. *)
Lemma UpdateAsSent_pool id w :
  (isErr (fst (UpdateAsSent viaPool id w)) = true /\
   store (snd (UpdateAsSent viaPool id w)) = store w) \/
  (fst (UpdateAsSent viaPool id w) = Ok tt /\
   store (snd (UpdateAsSent viaPool id w)) =
     setOutbox (store w) (markRows id (now w) (outbox_messages (store w)))).
Proof.
  unfold UpdateAsSent, bind, view, write.
  destruct (roundTrip w) as [[[] | e] w1] eqn:Hrt;
    apply roundTrip_same in Hrt as (Hs & _ & _ & Hc); cbn.
  - right. rewrite Hc. auto.
  - left. auto.
Qed.

Lemma OutboxInsertMessage_pool id topic payload w :
  store (snd (OutboxInsertMessage viaPool id topic payload w)) = store w \/
  store (snd (OutboxInsertMessage viaPool id topic payload w)) =
    setOutbox (store w)
      (outbox_messages (store w) ++ [outboxRow id topic payload (now w)]).
Proof.
  unfold OutboxInsertMessage, bind, view, write.
  destruct (roundTrip w) as [[[] | e] w1] eqn:Hrt;
    apply roundTrip_same in Hrt as (Hs & _ & _ & Hc); cbn; [| auto].
  destruct (hasOutbox (store w) id); cbn; [auto |].
  right. rewrite Hc. reflexivity.
Qed.

(** *** sendAndMark *)

(** When the publish fails, [sendAndMark] returns the error and touches
    neither the table nor the bus. *)
Lemma sendAndMark_push_failed e message w :
  sendAndMark (kafka.PushErr e) message w =
    (Err ("failed to push message: " ++ e)%string, w, []).
Proof. reflexivity. Qed.

(** When the publish succeeds, the record is on the bus and [UpdateAsSent]
    has run once, after it. *)
Lemma sendAndMark_pushed partition offset message w :
  let r := sendAndMark (kafka.PushOk partition offset) message w in
  snd r = [busRecord message] /\
  snd (fst r) = snd (UpdateAsSent viaPool (OutboxMessage.ID message) w) /\
  (fst (fst r) = Ok (partition, offset) <->
   fst (UpdateAsSent viaPool (OutboxMessage.ID message) w) = Ok tt).
Proof.
  cbn zeta. unfold sendAndMark. cbn [uuid.MarshalBinary].
  destruct (UpdateAsSent viaPool (OutboxMessage.ID message) w) as [[[] | e] w'];
    cbn; repeat split; intros; congruence.
Qed.

Lemma step_Send cfg push msg rest q :
  messagePipe q = msg :: rest ->
  (length (marking q) <? WorkerCount cfg)%nat = true ->
  step cfg (Send push) q =
    match push with
    | kafka.PushErr _ =>
        {| world := world q; bus := bus q; sending := sending q;
           messagePipe := rest; marking := marking q |}
    | kafka.PushOk _ _ =>
        {| world := world q; bus := bus q ++ [busRecord msg];
           sending := sending q;
           messagePipe := rest; marking := marking q ++ [msg] |}
    end.
Proof. intros Hp Hf. unfold step. rewrite Hp, Hf. reflexivity. Qed.

(** A worker cut at the publish is [sendAndMark]. *)
Lemma Send_Mark_is_sendAndMark cfg push msg rest q :
  messagePipe q = msg :: rest -> marking q = [] -> (0 < WorkerCount cfg)%nat ->
  let q' := step cfg (Mark 0) (step cfg (Send push) q) in
  let r := sendAndMark push msg (world q) in
  world q' = snd (fst r) /\ bus q' = bus q ++ snd r /\
  messagePipe q' = rest /\ marking q' = [] /\ sending q' = sending q.
Proof.
  intros Hp Hm Hw. cbn zeta.
  assert ((length (marking q) <? WorkerCount cfg)%nat = true) as Hfree
    by (rewrite Hm; apply Nat.ltb_lt; assumption).
  rewrite (step_Send cfg push msg rest q Hp Hfree), Hm.
  destruct push as [partition offset | e].
  - unfold sendAndMark. cbn -[UpdateAsSent].
    destruct (UpdateAsSent viaPool (OutboxMessage.ID msg) (world q)) as [[[] | e] w'];
      cbn; repeat split.
  - cbn. rewrite app_nil_r. repeat split.
Qed.

(** *** The invariant of the publisher *)

Lemma In_removeAt {A} (x : A) i l : In x (removeAt i l) -> In x l.
Proof.
  revert i. induction l as [| y l IH]; intros [| i]; cbn; auto.
  intros [-> | H]; eauto.
Qed.

Lemma onBus_app b b' id : onBus b id = true -> onBus (b ++ b') id = true.
Proof. unfold onBus. rewrite existsb_app. intros ->. reflexivity. Qed.

Lemma Inv_step cfg d0 e q : Inv d0 q -> Inv d0 (step cfg e q).
Proof.
  intros [Hm Hr]. destruct e as [| | push | i | dt | id topic payload]; cbn [step].
  - destruct (sending q); [| split; assumption].
    pose proof (SelectUnsentBatch_pool (BatchSize cfg) (world q)) as (Hs & _ & _).
    destruct (SelectUnsentBatch viaPool (BatchSize cfg) (world q)) as [[l | e] w'];
      cbn in Hs; split; cbn -[onBus]; try assumption; rewrite Hs; assumption.
  - destruct (sending q) as [| msg rest]; [split; assumption |].
    destruct (_ <? _)%nat; split; assumption.
  - destruct (messagePipe q) as [| msg rest]; [split; assumption |].
    destruct (_ <? _)%nat; [| split; assumption].
    destruct push as [partition offset | err]; [| split; assumption].
    split; cbn -[onBus UpdateAsSent OutboxInsertMessage].
    + intros m Hin. apply in_app_or in Hin as [Hin | [<- | []]].
      * apply onBus_app; auto.
      * unfold onBus. rewrite existsb_app. cbn. rewrite String.eqb_refl.
        rewrite orb_true_r. reflexivity.
    + intros r Hin Hs. destruct (Hr r Hin Hs) as [Hat [H0 | Hb]]; split; auto.
      right. apply onBus_app. assumption.
  - destruct (nth_error (marking q) i) as [msg |] eqn:Hnth; [| split; assumption].
    apply nth_error_In in Hnth. split; cbn -[onBus UpdateAsSent OutboxInsertMessage].
    + intros m Hin. apply In_removeAt in Hin. auto.
    + intros r Hin Hs.
      destruct (UpdateAsSent_pool (OutboxMessage.ID msg) (world q)) as [[_ Hst] | [_ Hst]];
        rewrite Hst in Hin; [auto |].
      cbn in Hin. unfold markRows in Hin. apply in_map_iff in Hin as (r0 & Hr0 & Hin0).
      destruct (String.eqb_spec (OutboxMessage.ID r0) (OutboxMessage.ID msg)) as [Heq | Hne].
      * subst r. cbn. split; [discriminate |]. right. rewrite Heq. auto.
      * subst r0. auto.
  - split; assumption.
  - split; cbn -[onBus UpdateAsSent OutboxInsertMessage]; [assumption |].
    intros r Hin Hs.
    destruct (OutboxInsertMessage_pool id topic payload (world q)) as [Hst | Hst];
      rewrite Hst in Hin; [auto |].
    cbn in Hin. apply in_app_or in Hin as [Hin | [<- | []]]; [auto | discriminate].
Qed.

Lemma Inv_run cfg d0 evs : forall q, Inv d0 q -> Inv d0 (run cfg evs q).
Proof.
  unfold run. induction evs as [| e evs IH]; intros q Hq; cbn; [assumption |].
  apply IH, Inv_step. assumption.
Qed.

Lemma Inv_init w : sentImpliesSentAt (store w) -> Inv (store w) (init w).
Proof.
  intros Hw. split; cbn; [tauto |]. intros r Hin Hs. split; [apply Hw; assumption | auto].
Qed.


(** *** The claim about the publisher *)

Lemma Tick_sending cfg q m :
  In m (sending (step cfg Tick q)) ->
  In m (sending q) \/
  (In m (outbox_messages (store (world q))) /\ OutboxMessage.Sent m = false).
Proof.
  cbn [step]. destruct (sending q) as [| x l] eqn:Hs; [| rewrite Hs; auto].
  pose proof (SelectUnsentBatch_pool (BatchSize cfg) (world q)) as (_ & _ & Hl).
  destruct (SelectUnsentBatch viaPool (BatchSize cfg) (world q)) as [[l | e] w'];
    cbn; [| rewrite Hs; contradiction].
  rewrite (Hl l eq_refl). intros Hin. right. eapply unsentBatch_unsent, Hin.
Qed.

(** C6 (as amended). In every run of the publisher from a table where
    [sent] implies [sent_at]: a row with [sent = true] has [sent_at] set
    and, unless it was sent from the start, a record with its id is on the
    bus, so the mark comes after a successful publish; a failed publish
    leaves the table as it was, and the row, still unsent, is in the next
    batch that is large enough for the unsent rows; a batch of
    [SelectUnsentBatch] holds rows with [sent = false] only, so a poll never
    queues a row that is marked.  (Copies of a row queued by earlier polls
    are not withdrawn when the row is marked.) *)
Theorem publisher_marks_after_publish cfg w evs :
  sentImpliesSentAt (store w) ->
  let q := run cfg evs (init w) in
  let d := store (world q) in
  (forall r, In r (outbox_messages d) -> OutboxMessage.Sent r = true ->
             OutboxMessage.SentAt r <> None /\
             (In r (outbox_messages (store w)) \/
              onBus (bus q) (OutboxMessage.ID r) = true)) /\
  (forall e msg w1,
     sendAndMark (kafka.PushErr e) msg w1 =
       (Err ("failed to push message: " ++ e)%string, w1, [])) /\
  (forall e, store (world (step cfg (Send (kafka.PushErr e)) q)) = d) /\
  (forall r n, In r (outbox_messages d) -> OutboxMessage.Sent r = false ->
               (length (unsentRows d) <= n)%nat -> In r (unsentBatch d n)) /\
  (forall n m, In m (unsentBatch d n) -> OutboxMessage.Sent m = false) /\
  (forall m, In m (sending (step cfg Tick q)) ->
             In m (sending q) \/
             (In m (outbox_messages d) /\ OutboxMessage.Sent m = false)).
Proof.
  intros Hw. cbn zeta.
  pose proof (Inv_run cfg (store w) evs (init w) (Inv_init w Hw)) as [_ Hr].
  split; [exact Hr |].
  split; [intros; reflexivity |].
  split.
  { intros e. cbn [step]. destruct (messagePipe _); [reflexivity |].
    destruct (_ <? _)%nat; reflexivity. }
  split; [intros r n; apply unsent_in_batch |].
  split; [intros n m Hin; eapply unsentBatch_unsent, Hin |].
  intros m. apply Tick_sending.
Qed.

End OutboxFacts.

(** ** The inbox subscriber *)
Section InboxFacts.
Import model db repository inbox.

Variable cfg : Config.
Variable gen : nat -> UUID.
Variable unmarshal : string -> result CheckResultFromAgent.t.

Lemma errKeeps_deferRollbackOnErr {A} (body : M A) :
  errKeeps body -> errKeeps (deferRollbackOnErr body).
Proof.
  intros Hb s. unfold deferRollbackOnErr. specialize (Hb s).
  destruct (body s) as [[a | e] s1]; cbn in *; [discriminate |].
  intros _. pose proof (keeps_Rollback s1) as Hr.
  destruct (Rollback s1) as [[[] | e'] s2]; cbn in *; rewrite Hr; auto.
Qed.

Lemma errKeeps_process msg : errKeeps (process cfg gen unmarshal msg).
Proof.
  unfold process.
  apply errKeeps_bind; [apply keeps_wrap, keeps_lift | intros messageID].
  apply errKeeps_bind; [apply keeps_wrap, keeps_lift | intros c].
  apply errKeeps_bind; [apply keeps_uuidNew | intros id].
  intros s. revert s.
  assert (forall cr, errKeeps
            (bind (wrap "error begin transaction" Begin) (fun _ =>
               deferRollbackOnErr
                 (bind (wrap "failed to insert message"
                          (InboxInsertMessage viaTx messageID (Topic cfg) (kafka.Value msg)))
                    (fun _ => bind (wrap "failed to insert checkResult"
                                      (InsertCheckResult viaTx cr))
                                (fun _ => wrap "failed to commit transaction" Commit)))))) as H.
  { intros cr. apply errKeeps_bind; [auto with dbkeep | intros _].
    apply errKeeps_deferRollbackOnErr.
    apply errKeeps_bind; [auto with dbkeep | intros _].
    apply errKeeps_bind; [auto with dbkeep | intros _].
    auto with dbkeep. }
  intros s. apply H.
Qed.

Lemma deferRollbackOnErr_Ok {A} (body : M A) s a s' :
  deferRollbackOnErr body s = (Ok a, s') -> body s = (Ok a, s').
Proof.
  unfold deferRollbackOnErr. destruct (body s) as [[a' | e] s1]; [auto |].
  destruct (Rollback s1) as [[[] | e'] s2]; discriminate.
Qed.

Lemma InboxInsertMessage_Ok id topic payload s s' :
  InboxInsertMessage viaTx id topic payload s = (Ok tt, s') ->
  exists d,
    txStep s s' d
      (if hasInbox d id then d
       else setInbox d (inbox_messages d ++ [inboxRow id topic payload (now s)])).
Proof.
  unfold InboxInsertMessage. intros H.
  apply bind_Ok in H as (d & s1 & Hv & H). apply view_tx_Ok in Hv as [Hd ->].
  apply bind_Ok in H as ([] & s2 & Hrt & H). apply roundTrip_same in Hrt as (Hs & Ht & Hn & Hc).
  exists d. destruct (hasInbox d id).
  - injection H as <-. repeat split; cbn; congruence.
  - cbv [write] in H. injection H as <-. rewrite Hc. repeat split; cbn; congruence.
Qed.

Lemma InsertCheckResult_Ok c s s' :
  InsertCheckResult viaTx c s = (Ok tt, s') ->
  exists d,
    hasCheckResult d (CheckResult.ID c) = false /\
    txStep s s' d (setCheckResults d (check_results d ++ [c])).
Proof.
  unfold InsertCheckResult. intros H.
  apply bind_Ok in H as (d & s1 & Hv & H). apply view_tx_Ok in Hv as [Hd ->].
  apply bind_Ok in H as ([] & s2 & Hrt & H). apply roundTrip_same in Hrt as (Hs & Ht & Hn & Hc).
  exists d. destruct (hasCheckResult d (CheckResult.ID c)); [discriminate |].
  destruct (negb (isCheckStatus (CheckResult.Status c))); [discriminate |].
  cbv [write] in H. injection H as <-.
  repeat split; cbn; congruence.
Qed.

Lemma process_Ok msg s s' :
  process cfg gen unmarshal msg s = (Ok tt, s') ->
  exists c,
    uuid.FromBytes (kafka.Key msg) = Ok (kafka.Key msg) /\
    unmarshal (kafka.Value msg) = Ok c /\
    store s' = ingested cfg (store s) (kafka.Key msg) (kafka.Value msg) (now s)
                 (checkResultOf (gen (nextID s)) c (now s) (kafka.Value msg)).
Proof.
  unfold process. intros H.
  apply bind_Ok in H as (messageID & s1 & H1 & H).
  apply wrap_Ok in H1. unfold service.lift in H1. injection H1 as Hid <-.
  apply bind_Ok in H as (c & s2 & H2 & H).
  apply wrap_Ok in H2. unfold service.lift in H2. injection H2 as Hc <-.
  apply bind_Ok in H as (id & s3 & H3 & H). injection H3 as <- <-.
  cbn [now setNextID] in H.
  apply bind_Ok in H as ([] & s4 & H4 & H).
  apply wrap_Ok, Begin_Ok in H4 as (Ht4 & Hs4 & Hn4 & Hc4). cbn in Ht4, Hs4, Hn4, Hc4.
  apply deferRollbackOnErr_Ok in H.
  apply bind_Ok in H as ([] & s5 & H5 & H).
  apply wrap_Ok, InboxInsertMessage_Ok in H5 as (d5 & Hd5 & Ht5 & Hs5 & Hn5 & Hc5).
  rewrite Ht4 in Hd5. injection Hd5 as <-.
  apply bind_Ok in H as ([] & s6 & H6 & H).
  apply wrap_Ok, InsertCheckResult_Ok in H6 as (d6 & Hnew & Hd6 & Ht6 & Hs6 & Hn6 & Hc6).
  rewrite Ht5 in Hd6. injection Hd6 as <-.
  apply wrap_Ok, Commit_Ok in H as (d7 & Hd7 & Hs7 & _).
  rewrite Ht6 in Hd7. injection Hd7 as <-.
  exists c. unfold uuid.FromBytes in Hid |- *.
  destruct (String.length (kafka.Key msg) =? 16)%nat; [| discriminate].
  injection Hid as <-. repeat split; [assumption |].
  rewrite Hs7, Hc4. unfold ingested.
  destruct (hasInbox (store s) (kafka.Key msg)); reflexivity.
Qed.


(** C1 (as amended). A message whose key is a UUID is acknowledged after
    [process] has run, whether [process] succeeded or not.  The inbox row
    and the check result are committed together when [process] succeeds;
    when it fails (decoding, begin, either insert or the commit) the
    committed tables are the ones before.  A message whose key is no UUID
    changes nothing and is not acknowledged. *)
Theorem worker_ingest_atomic msg q :
  let q' := worker cfg gen unmarshal msg q in
  match uuid.FromBytes (kafka.Key msg) with
  | Err _ => world q' = world q /\ marked q' = marked q
  | Ok _ =>
      marked q' = marked q ++ [msg] /\
      match fst (process cfg gen unmarshal msg (world q)) with
      | Ok _ =>
          exists c,
            unmarshal (kafka.Value msg) = Ok c /\
            store (world q') =
              ingested cfg (store (world q)) (kafka.Key msg) (kafka.Value msg)
                (now (world q))
                (checkResultOf (gen (nextID (world q))) c (now (world q))
                   (kafka.Value msg))
      | Err _ => store (world q') = store (world q)
      end
  end.
Proof.
  cbn zeta. unfold worker.
  destruct (uuid.FromBytes (kafka.Key msg)) as [id | e]; [| split; reflexivity].
  pose proof (errKeeps_process msg (world q)) as Herr.
  pose proof (process_Ok msg (world q)) as Hok.
  destruct (process cfg gen unmarshal msg (world q)) as [[[] | e] w]; cbn in *.
  - split; [reflexivity |].
    destruct (Hok w eq_refl) as (c & _ & Hc & Hst). eauto.
  - split; [reflexivity | auto].
Qed.

(** C7 (as amended). When the key of a message does not parse as a 16-byte
    UUID, the worker logs the error and goes on to the next message: the
    database is untouched and [Mark] is not called, so the message is not
    acknowledged. *)
Theorem worker_skips_malformed_key msg q e :
  uuid.FromBytes (kafka.Key msg) = Err e ->
  let q' := worker cfg gen unmarshal msg q in
  world q' = world q /\
  marked q' = marked q /\
  log q' = log q ++ [("Error parsing message id: " ++ e)%string].
Proof.
  intros H. cbn zeta. unfold worker. rewrite H. repeat split.
Qed.

End InboxFacts.

Section InboxExamples.
Import model db repository inbox samples.

(** The key of [poisonMessage] is no UUID; the key of [resultMessage] is. *)
Example poisonMessage_key : uuid.FromBytes (kafka.Key poisonMessage) = Err "invalid UUID".
Proof. reflexivity. Qed.

Example resultMessage_key :
  uuid.FromBytes (kafka.Key resultMessage) = Ok "0123456789abcdef".
Proof. reflexivity. Qed.

(** C1, the claim as worded fails: with the database refusing the first
    round trip of the ingest transaction, no row is persisted and yet the
    message is acknowledged. *)
Lemma worker_acks_failed_ingest :
  let q := subscriber [true] in
  let q' := worker inboxConfig unary (fun _ => Ok decodedResult) resultMessage q in
  store (world q') = store (world q) /\
  marked q' = [resultMessage] /\
  ~ allOrNothing inboxConfig unary (fun _ => Ok decodedResult) resultMessage q.
Proof.
  cbn zeta. split; [reflexivity |]. split; [reflexivity |].
  intros [(Hin & _) | (_ & Hm)]; vm_compute in Hin || vm_compute in Hm; discriminate.
Qed.

(** The same message with a database that answers: both rows are there and
    the message is acknowledged. *)
Example worker_ingests :
  let q' := worker inboxConfig unary (fun _ => Ok decodedResult) resultMessage (subscriber []) in
  map InboxMessage.ID (inbox_messages (store (world q'))) = ["0123456789abcdef"] /\
  map CheckResult.Status (check_results (store (world q'))) = ["DONE"] /\
  marked q' = [resultMessage].
Proof. vm_compute. repeat split. Qed.

Lemma worker_ingest_atomic_witness :
  marked (worker inboxConfig unary (fun _ => Ok decodedResult) resultMessage
            (subscriber [false; false; true])) = [resultMessage] /\
  store (world (worker inboxConfig unary (fun _ => Ok decodedResult) resultMessage
                  (subscriber [false; false; true]))) = seeded.
Proof.
  pose proof (worker_ingest_atomic inboxConfig unary (fun _ => Ok decodedResult)
                resultMessage (subscriber [false; false; true])) as H.
  cbn zeta in H. rewrite resultMessage_key in H.
  destruct H as [Hm Hs]. split; [exact Hm | exact Hs].
Defined.

(** C7, the claim as worded fails: a message with a 3-byte key is left
    unacknowledged. *)
Lemma worker_leaves_malformed_key_unacked :
  marked (worker inboxConfig unary (fun _ => Ok decodedResult) poisonMessage (subscriber [])) = [] /\
  ~ poisonAcked inboxConfig unary (fun _ => Ok decodedResult) poisonMessage (subscriber []).
Proof.
  split; [reflexivity |]. intros [_ Hin]. vm_compute in Hin. exact Hin.
Qed.

Lemma worker_skips_malformed_key_witness :
  let q := subscriber [] in
  let q' := worker inboxConfig unary (fun _ => Ok decodedResult) poisonMessage q in
  world q' = world q /\ marked q' = marked q /\
  log q' = log q ++ ["Error parsing message id: invalid UUID"].
Proof.
  apply (worker_skips_malformed_key inboxConfig unary (fun _ => Ok decodedResult)
           poisonMessage (subscriber []) "invalid UUID").
  reflexivity.
Defined.

End InboxExamples.

Section OutboxExamples.
Import model db repository outbox samples.

Lemma sentImpliesSentAt_withOutbox : sentImpliesSentAt (store (worldOf withOutbox [])).
Proof. intros r [<- | []] H. discriminate. Qed.

(** C6, the claim as worded fails: the second poll queues the row before
    the first copy is marked, and the second copy is published after the
    mark. *)
Lemma publisher_republishes_queued_copy :
  let q := run publisherConfig twoPolls (init (worldOf withOutbox [])) in
  map kafka.Key (bus q) = ["k1"; "k1"] /\
  map OutboxMessage.Sent (outbox_messages (store (world q))) = [true] /\
  ~ neverRepublished publisherConfig (worldOf withOutbox []).
Proof.
  cbn zeta. split; [reflexivity |]. split; [reflexivity |].
  intros H. specialize (H twoPolls). vm_compute in H. discriminate.
Qed.

(** A failed publish, then the retry of a later poll: one record on the
    bus, the row marked. *)
Example publisher_retries :
  let q := run publisherConfig retryAfterFailure (init (worldOf withOutbox [])) in
  map kafka.Key (bus q) = ["k1"] /\
  map OutboxMessage.SentAt (outbox_messages (store (world q))) = [Some 1000].
Proof. vm_compute. split; reflexivity. Qed.

Lemma publisher_marks_after_publish_witness :
  let q := run publisherConfig retryAfterFailure (init (worldOf withOutbox [])) in
  map OutboxMessage.Sent (outbox_messages (store (world q))) = [true] /\
  onBus (bus q) "k1" = true.
Proof.
  cbn zeta. split; [vm_compute; reflexivity |].
  destruct (proj1 (publisher_marks_after_publish publisherConfig (worldOf withOutbox [])
                     retryAfterFailure sentImpliesSentAt_withOutbox)
              (OutboxMessage.markSent 1000 pendingRow))
    as [_ [Hin | Hbus]].
  - vm_compute. left. reflexivity.
  - reflexivity.
  - destruct Hin as [H | []]. discriminate H.
  - exact Hbus.
Defined.

End OutboxExamples.

(** ** The result stream *)
Section StreamFacts.
Import model handler.

Variable hashOf : list CheckResultResponse.t -> string.

Lemma isTerminalStatus_spec status :
  isTerminalStatus status = true <->
  In status ["SUCCESS"; "FAILED"; "TIMEOUT"; "CANCELLED"].
Proof.
  unfold isTerminalStatus. rewrite !orb_true_iff, !String.eqb_eq. cbn.
  intuition congruence.
Qed.

Lemma allTerminalLoop_spec l :
  allTerminalLoop l = true <->
  Forall (fun it => isTerminalStatus (CheckResultResponse.Status it) = true) l.
Proof.
  induction l as [| it l IH]; cbn.
  - split; [constructor | reflexivity].
  - destruct (isTerminalStatus (CheckResultResponse.Status it)) eqn:Ht.
    + rewrite IH. split; [intros H; constructor; assumption | intros H; inversion H; assumption].
    + split; [discriminate | intros H; inversion H; congruence].
Qed.

(** [allTerminal] holds for the non-empty lists whose statuses are all
    among SUCCESS, FAILED, TIMEOUT and CANCELLED. *)
Lemma allTerminal_spec l :
  allTerminal l = true <->
  l <> [] /\
  Forall (fun it => In (CheckResultResponse.Status it)
                       ["SUCCESS"; "FAILED"; "TIMEOUT"; "CANCELLED"]) l.
Proof.
  unfold allTerminal. destruct l as [| it l]; cbn [length Nat.eqb].
  - split; [discriminate | intros [H _]; congruence].
  - rewrite allTerminalLoop_spec. split.
    + intros H. split; [discriminate |].
      eapply List.Forall_impl; [| exact H]. intros a. apply isTerminalStatus_spec.
    + intros [_ H]. eapply List.Forall_impl; [| exact H]. intros a. apply isTerminalStatus_spec.
Qed.

(** The status the inbox stores: DONE for [ok = true], FAILED otherwise. *)
Lemma checkResultOf_Status id c t v :
  CheckResult.Status (inbox.checkResultOf id c t v) =
  if CheckResultFromAgent.OK c then "DONE" else "FAILED".
Proof. unfold inbox.checkResultOf. destruct (CheckResultFromAgent.OK c); reflexivity. Qed.

(** On a tick with a successful query and a writable socket, the handler
    returns exactly when [allTerminal] holds, and then the last frame is
    the done frame with the list. *)
Lemma onTick_done results c :
  returned c = false ->
  let c' := onTick hashOf (Ok results) true c in
  returned c' = allTerminal results /\
  (allTerminal results = true ->
   exists fs, frames c' = fs ++ [frame "done" results]).
Proof.
  intros Hc. cbn zeta. unfold onTick. rewrite Hc.
  destruct (String.eqb (lastHash c) "");
    [| destruct (negb (String.eqb (hashOf results) (lastHash c)))];
    destruct (allTerminal results); cbn; split; auto; try discriminate; intros _.
  - exists (frames c ++ [frame "snapshot" results]). rewrite <- app_assoc. reflexivity.
  - exists (frames c ++ [frame "update" results]). rewrite <- app_assoc. reflexivity.
  - exists (frames c). reflexivity.
Qed.

(** C2, evaluated on the code: a non-empty list in which every status is
    DONE, the status the inbox stores for a successful probe, is not
    terminal for [allTerminal]; the tick sends no done frame and the
    handler does not return. *)
Theorem stream_all_DONE_stays_open results c :
  results <> [] ->
  Forall (fun it => CheckResultResponse.Status it = "DONE") results ->
  returned c = false ->
  let c' := onTick hashOf (Ok results) true c in
  allTerminal results = false /\
  returned c' = false /\
  (forall f, In f (frames c') -> wsMessage.Type_ f = "done" -> In f (frames c)).
Proof.
  intros Hne Hall Hc. cbn zeta.
  assert (allTerminal results = false) as Hnt.
  { destruct (allTerminal results) eqn:Ht; [| reflexivity].
    apply allTerminal_spec in Ht as [_ Ht].
    destruct results as [| it l]; [congruence |].
    inversion Hall as [| ? ? Hd _]; inversion Ht as [| ? ? Hs _]; subst.
    rewrite Hd in Hs. cbn in Hs. intuition discriminate. }
  split; [assumption |].
  pose proof (onTick_done results c Hc) as [Hret _]. cbn zeta in Hret.
  split; [congruence |].
  unfold onTick. rewrite Hc, Hnt.
  destruct (String.eqb (lastHash c) "");
    [| destruct (negb (String.eqb (hashOf results) (lastHash c)))]; cbn;
    intros f Hin Hf; try assumption;
    apply in_app_or in Hin as [Hin | [<- | []]]; auto; discriminate.
Qed.

End StreamFacts.

Section StreamExamples.
Import model handler samples.

Lemma stream_all_DONE_stays_open_witness :
  let c' := onTick (fun _ => "h1") (Ok [doneRow]) true opened in
  allTerminal [doneRow] = false /\
  returned c' = false /\
  (forall f, In f (frames c') -> wsMessage.Type_ f = "done" -> In f (frames opened)).
Proof.
  apply (stream_all_DONE_stays_open (fun _ => "h1") [doneRow] opened).
  - discriminate.
  - repeat constructor.
  - reflexivity.
Defined.

(** The frames of that tick: the snapshot only. *)
Example stream_DONE_frames :
  map wsMessage.Type_ (frames (onTick (fun _ => "h1") (Ok [doneRow]) true opened))
  = ["snapshot"].
Proof. reflexivity. Qed.

End StreamExamples.


(** ** Strings *)
Section StringFacts.
Import GoStrings.
Local Open Scope string_scope.

Lemma append_cons c (a b : string) : String c a ++ b = String c (a ++ b).
Proof. reflexivity. Qed.

Lemma append_nil (b : string) : "" ++ b = b.
Proof. reflexivity. Qed.



Lemma length_append (a b : string) :
  String.length (a ++ b) = (String.length a + String.length b)%nat.
Proof.
  induction a as [| x a IH]; [reflexivity |]. rewrite append_cons. cbn. rewrite IH. reflexivity.
Qed.

Lemma substring_whole s : String.substring 0 (String.length s) s = s.
Proof. induction s as [| c s IH]; cbn; [reflexivity | rewrite IH; reflexivity]. Qed.

















End StringFacts.

(** ** The agent *)
Section AgentFacts.
Import GoStrings wire agent.

Variable unmarshalTask : string -> result TaskMessage.t.
Variable unmarshalStringMap : string -> option (list (string * string)).
Variable unmarshalStringList : string -> option (list string).
Variable windows : bool.
Variable decodeCodePage : string -> string.
Variable ipFamily : string -> option bool.
Variable formatSeconds : Z -> string.
Variable cmdString : string -> list string -> string.
Variable hopsOf : string -> json.value.

Abbreviation normalize := (normalizeCheckParams unmarshalStringMap unmarshalStringList).
Abbreviation normalizeAll := (normalizeChecks unmarshalStringMap unmarshalStringList).
Abbreviation parse := (ParseTask unmarshalTask unmarshalStringMap unmarshalStringList).
Abbreviation runOne' := (runOne windows decodeCodePage ipFamily formatSeconds cmdString hopsOf).
Abbreviation runCheckAt' :=
  (runCheckAt windows decodeCodePage ipFamily formatSeconds cmdString hopsOf).
Abbreviation RunCheck' := (RunCheck windows decodeCodePage ipFamily formatSeconds cmdString hopsOf).
Abbreviation process' :=
  (process unmarshalTask unmarshalStringMap unmarshalStringList
     windows decodeCodePage ipFamily formatSeconds cmdString hopsOf).

(** *** Unknown kinds *)

Lemma knownKind_false typ :
  knownKind typ = false ->
  String.eqb (ToLower typ) "http" = false /\
  String.eqb (ToLower typ) "ping" = false /\
  String.eqb (ToLower typ) "tcp" = false /\
  String.eqb (ToLower typ) "traceroute" = false /\
  String.eqb (ToLower typ) "dns" = false.
Proof.
  unfold knownKind. cbn [existsb]. rewrite !orb_false_iff.
  intros (H1 & H2 & H3 & H4 & H5 & _). auto.
Qed.

Lemma normalizeCheckParams_unknown c :
  knownKind (CheckRequest.Type_ c) = false ->
  normalize c = Failed ("unsupported check type " ++ Quote (CheckRequest.Type_ c))%string.
Proof.
  intros H. apply knownKind_false in H as (H1 & H2 & H3 & H4 & H5).
  unfold normalizeCheckParams. cbn zeta. rewrite H1, H2, H3, H4, H5. reflexivity.
Qed.

Lemma normalizeChecks_unknown checks :
  Exists (fun c => knownKind (CheckRequest.Type_ c) = false) checks ->
  forall i l, normalizeAll i checks <> Returned l.
Proof.
  induction 1 as [c rest Hc | c rest _ IH]; intros i l; cbn [normalizeChecks].
  - rewrite (normalizeCheckParams_unknown c Hc). discriminate.
  - destruct (normalize c) as [c' | e | w]; try discriminate.
    specialize (IH (S i)).
    destruct (normalizeAll (S i) rest) as [l' | e | w]; cbn; try discriminate.
    exfalso. eapply IH. reflexivity.
Qed.

(** What [runOne] does with an unknown kind: the synthetic envelope. *)
Lemma runOne_unknown task idx chk a :
  knownKind (CheckRequest.Type_ chk) = false ->
  runOne' task idx chk a =
    makeResTemplate (TaskMessage.ID task) idx (CheckRequest.Type_ chk)
      (TaskMessage.Target task) (start a) (elapsedMs a) false
      (Some ("unsupported check type " ++ Quote (CheckRequest.Type_ chk))%string) None.
Proof.
  intros H. apply knownKind_false in H as (H1 & H2 & H3 & H4 & H5).
  unfold runOne. cbn zeta. rewrite H1, H2, H3, H4, H5. reflexivity.
Qed.

(** A task that [ParseTask] accepts gets one envelope per check, the i-th
    with check index i. *)
Lemma RunCheck_one_per_check task fates :
  length (RunCheck' task fates) = length (TaskMessage.Checks task) /\
  forall i r, nth_error (RunCheck' task fates) i = Some r -> CheckResult.CheckIndex r = i.
Proof.
  unfold RunCheck. split; [apply length_imap |].
  intros i r H.
  assert (forall (l : list CheckRequest.t) k j r,
            nth_error (imap (fun i chk => runCheckAt' task (k + i)%nat chk (fates (k + i)%nat)) l) j
              = Some r -> CheckResult.CheckIndex r = (k + j)%nat) as Hgen.
  { clear. induction l as [| c l IH]; intros k j r; [destruct j; discriminate |].
    rewrite imap_cons. destruct j as [| j]; cbn [nth_error].
    - intros [= <-]. rewrite Nat.add_0_r.
      destruct (fates k) as [e t | a]; cbn [runCheckAt]; [reflexivity |].
      unfold runOne. cbn zeta.
      repeat match goal with
             | |- context [if ?b then _ else _] => destruct b
             end;
        try reflexivity.
      + unfold runHTTP. destruct (http a); reflexivity.
      + unfold runPing. destruct (failure (ping a)); reflexivity.
      + unfold runTCP. destruct (tcp a); reflexivity.
    - intros H. specialize (IH (S k) j r).
      rewrite <- Nat.add_succ_comm. apply IH.
      erewrite imap_ext; [exact H |]. intros i0 x _. cbn.
      rewrite <- !Nat.add_succ_comm. reflexivity. }
  apply (Hgen (TaskMessage.Checks task) 0%nat i r). exact H.
Qed.

(** C3, evaluated on the code: when a task holds a check of an unknown
    kind, [ParseTask] returns the error of [normalizeCheckParams] (or has
    panicked before reaching it) and [process] never gets to [RunCheck]: no
    envelope is published for any check of the task, although [runOne]
    would turn the unknown kind into an envelope with ok=false and the
    error "unsupported check type". *)
Theorem process_drops_task_with_unknown_kind data t fates :
  unmarshalTask data = Ok t ->
  Exists (fun c => knownKind (CheckRequest.Type_ c) = false) (TaskMessage.Checks t) ->
  envelopes (process' data fates) = [] /\
  (forall l, process' data fates <> Returned l) /\
  (forall idx chk a,
     knownKind (CheckRequest.Type_ chk) = false ->
     CheckResult.OK (runOne' t idx chk a) = false /\
     CheckResult.Error (runOne' t idx chk a) =
       ("unsupported check type " ++ Quote (CheckRequest.Type_ chk))%string).
Proof.
  intros Ht Hex.
  assert (forall l, process' data fates <> Returned l) as Hno.
  { intros l. unfold process, ParseTask. rewrite Ht.
    pose proof (normalizeChecks_unknown _ Hex 0%nat) as Hn.
    destruct (normalizeAll 0%nat (TaskMessage.Checks t)) as [l' | e | w]; cbn;
      try discriminate.
    exfalso. eapply Hn. reflexivity. }
  split; [| split; [exact Hno |]].
  - destruct (process' data fates) as [l | e | w] eqn:Hp; try reflexivity.
    exfalso. eapply Hno. reflexivity.
  - intros idx chk a Hk. rewrite (runOne_unknown t idx chk a Hk). split; reflexivity.
Qed.


(** *** The error field *)

Lemma withDurationMs_OK_Error r ms :
  CheckResult.OK (withDurationMs r ms) = CheckResult.OK r /\
  CheckResult.Error (withDurationMs r ms) = CheckResult.Error r.
Proof. split; reflexivity. Qed.

Lemma unsupported_text typ :
  ("unsupported check type " ++ Quote typ)%string <> "".
Proof. discriminate. Qed.

(** C9 (as amended). For every probe run of any kind, with or without the
    context deadline, when every error the probe meets has a text: the
    error field is omitted whenever ok=true; whenever ok=false it is
    non-empty, except in two cases that set no error at all: an HTTP check
    that got a response (its status decides ok) and a DNS check (its
    failures are in the payload under <RECORD>_error). *)
Theorem envelope_error_field task i chk f :
  errorsHaveText f ->
  let res := runCheckAt' task i chk f in
  (CheckResult.OK res = true -> CheckResult.Error res = "") /\
  (CheckResult.OK res = false ->
   CheckResult.Error res <> "" \/ failsWithoutError chk f) /\
  (failsWithoutError chk f -> CheckResult.Error res = "").
Proof.
  intros Htext. cbn zeta.
  destruct f as [ctxErr t | a]; cbn [runCheckAt errorsHaveText failsWithoutError] in *.
  { cbn. split; [discriminate |]. split; [auto | contradiction]. }
  destruct Htext as (Hnew & Hdo & Hdial & Hping & Htrace).
  unfold runOne. cbn zeta.
  destruct (String.eqb_spec (ToLower (CheckRequest.Type_ chk)) "http") as [Hhttp | Hnhttp].
  { unfold runHTTP. destruct (http a) as [e | e | status finalURL latencyMs] eqn:Ha; cbn.
    - split; [discriminate |]. split; [left; eauto |].
      intros [(_ & s & u & l & Hr) | Hd]; [discriminate | congruence].
    - split; [discriminate |]. split; [left; eauto |].
      intros [(_ & s & u & l & Hr) | Hd]; [discriminate | congruence].
    - split; [reflexivity |]. split; [| reflexivity].
      intros _. right. left. eauto 10. }
  destruct (String.eqb_spec (ToLower (CheckRequest.Type_ chk)) "ping") as [Hp | Hnp].
  { unfold runPing. destruct (failure (ping a)) as [e |] eqn:Ha; cbn.
    - split; [discriminate |]. split; [left; eauto |].
      intros [(Hh & _) | Hd]; congruence.
    - split; [reflexivity |]. split; [discriminate | reflexivity]. }
  destruct (String.eqb_spec (ToLower (CheckRequest.Type_ chk)) "tcp") as [Ht | Hnt].
  { unfold runTCP. destruct (tcp a) as [e | ms] eqn:Ha; cbn.
    - split; [discriminate |]. split; [left; eauto |].
      intros [(Hh & _) | Hd]; congruence.
    - split; [reflexivity |]. split; [discriminate | reflexivity]. }
  destruct (String.eqb_spec (ToLower (CheckRequest.Type_ chk)) "traceroute") as [Htr | Hntr].
  { unfold runTraceroute. cbn zeta.
    destruct (failure (traceroute a)) as [e |] eqn:Ha; cbn.
    - split; [discriminate |]. split; [left; eauto |].
      intros [(Hh & _) | Hd]; congruence.
    - split; [reflexivity |]. split; [discriminate | reflexivity]. }
  destruct (String.eqb_spec (ToLower (CheckRequest.Type_ chk)) "dns") as [Hdns | Hndns].
  { unfold runDNS. cbn. split; [reflexivity |]. split; [| reflexivity].
    intros _. right. right. assumption. }
  cbn. split; [discriminate |]. split; [left; discriminate |].
  intros [(Hh & _) | Hd]; congruence.
Qed.


(** *** The expected status range of an http check *)


















(** *** A check without params *)

(** C8, evaluated on the code: an http check whose [params] is missing or
    null has a nil map, and the default branch of the
    [expectedStatusRange] block writes into it: [normalizeCheckParams]
    panics, and with it [ParseTask] and [process], whatever else the task
    holds in the checks that follow. *)
Theorem http_check_without_params_panics data t c rest fates :
  unmarshalTask data = Ok t ->
  TaskMessage.Checks t = c :: rest ->
  ToLower (CheckRequest.Type_ c) = "http" ->
  CheckRequest.Params c = None ->
  normalize c = Panicked "assignment to entry in nil map" /\
  process' data fates = Panicked "assignment to entry in nil map".
Proof.
  intros Ht Hc Hk Hp.
  assert (normalize c = Panicked "assignment to entry in nil map") as Hn.
  { unfold normalizeCheckParams. cbn zeta. rewrite Hk, Hp. reflexivity. }
  split; [exact Hn |].
  unfold process, ParseTask. rewrite Ht, Hc. cbn [normalizeChecks]. rewrite Hn. reflexivity.
Qed.

End AgentFacts.

Section AgentExamples.
Import GoStrings wire agent samples.

Example parseRange2Int_200_299 : parseRange2Int "[200,299]" = Ok (200, 299).
Proof. reflexivity. Qed.

Example parseRange2Int_spaces : parseRange2Int " [ 200 , 299 ] " = Ok (200, 299).
Proof. reflexivity. Qed.

(** A task that the agent knows throughout gets one envelope per check. *)
Example process_two_known :
  map CheckResult.CheckIndex
      (envelopes (agentProcess (taskOf [httpCheck; dnsCheck]) (fun _ => Probed outage)))
  = [0%nat; 1%nat].
Proof. vm_compute. reflexivity. Qed.

(** C3 at a concrete task: an http check and an smtp check give no
    envelope at all. *)
Lemma process_drops_task_with_unknown_kind_witness :
  envelopes (agentProcess (taskOf [httpCheck; smtpCheck]) (fun _ => Probed outage)) = [] /\
  (forall l, agentProcess (taskOf [httpCheck; smtpCheck]) (fun _ => Probed outage)
             <> Returned l) /\
  (forall idx chk a,
     knownKind (CheckRequest.Type_ chk) = false ->
     CheckResult.OK
       (runOne false (fun s => s) (fun _ => None) (fun _ => "1.000")
          (fun name args => String.concat " " (name :: args)) (fun _ => json.Array [])
          (taskOf [httpCheck; smtpCheck]) idx chk a) = false /\
     CheckResult.Error
       (runOne false (fun s => s) (fun _ => None) (fun _ => "1.000")
          (fun name args => String.concat " " (name :: args)) (fun _ => json.Array [])
          (taskOf [httpCheck; smtpCheck]) idx chk a) =
       ("unsupported check type " ++ Quote (CheckRequest.Type_ chk))%string).
Proof.
  apply (process_drops_task_with_unknown_kind
           (fun _ => Ok (taskOf [httpCheck; smtpCheck])) (fun _ => None) (fun _ => None)
           false (fun s => s) (fun _ => None) (fun _ => "1.000")
           (fun name args => String.concat " " (name :: args)) (fun _ => json.Array [])
           "{task}" (taskOf [httpCheck; smtpCheck]) (fun _ => Probed outage)).
  - reflexivity.
  - right. left. reflexivity.
Defined.

(** The error of that task, as [ParseTask] words it. *)
Example process_unknown_kind_error :
  exists e, agentProcess (taskOf [httpCheck; smtpCheck]) (fun _ => Probed outage) = Failed e.
Proof. eexists. vm_compute. reflexivity. Qed.

(** C8 at a concrete task: one http check without params. *)
Lemma http_check_without_params_panics_witness :
  agentProcess (taskOf [bareHTTPCheck]) (fun _ => Probed outage)
  = Panicked "assignment to entry in nil map".
Proof.
  apply (http_check_without_params_panics
           (fun _ => Ok (taskOf [bareHTTPCheck])) (fun _ => None) (fun _ => None)
           false (fun s => s) (fun _ => None) (fun _ => "1.000")
           (fun name args => String.concat " " (name :: args)) (fun _ => json.Array [])
           "{task}" (taskOf [bareHTTPCheck]) bareHTTPCheck [] (fun _ => Probed outage));
    reflexivity.
Defined.

(** C9, the claim as worded fails: a DNS check whose lookup fails has
    ok=false and no error; so has an http check answered with a 500. *)
Lemma dns_failure_has_no_error :
  let sent := envelopes (agentProcess (taskOf [dnsCheck; httpCheck])
                           (fun _ => Probed outage)) in
  map CheckResult.Type_ sent = ["dns"; "http"] /\
  map CheckResult.OK sent = [false; false] /\
  map CheckResult.Error sent = [""; ""] /\
  ~ (forall r, In r sent -> errorFollowsOK r).
Proof.
  cbn zeta.
  split; [vm_compute; reflexivity |].
  split; [vm_compute; reflexivity |].
  split; [vm_compute; reflexivity |].
  intros H.
  destruct (envelopes (agentProcess (taskOf [dnsCheck; httpCheck])
                         (fun _ => Probed outage))) as [| r sent] eqn:Hs;
    [vm_compute in Hs; discriminate |].
  assert (CheckResult.OK r = false /\ CheckResult.Error r = "") as [Hok Herr].
  { apply (f_equal (fun l => match l with
                             | x :: _ => (CheckResult.OK x, CheckResult.Error x)
                             | [] => (true, "")
                             end)) in Hs.
    vm_compute in Hs. cbn in Hs. injection Hs as -> ->. split; reflexivity. }
  destruct (H r (or_introl eq_refl)) as [Hne _]. exact (Hne Hok Herr).
Qed.

Lemma errorsHaveText_outage : errorsHaveText (Probed outage).
Proof.
  cbn. repeat split; intros e H; try discriminate; injection H as <-; discriminate.
Qed.

Lemma envelope_error_field_witness :
  let res := agentRunCheckAt (taskOf [smtpCheck]) 0 smtpCheck (Probed outage) in
  (CheckResult.OK res = true -> CheckResult.Error res = "") /\
  (CheckResult.OK res = false ->
   CheckResult.Error res <> "" \/ failsWithoutError smtpCheck (Probed outage)) /\
  (failsWithoutError smtpCheck (Probed outage) -> CheckResult.Error res = "").
Proof.
  exact (envelope_error_field false (fun s => s) (fun _ => None) (fun _ => "1.000")
           (fun name args => String.concat " " (name :: args)) (fun _ => json.Array [])
           (taskOf [smtpCheck]) 0%nat smtpCheck (Probed outage) errorsHaveText_outage).
Defined.

End AgentExamples.

Section DispatchExamples.
Import model db repository wire service samples.


(** An address in North America is served from EU. *)
Example Lookup_north_america :
  geoip.Region (geoip.Lookup northAmerica (Some "8.8.8.8")) = "EU" /\
  geoip.Continent (geoip.Lookup northAmerica (Some "8.8.8.8")) = "NA".
Proof. split; reflexivity. Qed.

(** Scenario 2: a broadcast over the three seeded agents. *)
Example dispatch_broadcast :
  let d := store (snd (dispatch broadcastRequest (Some "8.8.8.8") (worldOf seeded []))) in
  map OutboxMessage.Topic (outbox_messages d)
    = ["hosts-check-APAC"; "hosts-check-US"; "hosts-check-EU"] /\
  map Assignment.AgentRegion (assignments d) = ["APAC"; "US"; "EU"] /\
  map Request.Status (requests d) = ["PENDING"].
Proof. vm_compute. repeat split. Qed.

(** Scenario 1: the nearest region, here EU. *)
Example dispatch_nearest :
  let d := store (snd (dispatch nearestRequest (Some "8.8.8.8") (worldOf seeded []))) in
  map OutboxMessage.Topic (outbox_messages d) = ["hosts-check-EU"] /\
  map Assignment.AgentRegion (assignments d) = ["EU"].
Proof. vm_compute. repeat split. Qed.


(** Scenario 4: the database fails after the request row was inserted. *)
Lemma CreateRequest_rollback_witness :
  let s := worldOf seeded [false; false; true] in
  isErr (fst (dispatch broadcastRequest (Some "8.8.8.8") s)) = true /\
  store (snd (dispatch broadcastRequest (Some "8.8.8.8") s)) = seeded.
Proof.
  cbn zeta. split; [vm_compute; reflexivity |].
  apply (proj2 (CreateRequest_rollback northAmerica unary (fun _ => Ok "{task}") (fun a => a)
                  broadcastRequest (Some "8.8.8.8") "curl"
                  (worldOf seeded [false; false; true]))).
  vm_compute. reflexivity.
Defined.

(** The error of scenario 4. *)
Example dispatch_rollback_error :
  fst (dispatch broadcastRequest (Some "8.8.8.8") (worldOf seeded [false; false; true]))
  = Err "failed to select agents: db: round trip failed".
Proof. vm_compute. reflexivity. Qed.

(** Without an agent for the client region the dispatch fails and nothing
    is persisted. *)
Example dispatch_no_agent :
  let s := worldOf emptyDB [] in
  fst (dispatch nearestRequest (Some "8.8.8.8") s)
    = Err "failed to select agent: no rows in result set" /\
  store (snd (dispatch nearestRequest (Some "8.8.8.8") s)) = emptyDB.
Proof. vm_compute. split; reflexivity. Qed.

(** Whichever round trip of a broadcast over the three agents fails (begin,
    request insert, agent selection, the three outbox inserts and the three
    assignment inserts, commit), the call returns an error and the tables
    are the seeded ones. *)
Example dispatch_fails_at_every_step :
  forallb (fun k =>
             let run := dispatch broadcastRequest (Some "8.8.8.8")
                          (worldOf seeded (repeat false k ++ [true])) in
             isErr (fst run)
             && (length (requests (store (snd run))) =? 0)%nat
             && (length (assignments (store (snd run))) =? 0)%nat
             && (length (outbox_messages (store (snd run))) =? 0)%nat)
          (seq 0 10) = true /\
  isErr (fst (dispatch broadcastRequest (Some "8.8.8.8")
                (worldOf seeded (repeat false 10 ++ [true])))) = false.
Proof. vm_compute. split; reflexivity. Qed.

(** A nil client IP prints as <nil>, which the [client_ip] column refuses:
    the dispatch fails at the request insert. *)
Example dispatch_nil_ip :
  fst (dispatch nearestRequest None (worldOf seeded []))
  = Err "failed to insert request: invalid input syntax for type inet".
Proof. vm_compute. reflexivity. Qed.

End DispatchExamples.

(** * Further properties of the code *)

(** ** The results of a request *)
Section ResultsFacts.
Import model db repository service.

Lemma SelectResultsByRequestID_pool requestID s rows s' :
  SelectResultsByRequestID viaPool requestID s = (Ok rows, s') ->
  rows = flat_map (fun a => map (joinRow a) (resultsOf (store s) requestID))
                  (assignmentsOf (store s) requestID) /\
  sameButFaults s s'.
Proof.
  unfold SelectResultsByRequestID. intros H.
  apply bind_Ok in H as (d & s1 & H1 & H). cbn in H1. injection H1 as <- <-.
  apply bind_Ok in H as ([] & s2 & H2 & H). injection H as <- <-.
  apply roundTrip_same in H2. split; [| assumption].
  unfold assignmentsOf, resultsOf.
  induction (assignments (store s)) as [| a l IH]; [reflexivity |].
  cbn [flat_map List.filter]. rewrite IH.
  destruct (String.eqb (Assignment.RequestID a) requestID) eqn:E.
  - apply String.eqb_eq in E. cbn [flat_map]. f_equal.
    unfold joinRow. rewrite E. reflexivity.
  - reflexivity.
Qed.

Lemma length_join {A B C} (f : A -> B -> C) (l : list A) (r : list B) :
  length (flat_map (fun a => map (f a) r) l) = (length l * length r)%nat.
Proof.
  induction l as [| a l IH]; [reflexivity |].
  cbn [flat_map]. rewrite length_app, length_map, IH. reflexivity.
Qed.

Lemma GetResultsByRequestID_length requestID s rows s' :
  GetResultsByRequestID requestID s = (Ok rows, s') ->
  length rows = (length (assignmentsOf (store s) requestID) *
                 length (resultsOf (store s) requestID))%nat.
Proof.
  unfold GetResultsByRequestID. intros H.
  apply wrap_Ok, SelectResultsByRequestID_pool in H as (-> & _).
  apply length_join.
Qed.

(** X1. [GetResultsByRequestID] joins the assignments of the request with
    the check results stored under the request id, and the join condition
    does not mention the agent: every result of the request comes back once
    for every assignment of the request, whichever agent produced it.  The
    number of rows is the product of the two counts (none for an unknown
    request, which is no error), every row carries the request id, and the
    query leaves the tables as they are. *)
Theorem GetResultsByRequestID_rows requestID s rows s' :
  GetResultsByRequestID requestID s = (Ok rows, s') ->
  length rows = (length (assignmentsOf (store s) requestID) *
                 length (resultsOf (store s) requestID))%nat /\
  (forall a c, In a (assignmentsOf (store s) requestID) ->
               In c (resultsOf (store s) requestID) ->
               exists r, In r rows /\
                         CheckResultResponse.AgentID r = Assignment.AgentID a /\
                         CheckResultResponse.Status r = CheckResult.Status c /\
                         CheckResultResponse.Payload r = CheckResult.Payload c) /\
  Forall (fun r => CheckResultResponse.RequestID r = requestID) rows /\
  store s' = store s.
Proof.
  unfold GetResultsByRequestID. intros H.
  apply wrap_Ok, SelectResultsByRequestID_pool in H as (-> & Hs & _).
  split; [apply length_join |]. split; [| split; [| assumption]].
  - intros a c Ha Hc. exists (joinRow a c). split; [| repeat split].
    apply in_flat_map. exists a. split; [assumption |]. apply in_map. assumption.
  - apply List.Forall_forall. intros r Hr.
    apply in_flat_map in Hr as (a & Ha & Hr). apply in_map_iff in Hr as (c & <- & _).
    unfold assignmentsOf in Ha. apply filter_In in Ha as [_ Ha].
    apply String.eqb_eq in Ha. exact Ha.
Qed.

End ResultsFacts.

(** ** The outbox table and its publisher *)
Section OutboxMore.
Import model db repository outbox.

Lemma insertByCreatedAt_sorted m l : oldestFirst l -> oldestFirst (insertByCreatedAt m l).
Proof.
  unfold oldestFirst. induction l as [| x l IH]; intros Hs; cbn.
  - constructor; constructor.
  - destruct (OutboxMessage.CreatedAt m <? OutboxMessage.CreatedAt x) eqn:E.
    + apply Z.ltb_lt in E. constructor; [assumption |].
      inversion Hs as [| ? ? Hl Hx]; subst. constructor; [lia |].
      eapply List.Forall_impl; [| exact Hx]. cbn. intros; lia.
    + apply Z.ltb_ge in E. inversion Hs as [| ? ? Hl Hx]; subst.
      constructor; [auto |].
      apply List.Forall_forall. intros y Hy. apply In_insertByCreatedAt in Hy as [-> | Hy].
      * assumption.
      * rewrite List.Forall_forall in Hx. auto.
Qed.

Lemma orderByCreatedAt_sorted l : oldestFirst (orderByCreatedAt l).
Proof.
  unfold orderByCreatedAt. induction l as [| x l IH]; cbn.
  - constructor.
  - apply insertByCreatedAt_sorted, IH.
Qed.

Lemma sorted_firstn_skipn {A} (R : A -> A -> Prop) n l :
  StronglySorted R l ->
  StronglySorted R (firstn n l) /\
  forall x y, In x (firstn n l) -> In y (skipn n l) -> R x y.
Proof.
  revert l. induction n as [| n IH]; intros l Hs.
  - cbn. split; [constructor | contradiction].
  - destruct l as [| a l]; cbn [firstn skipn]; [split; [constructor | contradiction] |].
    inversion Hs as [| ? ? Hl Ha]; subst. destruct (IH l Hl) as [Hf Hcross].
    rewrite List.Forall_forall in Ha. split.
    + constructor; [assumption |]. apply List.Forall_forall. intros y Hy.
      apply Ha. eapply In_firstn; eassumption.
    + intros x y [<- | Hx] Hy; [| auto].
      apply Ha. rewrite <- (firstn_skipn n l). apply in_or_app. auto.
Qed.

(** X2. [SelectUnsentBatch] returns at most [batchSize] rows, all of them
    rows of the table with [sent = false], oldest first, and the rows it
    leaves out are not older than the rows it returns: the batch is made of
    the oldest unsent rows. *)
Theorem SelectUnsentBatch_oldest_first n s l s' :
  SelectUnsentBatch viaPool n s = (Ok l, s') ->
  length l = Nat.min n (length (unsentRows (store s))) /\
  oldestFirst l /\
  (forall m, In m l -> In m (outbox_messages (store s)) /\ OutboxMessage.Sent m = false) /\
  (forall m r, In m l ->
               In r (outbox_messages (store s)) -> OutboxMessage.Sent r = false ->
               ~ In r l ->
               OutboxMessage.CreatedAt m <= OutboxMessage.CreatedAt r) /\
  store s' = store s.
Proof.
  intros H.
  destruct (SelectUnsentBatch_pool n s) as (Hst & _ & Hl).
  rewrite H in Hst, Hl. cbn in Hst, Hl. specialize (Hl l eq_refl). subst l.
  unfold unsentBatch. fold (unsentRows (store s)).
  destruct (sorted_firstn_skipn _ n _ (orderByCreatedAt_sorted (unsentRows (store s))))
    as [Hsorted Hcross].
  split; [rewrite length_firstn, length_orderByCreatedAt; reflexivity |].
  split; [exact Hsorted |].
  split; [intros m Hm; apply (unsentBatch_unsent (store s) n m Hm) |].
  split; [| assumption].
  intros m r Hm Hr Hu Hout. apply Hcross; [assumption |].
  assert (In r (orderByCreatedAt (unsentRows (store s)))) as Hin.
  { apply In_orderByCreatedAt. unfold unsentRows. apply filter_In. rewrite Hu. auto. }
  rewrite <- (firstn_skipn n (orderByCreatedAt (unsentRows (store s)))) in Hin.
  apply in_app_or in Hin as [Hin | Hin]; [contradiction | assumption].
Qed.

Lemma roundTrip_quiet s : faults s = [] -> roundTrip s = (Ok tt, s).
Proof. unfold roundTrip. intros ->. reflexivity. Qed.

Lemma OutboxInsertMessage_pool_Ok id topic payload s s' :
  OutboxInsertMessage viaPool id topic payload s = (Ok tt, s') ->
  outbox_messages (store s') =
    (if hasOutbox (store s) id then outbox_messages (store s)
     else outbox_messages (store s) ++ [outboxRow id topic payload (now s)]) /\
  now s' = now s.
Proof.
  unfold OutboxInsertMessage. intros H.
  apply bind_Ok in H as (d & s1 & H1 & H). cbn in H1. injection H1 as <- <-.
  apply bind_Ok in H as ([] & s2 & H2 & H). apply roundTrip_same in H2 as (Hs & _ & _ & Hc).
  destruct (hasOutbox (store s) id).
  - injection H as <-. rewrite Hs. auto.
  - cbv [write] in H. injection H as <-. cbn. rewrite Hc. auto.
Qed.

Lemma UpdateAsSent_pool_Ok id s s' :
  UpdateAsSent viaPool id s = (Ok tt, s') ->
  outbox_messages (store s') = markRows id (now s) (outbox_messages (store s)).
Proof.
  unfold UpdateAsSent. intros H.
  apply bind_Ok in H as (d & s1 & H1 & H). cbn in H1. injection H1 as <- <-.
  apply bind_Ok in H as ([] & s2 & H2 & H). apply roundTrip_same in H2 as (Hs & _ & _ & Hc).
  cbv [write] in H. injection H as <-. cbn. rewrite Hc. reflexivity.
Qed.

Lemma hasOutbox_false_In d id row :
  hasOutbox d id = false -> In row (outbox_messages d) -> OutboxMessage.ID row <> id.
Proof.
  unfold hasOutbox. intros Hno Hin Heq.
  assert (existsb (fun m => String.eqb (OutboxMessage.ID m) id) (outbox_messages d) = true) as Hyes.
  { apply existsb_exists. exists row. split; [assumption |]. apply String.eqb_eq, Heq. }
  congruence.
Qed.

Lemma In_markRows id t l m :
  In m (markRows id t l) ->
  exists r, In r l /\
            OutboxMessage.ID m = OutboxMessage.ID r /\
            (OutboxMessage.ID r = id -> OutboxMessage.Sent m = true) /\
            (OutboxMessage.ID r <> id -> m = r).
Proof.
  unfold markRows. intros H. apply in_map_iff in H as (r & <- & Hr).
  exists r. split; [assumption |].
  destruct (String.eqb (OutboxMessage.ID r) id) eqn:E.
  - apply String.eqb_eq in E. split; [reflexivity |]. split; [reflexivity | contradiction].
  - apply String.eqb_neq in E. split; [reflexivity |]. split; [contradiction | reflexivity].
Qed.

(** X3. A message inserted under a new id is a row with [sent = false],
    part of every batch that is large enough for the unsent rows; a second
    [InsertMessage] with the same id, whatever its topic and payload,
    changes nothing ([ON CONFLICT DO NOTHING]); once [UpdateAsSent] has run
    for the id no batch holds a row with that id, and the rows that were
    there before are still there, unchanged. *)
Theorem outbox_insert_select_mark id topic payload s s1 s2 :
  hasOutbox (store s) id = false ->
  OutboxInsertMessage viaPool id topic payload s = (Ok tt, s1) ->
  UpdateAsSent viaPool id s1 = (Ok tt, s2) ->
  let row := outboxRow id topic payload (now s) in
  outbox_messages (store s1) = outbox_messages (store s) ++ [row] /\
  (forall n, (length (unsentRows (store s1)) <= n)%nat -> In row (unsentBatch (store s1) n)) /\
  (forall topic' payload',
     store (snd (OutboxInsertMessage viaPool id topic' payload' s1)) = store s1) /\
  (forall n m, In m (unsentBatch (store s2) n) -> OutboxMessage.ID m <> id) /\
  (forall m, In m (outbox_messages (store s)) -> In m (outbox_messages (store s2))).
Proof.
  intros Hnew Hins Hupd row.
  apply OutboxInsertMessage_pool_Ok in Hins as [Hrows Hnow]. rewrite Hnew in Hrows.
  apply UpdateAsSent_pool_Ok in Hupd. fold row in Hrows.
  split; [assumption |].
  split.
  { intros n Hn. apply unsent_in_batch; [| reflexivity | assumption].
    rewrite Hrows. apply in_or_app. right. left. reflexivity. }
  split.
  { intros topic' payload'.
    assert (hasOutbox (store s1) id = true) as Hhas.
    { unfold hasOutbox. rewrite Hrows, existsb_app. cbn. rewrite String.eqb_refl.
      rewrite orb_true_r. reflexivity. }
    unfold OutboxInsertMessage, bind, view.
    destruct (roundTrip s1) as [[[] | e] s1'] eqn:Hrt;
      apply roundTrip_same in Hrt as (Hs & _); cbn; [| assumption].
    rewrite Hhas. cbn. assumption. }
  split.
  { intros n m Hm Hid. apply unsentBatch_unsent in Hm as [Hin Hunsent].
    rewrite Hupd in Hin. apply In_markRows in Hin as (r & _ & Hidr & Hsent & _).
    rewrite Hsent in Hunsent by congruence. discriminate. }
  intros m Hm. rewrite Hupd, Hrows. unfold markRows. rewrite map_app. apply in_or_app. left.
  apply in_map_iff. exists m. split; [| assumption].
  pose proof (hasOutbox_false_In _ _ _ Hnew Hm) as Hne.
  apply String.eqb_neq in Hne. rewrite Hne. reflexivity.
Qed.

(** What a row keeps through every statement: its id, topic and payload. *)
Lemma publishes_markRows id t l rec :
  (exists row, In row l /\ publishes rec row) ->
  exists row, In row (markRows id t l) /\ publishes rec row.
Proof.
  intros (row & Hin & Hp). unfold markRows.
  exists (if String.eqb (OutboxMessage.ID row) id then OutboxMessage.markSent t row else row).
  split; [apply in_map_iff; exists row; auto |].
  destruct (String.eqb (OutboxMessage.ID row) id); assumption.
Qed.

Lemma publishes_step cfg e q rec :
  (exists row, In row (outbox_messages (store (world q))) /\ publishes rec row) ->
  exists row, In row (outbox_messages (store (world (step cfg e q)))) /\ publishes rec row.
Proof.
  intros H. destruct e as [| | push | i | dt | id topic payload]; cbn [step].
  - destruct (sending q); [| assumption].
    destruct (SelectUnsentBatch_pool (BatchSize cfg) (world q)) as (Hs & _).
    destruct (SelectUnsentBatch viaPool (BatchSize cfg) (world q)) as [[l | err] w'];
      cbn in *; rewrite Hs; assumption.
  - destruct (sending q); [assumption |].
    destruct (length (messagePipe q) <? BatchSize cfg * BathSizeMultiply)%nat; assumption.
  - destruct (messagePipe q); [assumption |].
    destruct (length (marking q) <? WorkerCount cfg)%nat; [| assumption].
    destruct push; assumption.
  - destruct (nth_error (marking q) i) as [msg |]; [| assumption]. cbn [world].
    destruct (UpdateAsSent_pool (OutboxMessage.ID msg) (world q)) as [[_ Hs] | [_ Hs]];
      rewrite Hs; [assumption |].
    cbn [outbox_messages setOutbox]. apply publishes_markRows. assumption.
  - assumption.
  - unfold setWorld. cbn [world].
    destruct (OutboxInsertMessage_pool id topic payload (world q)) as [Hs | Hs];
      rewrite Hs; [assumption |].
    cbn [outbox_messages setOutbox]. destruct H as (row & Hin & Hp). exists row.
    split; [| assumption]. apply in_or_app. auto.
Qed.

Lemma fromTable_step cfg e q m : fromTable q m -> fromTable (step cfg e q) m.
Proof. apply publishes_step. Qed.

Lemma queues_step cfg e q m :
  In m (sending (step cfg e q) ++ messagePipe (step cfg e q) ++ marking (step cfg e q)) ->
  In m (sending q ++ messagePipe q ++ marking q) \/
  In m (outbox_messages (store (world q))).
Proof.
  destruct e as [| | push | i | dt | id topic payload]; cbn [step].
  - destruct (sending q) as [| x rest] eqn:Es; [| rewrite Es; auto].
    destruct (SelectUnsentBatch_pool (BatchSize cfg) (world q)) as (_ & _ & Hl).
    destruct (SelectUnsentBatch viaPool (BatchSize cfg) (world q)) as [[l | err] w'];
      cbn [sending messagePipe marking setWorld]; [| rewrite Es; auto].
    intros Hm. apply in_app_or in Hm as [Hm | Hm]; [right | left; exact Hm].
    rewrite (Hl l eq_refl) in Hm. apply unsentBatch_unsent in Hm as [Hin _]. exact Hin.
  - destruct (sending q) as [| x rest] eqn:Es; [rewrite Es; auto |].
    destruct (length (messagePipe q) <? BatchSize cfg * BathSizeMultiply)%nat;
      [| rewrite Es; auto].
    cbn [sending messagePipe marking]. rewrite !in_app_iff. cbn [In]. tauto.
  - destruct (messagePipe q) as [| x rest] eqn:Ep; [rewrite Ep; auto |].
    destruct (length (marking q) <? WorkerCount cfg)%nat; [| rewrite Ep; auto].
    destruct push; cbn [sending messagePipe marking]; rewrite !in_app_iff; cbn [In]; tauto.
  - destruct (nth_error (marking q) i) as [msg |]; [| auto].
    cbn [sending messagePipe marking]. rewrite !in_app_iff.
    intros [Hm | [Hm | Hm]]; auto. apply In_removeAt in Hm. auto.
  - auto.
  - auto.
Qed.

Lemma bus_step cfg e q rec :
  In rec (bus (step cfg e q)) ->
  In rec (bus q) \/ exists m, In m (messagePipe q) /\ rec = busRecord m.
Proof.
  destruct e as [| | push | i | dt | id topic payload]; cbn [step].
  - destruct (sending q); [| auto].
    destruct (SelectUnsentBatch viaPool (BatchSize cfg) (world q)) as [[l | err] w']; auto.
  - destruct (sending q); [auto |].
    destruct (length (messagePipe q) <? BatchSize cfg * BathSizeMultiply)%nat; auto.
  - destruct (messagePipe q) as [| x rest]; [auto |].
    destruct (length (marking q) <? WorkerCount cfg)%nat; [| auto].
    destruct push; cbn [bus]; [| auto].
    intros Hrec. apply in_app_or in Hrec as [Hrec | [<- | []]]; [auto |].
    right. exists x. split; [left |]; reflexivity.
  - destruct (nth_error (marking q) i); auto.
  - auto.
  - auto.
Qed.

Lemma queued_from_table cfg evs : forall q,
  (forall m, In m (sending q ++ messagePipe q ++ marking q) -> fromTable q m) ->
  (forall rec, In rec (bus q) ->
     exists row, In row (outbox_messages (store (world q))) /\ publishes rec row) ->
  forall rec, In rec (bus (run cfg evs q)) ->
    exists row, In row (outbox_messages (store (world (run cfg evs q)))) /\ publishes rec row.
Proof.
  induction evs as [| e evs IH]; intros q Hq Hb; [exact Hb |].
  cbn [run fold_left]. apply IH.
  - intros m Hm. apply fromTable_step.
    apply queues_step in Hm as [Hm | Hm]; [auto |].
    exists m. split; [assumption | repeat split].
  - intros rec Hrec. apply publishes_step.
    apply bus_step in Hrec as [Hrec | (m & Hm & ->)]; [auto |].
    apply Hq. rewrite !in_app_iff. auto.
Qed.

(** X4. Whatever the interleaving of polls, workers, dispatchers and the
    clock, and whatever the failures of the database and of the broker,
    every record the publisher has put on the bus is the publication of a
    row of the outbox table: its key is the row's id, its topic and value
    are the row's topic and payload. *)
Theorem publisher_publishes_table_rows cfg w evs :
  let q := run cfg evs (init w) in
  forall rec, In rec (bus q) ->
    exists row, In row (outbox_messages (store (world q))) /\ publishes rec row.
Proof.
  apply queued_from_table; cbn; contradiction.
Qed.

Lemma run_app cfg a b q : run cfg (a ++ b) q = run cfg b (run cfg a q).
Proof. unfold run. apply fold_left_app. Qed.

Lemma run_cons cfg e evs q : run cfg (e :: evs) q = run cfg evs (step cfg e q).
Proof. reflexivity. Qed.

Lemma SelectUnsentBatch_quiet n w :
  faults w = [] -> SelectUnsentBatch viaPool n w = (Ok (unsentBatch (store w) n), w).
Proof.
  intros Hf. unfold SelectUnsentBatch, bind, view, ret. rewrite (roundTrip_quiet w Hf).
  reflexivity.
Qed.

Lemma UpdateAsSent_quiet id w :
  faults w = [] ->
  UpdateAsSent viaPool id w =
    (Ok tt, setStore w (setOutbox (store w)
                          (markRows id (now w) (outbox_messages (store w))))).
Proof.
  intros Hf. unfold UpdateAsSent, bind, view, write. rewrite (roundTrip_quiet w Hf).
  reflexivity.
Qed.

Lemma run_Feed cfg : forall l q,
  sending q = l ->
  (length (messagePipe q) + length l <= BatchSize cfg * BathSizeMultiply)%nat ->
  run cfg (repeat Feed (length l)) q =
    {| world := world q; bus := bus q; sending := [];
       messagePipe := messagePipe q ++ l; marking := marking q |}.
Proof.
  induction l as [| x l IH]; intros q Hs Hcap.
  - cbn. rewrite app_nil_r. destruct q; cbn in *. subst. reflexivity.
  - cbn [length repeat]. rewrite run_cons.
    assert (step cfg Feed q =
            {| world := world q; bus := bus q; sending := l;
               messagePipe := messagePipe q ++ [x]; marking := marking q |}) as Hstep.
    { cbn [step]. rewrite Hs.
      replace (length (messagePipe q) <? BatchSize cfg * BathSizeMultiply)%nat with true;
        [reflexivity |].
      symmetry. apply Nat.ltb_lt. cbn [length] in Hcap. lia. }
    rewrite Hstep, IH; cbn [world bus sending messagePipe marking].
    + rewrite <- app_assoc. reflexivity.
    + reflexivity.
    + rewrite length_app. cbn [length] in *. lia.
Qed.

Lemma run_drain cfg : forall l q,
  messagePipe q = l -> marking q = [] -> faults (world q) = [] ->
  (0 < WorkerCount cfg)%nat ->
  let q' := run cfg (concat (repeat [Send (kafka.PushOk 0 0); Mark 0] (length l))) q in
  bus q' = bus q ++ map busRecord l /\
  sending q' = sending q /\ messagePipe q' = [] /\ marking q' = [] /\
  outbox_messages (store (world q')) =
    marks (now (world q)) l (outbox_messages (store (world q))).
Proof.
  induction l as [| x l IH]; intros q Hp Hm Hf Hw.
  - cbn. rewrite app_nil_r. auto.
  - cbn zeta. cbn [length repeat concat]. rewrite run_app.
    set (q1 := run cfg [Send (kafka.PushOk 0 0); Mark 0] q).
    assert (q1 = {| world := setStore (world q)
                               (setOutbox (store (world q))
                                  (markRows (OutboxMessage.ID x) (now (world q))
                                     (outbox_messages (store (world q)))));
                    bus := bus q ++ [busRecord x]; sending := sending q;
                    messagePipe := l; marking := [] |}) as Hq1.
    { unfold q1. cbn [run fold_left].
      rewrite (step_Send cfg _ x l q Hp) by (rewrite Hm; apply Nat.ltb_lt; exact Hw).
      cbn [step marking]. rewrite Hm. cbn [app nth_error removeAt world].
      rewrite (UpdateAsSent_quiet _ _ Hf). reflexivity. }
    destruct (IH q1) as (Hb & Hs & Hpipe & Hmark & Hrows);
      try (rewrite Hq1; reflexivity); [rewrite Hq1; exact Hf | exact Hw |].
    cbn zeta in Hb, Hs, Hpipe, Hmark, Hrows.
    rewrite Hb, Hs, Hpipe, Hmark, Hrows, Hq1. cbn [bus sending world store now setStore
      outbox_messages setOutbox map marks fold_left].
    rewrite <- app_assoc. repeat split.
Qed.

Lemma sentRow_markRows id id' t rows :
  sentRow id rows = true -> sentRow id (markRows id' t rows) = true.
Proof.
  unfold sentRow, markRows. intros H. apply existsb_exists in H as (r & Hr & Hc).
  apply andb_prop in Hc as [Hid Hs].
  apply existsb_exists.
  exists (if String.eqb (OutboxMessage.ID r) id' then OutboxMessage.markSent t r else r).
  split; [apply in_map_iff; exists r; auto |].
  destruct (String.eqb (OutboxMessage.ID r) id'); cbn; rewrite Hid; [reflexivity | assumption].
Qed.

Lemma sentRow_marks id t l : forall rows,
  sentRow id rows = true -> sentRow id (marks t l rows) = true.
Proof.
  induction l as [| x l IH]; intros rows H; [exact H |].
  cbn [marks fold_left]. apply IH, sentRow_markRows, H.
Qed.

Lemma marks_sent t l : forall rows m r,
  In m l -> In r rows -> OutboxMessage.ID r = OutboxMessage.ID m ->
  sentRow (OutboxMessage.ID m) (marks t l rows) = true.
Proof.
  induction l as [| x l IH]; intros rows m r Hm Hr Hid; [contradiction |].
  cbn [marks fold_left]. fold (marks t l). destruct Hm as [-> | Hm].
  - apply sentRow_marks. unfold sentRow, markRows. apply existsb_exists.
    exists (OutboxMessage.markSent t r). split.
    + apply in_map_iff. exists r. split; [| assumption].
      rewrite Hid, String.eqb_refl. reflexivity.
    + cbn. rewrite Hid, String.eqb_refl. reflexivity.
  - apply (IH _ m (if String.eqb (OutboxMessage.ID r) (OutboxMessage.ID x)
                   then OutboxMessage.markSent t r else r)); [assumption | |].
    + unfold markRows. apply in_map_iff. exists r. auto.
    + destruct (String.eqb (OutboxMessage.ID r) (OutboxMessage.ID x)); assumption.
Qed.

Lemma marks_others t l : forall rows r,
  In r rows -> (forall m, In m l -> OutboxMessage.ID m <> OutboxMessage.ID r) ->
  In r (marks t l rows).
Proof.
  induction l as [| x l IH]; intros rows r Hr Hne; [exact Hr |].
  cbn [marks fold_left]. apply IH.
  - unfold markRows. apply in_map_iff. exists r. split; [| assumption].
    assert (OutboxMessage.ID r <> OutboxMessage.ID x) as Hx
      by (intros E; apply (Hne x (or_introl eq_refl)); congruence).
    apply String.eqb_neq in Hx. rewrite Hx. reflexivity.
  - intros m Hm. apply Hne. right. assumption.
Qed.

(** X5. A round without failure and without overlap delivers its batch:
    after one poll, the feeding of the batch into the channel and a worker
    publishing and marking message after message, the bus holds exactly one
    record per row of the batch, in the order of the batch, every row of
    the batch has [sent = true], the rows outside the batch are untouched
    and nothing is left in the channel. *)
Theorem publisher_delivers_batch cfg w :
  faults w = [] -> (0 < WorkerCount cfg)%nat ->
  let batch := unsentBatch (store w) (BatchSize cfg) in
  let q := run cfg (quietRound (length batch)) (init w) in
  bus q = map busRecord batch /\
  (forall m, In m batch -> isSent (store (world q)) (OutboxMessage.ID m) = true) /\
  (forall r, In r (outbox_messages (store w)) ->
             (forall m, In m batch -> OutboxMessage.ID m <> OutboxMessage.ID r) ->
             In r (outbox_messages (store (world q)))) /\
  sending q = [] /\ messagePipe q = [] /\ marking q = [].
Proof.
  intros Hf Hw batch. unfold quietRound.
  change (Tick :: repeat Feed (length batch) ++
          concat (repeat [Send (kafka.PushOk 0 0); Mark 0] (length batch)))
    with ([Tick] ++ repeat Feed (length batch) ++
          concat (repeat [Send (kafka.PushOk 0 0); Mark 0] (length batch))).
  rewrite !run_app.
  assert (run cfg [Tick] (init w) =
          {| world := w; bus := []; sending := batch; messagePipe := []; marking := [] |}) as H1.
  { cbn [run fold_left step init sending]. rewrite (SelectUnsentBatch_quiet _ _ Hf). reflexivity. }
  rewrite H1.
  rewrite (run_Feed cfg batch);
    [| reflexivity
     | cbn [messagePipe length]; unfold batch, unsentBatch;
       rewrite length_firstn; unfold BathSizeMultiply; lia].
  cbn [world bus sending messagePipe marking app].
  cbn zeta.
  match goal with |- context [run cfg (concat _) ?q0] =>
    destruct (run_drain cfg batch q0 eq_refl eq_refl Hf Hw) as (Hb & Hs & Hp & Hm & Hrows)
  end.
  cbn zeta in Hb, Hs, Hp, Hm, Hrows. cbn [world bus sending] in Hb, Hs, Hrows.
  rewrite Hb, Hs, Hp, Hm. repeat split.
  - intros m Hin. unfold isSent. rewrite Hrows. fold (sentRow (OutboxMessage.ID m)).
    destruct (unsentBatch_unsent (store w) (BatchSize cfg) m Hin) as [Hrow _].
    apply (marks_sent _ _ _ m m); auto.
  - intros r Hr Hne. rewrite Hrows. apply marks_others; assumption.
Qed.

End OutboxMore.

(** ** The inbox subscriber on a message delivered twice *)
Section InboxMore.
Import model db repository inbox.

Variable cfg : Config.
Variable gen : nat -> UUID.
Variable unmarshal : string -> result CheckResultFromAgent.t.

Lemma isCheckStatus_checkResultOf id c t v :
  isCheckStatus (CheckResult.Status (checkResultOf id c t v)) = true.
Proof. unfold checkResultOf. destruct (CheckResultFromAgent.OK c); reflexivity. Qed.

Lemma checkResultOf_ID id c t v : CheckResult.ID (checkResultOf id c t v) = id.
Proof. unfold checkResultOf. destruct (CheckResultFromAgent.OK c); reflexivity. Qed.

Lemma bind_ret {A B} (m : M A) (k : A -> M B) s a s1 :
  m s = (Ok a, s1) -> bind m k s = k a s1.
Proof. unfold bind. intros ->. reflexivity. Qed.

Lemma wrap_ret {A} ctx (m : M A) s a s1 :
  m s = (Ok a, s1) -> wrap ctx m s = (Ok a, s1).
Proof. unfold wrap. intros ->. reflexivity. Qed.

Lemma Begin_quiet s : faults s = [] -> Begin s = (Ok tt, setTx s (Some (store s))).
Proof. intros Hf. unfold Begin. rewrite (bind_ret _ _ _ _ _ (roundTrip_quiet s Hf)). reflexivity. Qed.

Lemma Commit_quiet s d :
  faults s = [] -> tx s = Some d -> Commit s = (Ok tt, setTx (setStore s d) None).
Proof. intros Hf Ht. unfold Commit. rewrite Ht, (roundTrip_quiet s Hf). reflexivity. Qed.

Lemma InboxInsertMessage_quiet id topic payload s d :
  faults s = [] -> tx s = Some d ->
  InboxInsertMessage viaTx id topic payload s =
    (Ok tt, setTx s (Some (if hasInbox d id then d
                           else setInbox d (inbox_messages d ++
                                              [inboxRow id topic payload (now s)])))).
Proof.
  intros Hf Ht. unfold InboxInsertMessage.
  erewrite bind_ret by (unfold view; rewrite Ht; reflexivity).
  erewrite bind_ret by (apply roundTrip_quiet, Hf).
  destruct (hasInbox d id); [| reflexivity].
  destruct s; cbn in *. subst. reflexivity.
Qed.

Lemma InsertCheckResult_quiet c s d :
  faults s = [] -> tx s = Some d ->
  hasCheckResult d (CheckResult.ID c) = false ->
  isCheckStatus (CheckResult.Status c) = true ->
  InsertCheckResult viaTx c s =
    (Ok tt, setTx s (Some (setCheckResults d (check_results d ++ [c])))).
Proof.
  intros Hf Ht Hnew Hst. unfold InsertCheckResult.
  erewrite bind_ret by (unfold view; rewrite Ht; reflexivity).
  erewrite bind_ret by (apply roundTrip_quiet, Hf).
  rewrite Hnew, Hst. reflexivity.
Qed.

Lemma process_quiet msg c s :
  uuid.FromBytes (kafka.Key msg) = Ok (kafka.Key msg) ->
  unmarshal (kafka.Value msg) = Ok c ->
  faults s = [] ->
  hasCheckResult (store s) (gen (nextID s)) = false ->
  process cfg gen unmarshal msg s =
    (Ok tt,
     {| store := ingested cfg (store s) (kafka.Key msg) (kafka.Value msg) (now s)
                   (checkResultOf (gen (nextID s)) c (now s) (kafka.Value msg));
        tx := None; faults := []; nextID := S (nextID s); now := now s |}).
Proof.
  intros Hkey Hval Hf Hnew. unfold process.
  erewrite bind_ret by (apply wrap_ret; unfold service.lift; rewrite Hkey; reflexivity).
  erewrite bind_ret by (apply wrap_ret; unfold service.lift; rewrite Hval; reflexivity).
  erewrite bind_ret by reflexivity.
  cbn [now setNextID].
  set (s1 := setNextID s (S (nextID s))).
  erewrite bind_ret by (apply wrap_ret, Begin_quiet; exact Hf).
  unfold deferRollbackOnErr.
  set (s2 := setTx s1 (Some (store s1))).
  erewrite bind_ret by (apply wrap_ret; apply (InboxInsertMessage_quiet _ _ _ s2 (store s)); [exact Hf | reflexivity]).
  erewrite bind_ret.
  2:{ apply wrap_ret. eapply InsertCheckResult_quiet; [exact Hf | reflexivity | | apply isCheckStatus_checkResultOf].
      rewrite checkResultOf_ID. unfold hasCheckResult in *.
      destruct (hasInbox (store s) (kafka.Key msg)); cbn; exact Hnew. }
  erewrite wrap_ret by (eapply Commit_quiet; [exact Hf | reflexivity]).
  subst s2 s1. unfold ingested, setTx, setStore, setNextID.
  cbn [store tx faults nextID now]. rewrite Hf.
  destruct (hasInbox (store s) (kafka.Key msg)); reflexivity.
Qed.

(** X6. The inbox row does not make the ingest idempotent.  When a result
    message with a UUID key is delivered twice and the database answers,
    both deliveries are acknowledged and the check result is stored twice,
    under two identifiers, while the inbox table gets one row for the key
    ([ON CONFLICT DO NOTHING] skips the second). *)
Theorem worker_stores_redelivery_twice msg c q :
  uuid.FromBytes (kafka.Key msg) = Ok (kafka.Key msg) ->
  unmarshal (kafka.Value msg) = Ok c ->
  faults (world q) = [] ->
  hasInbox (store (world q)) (kafka.Key msg) = false ->
  hasCheckResult (store (world q)) (gen (nextID (world q))) = false ->
  hasCheckResult (store (world q)) (gen (S (nextID (world q)))) = false ->
  gen (nextID (world q)) <> gen (S (nextID (world q))) ->
  let n := nextID (world q) in
  let t := now (world q) in
  let q2 := worker cfg gen unmarshal msg (worker cfg gen unmarshal msg q) in
  marked q2 = marked q ++ [msg; msg] /\
  check_results (store (world q2)) =
    check_results (store (world q)) ++
      [checkResultOf (gen n) c t (kafka.Value msg);
       checkResultOf (gen (S n)) c t (kafka.Value msg)] /\
  inbox_messages (store (world q2)) =
    inbox_messages (store (world q)) ++
      [inboxRow (kafka.Key msg) (Topic cfg) (kafka.Value msg) t].
Proof.
  intros Hkey Hval Hf Hfresh Hnew1 Hnew2 Hne n t.
  assert (forall q0 w1, process cfg gen unmarshal msg (world q0) = (Ok tt, w1) ->
            worker cfg gen unmarshal msg q0 =
              {| world := w1; marked := marked q0 ++ [msg];
                 log := log q0 ++ [("Message received: " ++ kafka.Key msg)%string] |}) as Hworker.
  { intros q0 w1 Hp. unfold worker. rewrite Hkey, Hp. reflexivity. }
  pose proof (process_quiet msg c (world q) Hkey Hval Hf Hnew1) as H1.
  rewrite (Hworker q _ H1).
  match goal with |- context [worker cfg gen unmarshal msg ?x] => set (q1 := x) end.
  assert (hasCheckResult (store (world q1)) (gen (nextID (world q1))) = false) as Hnew2'.
  { unfold q1. cbn [world store nextID]. unfold ingested. rewrite Hfresh.
    unfold hasCheckResult in *. cbn [check_results setCheckResults setInbox].
    rewrite existsb_app, Hnew2. cbn [existsb]. rewrite checkResultOf_ID.
    apply String.eqb_neq in Hne. rewrite Hne. reflexivity. }
  pose proof (process_quiet msg c (world q1) Hkey Hval eq_refl Hnew2') as H2.
  intros q2. unfold q2. rewrite (Hworker q1 _ H2).
  unfold q1. cbn [world marked store nextID now]. unfold ingested. rewrite Hfresh.
  match goal with |- context [hasInbox ?d (kafka.Key msg)] =>
    assert (hasInbox d (kafka.Key msg) = true) as Hthere
  end.
  { unfold hasInbox. cbn [inbox_messages setCheckResults setInbox].
    rewrite existsb_app. cbn. rewrite String.eqb_refl, orb_true_r. reflexivity. }
  rewrite Hthere. cbn [check_results inbox_messages setCheckResults setInbox].
  rewrite <- !app_assoc. repeat split.
Qed.

End InboxMore.

(** ** The result stream over a whole connection *)
Section StreamMore.
Import model handler.

Variable hashOf : list CheckResultResponse.t -> string.

Lemma onTick_live results c :
  returned c = false -> allTerminal results = false ->
  onTick hashOf (Ok results) true c =
    if String.eqb (lastHash c) "" then
      {| frames := frames c ++ [frame "snapshot" results];
         lastHash := hashOf results; returned := false |}
    else if negb (String.eqb (hashOf results) (lastHash c)) then
      {| frames := frames c ++ [frame "update" results];
         lastHash := hashOf results; returned := false |}
    else c.
Proof.
  intros Hr Ht. unfold onTick. rewrite Hr, Ht.
  destruct (String.eqb (lastHash c) ""); [reflexivity |].
  destruct (negb (String.eqb (hashOf results) (lastHash c))); reflexivity.
Qed.

(** X7. The stream does not repeat itself: once a tick has brought the
    socket up to date with a list of results that is not terminal, a
    further tick that finds the same list writes no frame and leaves the
    connection as it is, whether the socket is writable or not. *)
Theorem stream_sends_unchanged_results_once results writable c :
  returned c = false ->
  hashOf results <> "" ->
  allTerminal results = false ->
  let c1 := onTick hashOf (Ok results) true c in
  returned c1 = false /\
  lastHash c1 = hashOf results /\
  (length (frames c1) <= S (length (frames c)))%nat /\
  onTick hashOf (Ok results) writable c1 = c1.
Proof.
  intros Hr Hh Ht. cbn zeta.
  assert (forall c0, returned c0 = false -> lastHash c0 = hashOf results ->
                     onTick hashOf (Ok results) writable c0 = c0) as Hsame.
  { intros c0 Hr0 Hl0. unfold onTick. rewrite Hr0, Hl0, Ht.
    apply String.eqb_neq in Hh. rewrite Hh, String.eqb_refl. reflexivity. }
  rewrite (onTick_live results c Hr Ht).
  destruct (String.eqb (lastHash c) "") eqn:E1.
  - cbn [returned lastHash frames]. rewrite length_app. cbn [length].
    repeat split; [lia |]. apply Hsame; reflexivity.
  - destruct (String.eqb (hashOf results) (lastHash c)) eqn:E2; cbn [negb].
    + apply String.eqb_eq in E2. repeat split; auto.
    + cbn [returned lastHash frames]. rewrite length_app. cbn [length].
      repeat split; [lia |]. apply Hsame; reflexivity.
Qed.

Lemma protocol_app p a b :
  protocol p (a ++ b) =
  match protocol p a with Some p' => protocol p' b | None => None end.
Proof.
  revert p. induction a as [| x a IH]; intros p; cbn; [reflexivity |].
  destruct (accepts p x); [apply IH | reflexivity].
Qed.

Lemma protocol_Closed l p : protocol Closed l = Some p -> l = [].
Proof. destruct l; [reflexivity | discriminate]. Qed.

Lemma accepts_done p p' : accepts p "done" = Some p' -> p' = Closed.
Proof. destruct p; cbn; congruence. Qed.

Lemma accepts_snapshot p p' : accepts p "snapshot" = Some p' -> p = Fresh /\ p' = Streaming.
Proof. destruct p; cbn; intros [= <-] || intros [=]; auto. Qed.

Lemma accepts_stays p typ p' : p <> Fresh -> accepts p typ = Some p' -> p' <> Fresh.
Proof.
  intros Hp H. destruct p; [congruence | | discriminate].
  cbn in H. destruct (String.eqb typ "error"); [congruence |].
  destruct (String.eqb typ "update"); [congruence |].
  destruct (String.eqb typ "done"); congruence.
Qed.

Lemma protocol_stays l : forall p p',
  p <> Fresh -> protocol p l = Some p' ->
  p' <> Fresh /\ Forall (fun typ => typ <> "snapshot") l.
Proof.
  induction l as [| x l IH]; intros p p' Hp H; cbn in H.
  - split; [congruence | constructor].
  - destruct (accepts p x) as [p1 |] eqn:E; [| discriminate].
    destruct (IH p1 p' (accepts_stays _ _ _ Hp E) H) as [Hp' Hl].
    split; [assumption |]. constructor; [| assumption].
    intros ->. apply accepts_snapshot in E as [-> _]. congruence.
Qed.

Lemma protocol_Fresh_errors l :
  protocol Fresh l = Some Fresh -> Forall (fun typ => typ = "error") l.
Proof.
  induction l as [| x l IH]; intros H; [constructor |].
  cbn in H. destruct (String.eqb x "error") eqn:E.
  - apply String.eqb_eq in E. constructor; auto.
  - exfalso.
    assert (exists p, p <> Fresh /\ protocol p l = Some Fresh) as (p & Hp & Hl).
    { destruct (String.eqb x "snapshot"); [exists Streaming; split; [discriminate | assumption] |].
      destruct (String.eqb x "done"); [| discriminate].
      exists Closed. split; [discriminate | assumption]. }
    destruct (protocol_stays l p Fresh Hp Hl) as [Hne _]. congruence.
Qed.

Lemma protocol_Fresh_Streaming l :
  protocol Fresh l = Some Streaming -> In "snapshot" l.
Proof.
  induction l as [| x l IH]; intros H; cbn in H; [discriminate |].
  destruct (String.eqb x "error") eqn:E1; [right; auto |].
  destruct (String.eqb x "snapshot") eqn:E2; [left; apply String.eqb_eq, E2 |].
  destruct (String.eqb x "done"); [| discriminate].
  apply protocol_Closed in H as Hl. subst. discriminate.
Qed.

(** What acceptance by [protocol] says about a frame and its neighbours. *)
Lemma protocol_shape types p :
  protocol Fresh types = Some p ->
  forall pre typ post, types = pre ++ typ :: post ->
    (typ = "done" -> post = []) /\
    (typ = "snapshot" ->
     Forall (fun t => t = "error") pre /\ Forall (fun t => t <> "snapshot") post) /\
    (typ = "update" -> In "snapshot" pre).
Proof.
  intros H pre typ post ->. rewrite protocol_app in H.
  destruct (protocol Fresh pre) as [p1 |] eqn:Hpre; [| discriminate].
  cbn in H. destruct (accepts p1 typ) as [p2 |] eqn:Ha; [| discriminate].
  split; [| split].
  - intros ->. apply accepts_done in Ha as ->. eapply protocol_Closed, H.
  - intros ->. apply accepts_snapshot in Ha as [-> ->].
    split; [apply protocol_Fresh_errors, Hpre |].
    eapply protocol_stays; [| exact H]. discriminate.
  - intros ->. destruct p1; cbn in Ha; try discriminate.
    apply protocol_Fresh_Streaming, Hpre.
Qed.

Lemma protocol_snoc l p typ p' :
  protocol Fresh l = Some p -> accepts p typ = Some p' ->
  protocol Fresh (l ++ [typ]) = Some p'.
Proof. intros H Ha. rewrite protocol_app, H. cbn. rewrite Ha. reflexivity. Qed.

Lemma following_onTurn t c :
  (forall r, hashOf r <> "") -> following c -> following (onTurn hashOf t c).
Proof.
  intros Hh Hc. unfold following in Hc.
  destruct t as [query writable |]; cbn [onTurn].
  - unfold onTick. destruct (returned c) eqn:Hr; [unfold following; rewrite Hr; exact Hc |].
    destruct query as [results | e].
    + pose proof (Hh results) as Hne.
      destruct Hc as [[Hl Hp] | [Hl Hp]].
      * rewrite Hl. cbn [String.eqb]. destruct writable.
        -- destruct (allTerminal results); unfold following;
             cbn [returned lastHash frames]; rewrite ?map_app; cbn [map frame wsMessage.Type_].
           ++ exists Closed. rewrite protocol_app, Hp. reflexivity.
           ++ right. split; [assumption |]. eapply protocol_snoc; [eassumption | reflexivity].
        -- unfold following; cbn [returned frames]. eauto.
      * apply String.eqb_neq in Hl as Hl'. rewrite Hl'.
        destruct (negb (String.eqb (hashOf results) (lastHash c))).
        -- destruct writable.
           ++ destruct (allTerminal results); unfold following;
                cbn [returned lastHash frames]; rewrite ?map_app; cbn [map frame wsMessage.Type_].
              ** exists Closed. rewrite protocol_app, Hp. reflexivity.
              ** right. split; [assumption |]. eapply protocol_snoc; [eassumption | reflexivity].
           ++ unfold following; cbn [returned frames]. eauto.
        -- destruct (allTerminal results); unfold following.
           ++ cbn [returned lastHash frames]. rewrite map_app. cbn [map frame wsMessage.Type_].
              exists Closed. eapply protocol_snoc; [eassumption | reflexivity].
           ++ rewrite Hr. auto.
    + destruct writable; unfold following; cbn [returned lastHash frames].
      * rewrite map_app. cbn [map wsMessage.Type_].
        destruct Hc as [[Hl Hp] | [Hl Hp]]; [left | right]; (split; [assumption |]);
          (eapply protocol_snoc; [eassumption | reflexivity]).
      * destruct Hc as [[Hl Hp] | [Hl Hp]]; eauto.
  - unfold onCancel. destruct (returned c) eqn:Hr; [unfold following; rewrite Hr; exact Hc |].
    unfold following. cbn [returned frames]. rewrite map_app. cbn [map wsMessage.Type_].
    exists Closed. destruct Hc as [[Hl Hp] | [Hl Hp]];
      (eapply protocol_snoc; [eassumption | reflexivity]).
Qed.

Lemma following_run turns : forall c,
  (forall r, hashOf r <> "") -> following c ->
  following (fold_left (fun c t => onTurn hashOf t c) turns c).
Proof.
  induction turns as [| t turns IH]; intros c Hh Hc; [exact Hc |].
  cbn [fold_left]. apply IH; [assumption |]. apply following_onTurn; assumption.
Qed.

(** X8. Over a whole connection, whatever the loop meets (query results
    and errors, a socket that stops being writable, a cancelled request),
    the frames written follow the protocol: a done frame is the last frame,
    after it the handler has returned; there is at most one snapshot, only
    error frames come before it, and an update comes after the snapshot.
    The hash of a list is taken to be non-empty, as a hex digest is. *)
Theorem stream_frames_follow_protocol requestID turns :
  (forall r, hashOf r <> "") ->
  let c := StreamResults hashOf requestID turns in
  let types := map wsMessage.Type_ (frames c) in
  (exists p, protocol Fresh types = Some p) /\
  (In "done" types -> returned c = true) /\
  forall pre typ post, types = pre ++ typ :: post ->
    (typ = "done" -> post = []) /\
    (typ = "snapshot" ->
     Forall (fun t => t = "error") pre /\ Forall (fun t => t <> "snapshot") post) /\
    (typ = "update" -> In "snapshot" pre).
Proof.
  intros Hh c types.
  assert (following c) as Hc.
  { unfold c, StreamResults. destruct requestID as [id | e].
    - apply following_run; [assumption |]. left. split; reflexivity.
    - exists Fresh. reflexivity. }
  assert (exists p, protocol Fresh types = Some p /\ (returned c = false -> p <> Closed))
    as (p & Hp & Hopen).
  { unfold following in Hc. fold types in Hc. destruct (returned c).
    - destruct Hc as (p & Hp). exists p. split; [assumption | discriminate].
    - destruct Hc as [[_ Hp] | [_ Hp]]; eexists; (split; [eassumption | discriminate]). }
  split; [eauto |]. split; [| apply (protocol_shape types p Hp)].
  intros Hdone. destruct (returned c) eqn:Hr; [reflexivity | exfalso].
  apply in_split in Hdone as (pre & post & Heq).
  destruct (protocol_shape types p Hp pre "done" post Heq) as (Hlast & _).
  specialize (Hlast eq_refl). subst post.
  rewrite Heq, protocol_app in Hp.
  destruct (protocol Fresh pre) as [p1 |]; [| discriminate].
  cbn in Hp. destruct (accepts p1 "done") as [p2 |] eqn:Ha; [| discriminate].
  apply accepts_done in Ha as ->. injection Hp as <-. apply (Hopen eq_refl). reflexivity.
Qed.

End StreamMore.

(** ** The dispatcher behind its HTTP handler *)
Section DispatchMore.
Import model db repository wire service.

Variable geo : geoip.Geo.
Variable gen : nat -> UUID.
Variable marshalTask : TaskMessage.t -> result string.
Variable ipText : string -> string.

Lemma dispatchTo_requests id payload topic agent s s' d :
  dispatchTo gen id payload topic agent s = (Ok tt, s') ->
  tx s = Some d ->
  exists d', tx s' = Some d' /\ requests d' = requests d.
Proof.
  unfold dispatchTo. intros H Hd.
  apply bind_Ok in H as (oid & s1 & H1 & H). injection H1 as <- <-.
  apply bind_Ok in H as (aid & s2 & H2 & H). injection H2 as <- <-.
  apply bind_Ok in H as ([] & s3 & H3 & H).
  apply wrap_Ok, OutboxInsertMessage_Ok in H3 as (d1 & Hd1 & Hd3 & _).
  cbn in Hd1. rewrite Hd in Hd1. injection Hd1 as <-.
  apply wrap_Ok, InsertAssignment_Ok in H as (d2 & _ & _ & Hd2 & Hd4 & _).
  rewrite Hd3 in Hd2. injection Hd2 as <-.
  eexists. split; [exact Hd4 |].
  destruct (hasOutbox d (gen (nextID s))); reflexivity.
Qed.

Lemma forEach_requests id payload (topicOf : Agent.t -> string) ags : forall s s' d,
  forEach ags (fun agent => dispatchTo gen id payload (topicOf agent) agent) s = (Ok tt, s') ->
  tx s = Some d ->
  exists d', tx s' = Some d' /\ requests d' = requests d.
Proof.
  induction ags as [| agent ags IH]; intros s s' d H Hd.
  - cbn in H. injection H as <-. eauto.
  - cbn [forEach] in H. apply bind_Ok in H as ([] & s1 & H1 & H).
    eapply dispatchTo_requests in H1 as (d1 & Hd1 & Hr1); [| eassumption].
    eapply IH in H as (d2 & Hd2 & Hr2); [| eassumption].
    exists d2. split; [assumption | congruence].
Qed.

(** The request a successful call returns is the row it has committed. *)
Lemma CreateRequest_Ok_request req ip ua s request s' :
  CreateRequest geo gen marshalTask ipText req ip ua s = (Ok request, s') ->
  ip <> None /\
  Request.Status request = "PENDING" /\
  Request.ID request = gen (nextID s) /\
  requests (store s') = requests (store s) ++ [request].
Proof.
  intros H. unfold CreateRequest in H. cbn zeta in H.
  apply bind_Ok in H as (id & s1 & H1 & H). injection H1 as <- <-.
  apply bind_Ok in H as (payload & s2 & H2 & H).
  apply wrap_Ok in H2. unfold lift in H2. injection H2 as Hm <-.
  destruct (TaskMessageRequest.Broadcast req).
  - apply bind_Ok in H as ([] & s3 & H3 & H).
    apply wrap_Ok, Begin_Ok in H3 as (Ht3 & Hs3 & _). cbn in Ht3, Hs3.
    apply defer_Ok in H as (s4 & H & ->). rewrite (keeps_Rollback s4).
    apply bind_Ok in H as (row & s5 & H5 & H).
    apply wrap_Ok, InsertRequest_Ok in H5 as (d5 & Hinet & _ & -> & Hd5 & Ht5 & _).
    rewrite Ht3 in Hd5. injection Hd5 as <-.
    apply bind_Ok in H as (allAgents & s6 & H6 & H).
    apply wrap_Ok, SelectAgents_Ok in H6 as (d6 & _ & Hd6 & Ht6 & _).
    rewrite Ht5 in Hd6. injection Hd6 as <-.
    apply bind_Ok in H as ([] & s7 & H7 & H).
    eapply forEach_requests in H7 as (d7 & Ht7 & Hr7); [| eassumption].
    apply bind_Ok in H as ([] & s8 & H8 & H). injection H as <- <-.
    apply wrap_Ok, Commit_Ok in H8 as (d8 & Hd8 & Hs8 & _).
    rewrite Ht7 in Hd8. injection Hd8 as <-.
    split; [intros ->; cbn in Hinet; discriminate |].
    split; [reflexivity |]. split; [reflexivity |].
    rewrite Hs8, Hr7. reflexivity.
  - apply bind_Ok in H as ([] & s3 & H3 & H).
    apply wrap_Ok, Begin_Ok in H3 as (Ht3 & Hs3 & _). cbn in Ht3, Hs3.
    apply defer_Ok in H as (s4 & H & ->). rewrite (keeps_Rollback s4).
    apply bind_Ok in H as (row & s5 & H5 & H).
    apply wrap_Ok, InsertRequest_Ok in H5 as (d5 & Hinet & _ & -> & Hd5 & Ht5 & _).
    rewrite Ht3 in Hd5. injection Hd5 as <-.
    apply bind_Ok in H as (agent & s6 & H6 & H).
    apply wrap_Ok, SelectAgentByRegion_Ok in H6 as (d6 & _ & _ & Hd6 & Ht6 & _).
    rewrite Ht5 in Hd6. injection Hd6 as <-.
    apply bind_Ok in H as ([] & s7 & H7 & H).
    eapply dispatchTo_requests in H7 as (d7 & Ht7 & Hr7); [| eassumption].
    apply bind_Ok in H as ([] & s8 & H8 & H). injection H as <- <-.
    apply wrap_Ok, Commit_Ok in H8 as (d8 & Hd8 & Hs8 & _).
    rewrite Ht7 in Hd8. injection Hd8 as <-.
    split; [intros ->; cbn in Hinet; discriminate |].
    split; [reflexivity |]. split; [reflexivity |].
    rewrite Hs8, Hr7. reflexivity.
Qed.

(** X9. With a nil client address [CreateRequest] never succeeds: the
    service sends the text a nil [net.IP] prints as into the [INET] column
    of the request row, the insert is refused, and the call returns an
    error with nothing persisted.  The EU fallback [Geo.Lookup] has for a
    nil address is therefore never the region of a dispatch. *)
Theorem CreateRequest_rejects_nil_ip req ua s :
  let out := CreateRequest geo gen marshalTask ipText req None ua s in
  isErr (fst out) = true /\ store (snd out) = store s.
Proof.
  cbn zeta.
  assert (isErr (fst (CreateRequest geo gen marshalTask ipText req None ua s)) = true) as Herr.
  { destruct (CreateRequest geo gen marshalTask ipText req None ua s) as [[request | e] s'] eqn:H;
      [| reflexivity].
    apply CreateRequest_Ok_request in H as (Hip & _). congruence. }
  split; [assumption |]. apply errKeeps_CreateRequest, Herr.
Qed.

Variable ParseIP : string -> geoip.IP.
Variable uuidParse : string -> result UUID.

(** X10. [RequestHandler.CreateRequest] answers 400, 500 or 201.  400 is
    the answer to a body that does not bind, and then the service is not
    called: the state is untouched.  500 is the answer when the service
    fails, and then no table has changed; it is the answer whenever the
    client address does not parse.  201 carries the request the service
    has committed, with status PENDING. *)
Theorem handler_CreateRequest_answers bound clientIPStr userAgent s :
  let out := handler.CreateRequest geo gen marshalTask ipText ParseIP
               bound clientIPStr userAgent s in
  let resp := fst out in
  (handler.code resp = 400 \/ handler.code resp = 500 \/ handler.code resp = 201) /\
  (handler.code resp = 400 <-> isErr bound = true) /\
  (handler.code resp = 400 -> snd out = s) /\
  (handler.code resp = 500 -> store (snd out) = store s) /\
  (isErr bound = false -> ParseIP clientIPStr = None -> handler.code resp = 500) /\
  (handler.code resp = 201 ->
   exists request,
     handler.payload resp = handler.RequestData handler.StatusSuccess request /\
     Request.Status request = "PENDING" /\
     requests (store (snd out)) = requests (store s) ++ [request]).
Proof.
  cbn zeta. unfold handler.CreateRequest.
  destruct bound as [req | e]; cbn [isErr].
  2:{ cbn. repeat split; auto; try discriminate. }
  pose proof (errKeeps_CreateRequest geo gen marshalTask ipText req (ParseIP clientIPStr)
                userAgent s) as Hkeep.
  pose proof (CreateRequest_Ok_request req (ParseIP clientIPStr) userAgent s) as Hok.
  destruct (CreateRequest geo gen marshalTask ipText req (ParseIP clientIPStr) userAgent s)
    as [[request | e] s'] eqn:H; cbn [fst snd handler.code handler.payload isErr] in *.
  - destruct (Hok request s' eq_refl) as (Hip & Hst & _ & Hrows).
    split; [auto |]. split; [split; discriminate |]. split; [discriminate |].
    split; [discriminate |]. split; [intros _ Hnil; contradiction |].
    intros _. exists request. auto.
  - split; [auto |]. split; [split; discriminate |]. split; [discriminate |].
    split; [auto |]. split; [reflexivity | discriminate].
Qed.

(** X11. [RequestHandler.GetResults] never changes a table.  It answers
    400 when the path parameter does not bind or is no UUID, 500 when the
    query fails and 200 otherwise; a request id that no assignment carries
    is no error: with the database answering, the answer is 200 with an
    empty list. *)
Theorem handler_GetResults_answers uri s :
  let out := handler.GetResults uuidParse uri s in
  let resp := fst out in
  store (snd out) = store s /\
  (handler.code resp = 400 \/ handler.code resp = 500 \/ handler.code resp = 200) /\
  (handler.code resp = 400 <->
   isErr uri = true \/ exists id, uri = Ok id /\ isErr (uuidParse id) = true) /\
  (forall id requestID,
     uri = Ok id -> uuidParse id = Ok requestID -> faults s = [] ->
     assignmentsOf (store s) requestID = [] ->
     resp = {| handler.code := 200;
               handler.payload := handler.ResultsData handler.StatusSuccess [] |}).
Proof.
  cbn zeta. unfold handler.GetResults.
  destruct uri as [id | e]; cbn [isErr].
  2:{ cbn. repeat split; auto; try discriminate. }
  destruct (uuidParse id) as [requestID | e] eqn:Hid.
  2:{ cbn. repeat split; auto; try discriminate.
      - intros _. right. exists id. rewrite Hid. auto.
      - intros id' requestID [= <-]. congruence. }
  pose proof (GetResultsByRequestID_length requestID s) as Hrows.
  assert (store (snd (GetResultsByRequestID requestID s)) = store s) as Hkeep.
  { unfold GetResultsByRequestID, wrap, SelectResultsByRequestID, bind, view, ret.
    destruct (roundTrip s) as [[[] | e] s1] eqn:Hrt;
      apply roundTrip_same in Hrt as (Hs & _); cbn; exact Hs. }
  destruct (GetResultsByRequestID requestID s) as [[rows | e] s'] eqn:H;
    cbn [fst snd handler.code handler.payload] in *.
  - split; [assumption |]. split; [auto |]. split.
    + split; [discriminate |]. intros [[=] | (id' & [= <-] & Herr)].
      rewrite Hid in Herr. discriminate.
    + intros id' requestID' [= <-] Hp Hf Hnone. rewrite Hid in Hp. injection Hp as <-.
      pose proof (Hrows rows s' eq_refl) as Hlen. rewrite Hnone in Hlen. cbn in Hlen.
      destruct rows; [reflexivity | discriminate].
  - split; [assumption |]. split; [auto |]. split.
    + split; [discriminate |]. intros [[=] | (id' & [= <-] & Herr)].
      rewrite Hid in Herr. discriminate.
    + intros id' requestID' [= <-] Hp Hf Hnone. rewrite Hid in Hp. injection Hp as <-.
      exfalso. unfold GetResultsByRequestID, wrap, SelectResultsByRequestID, bind, view, ret in H.
      rewrite (roundTrip_quiet s Hf) in H. discriminate.
Qed.

End DispatchMore.

(** ** The role check of the protected routes *)
Section RolesFacts.
Import middleware.

Variable UserRoleKey : string.

(** X12. [RequireRoles] calls [c.Next()] exactly when the role stored in
    the context is a string of the allowed list, or, the abort for a role
    that is no string being followed by no [return], when the role is no
    string and the empty string is allowed; in that second case the call
    comes after the 403 abort.  In every other case the last thing the
    handler does is an abort with 403, and no abort has another status;
    without a role in the context the handler does nothing but the one
    abort for the missing role. *)
Theorem RequireRoles_calls_Next allowedRoles keys :
  let effects := RequireRoles UserRoleKey allowedRoles keys in
  (In Next effects <->
   (exists role, keys !! UserRoleKey = Some (AnyString role) /\ In role allowedRoles) \/
   (keys !! UserRoleKey = Some AnyOther /\ In "" allowedRoles)) /\
  (~ In Next effects ->
   exists status message, List.last effects Next = AbortWithStatusJSON 403 status message) /\
  (forall e, In e effects ->
     e = Next \/ exists status message, e = AbortWithStatusJSON 403 status message) /\
  (keys !! UserRoleKey = None ->
   effects = [AbortWithStatusJSON 403 "not permitted" "no data about the users roles"]) /\
  (~ In "" allowedRoles ->
   In Next effects ->
   exists role, keys !! UserRoleKey = Some (AnyString role) /\ In role allowedRoles /\
                effects = [Next]).
Proof.
  cbn zeta. unfold RequireRoles.
  assert (forall role, role ∈ (list_to_set allowedRoles : gset string) <-> In role allowedRoles)
    as Hset.
  { intros role. rewrite elem_of_list_to_set. apply list_elem_of_In. }
  destruct (keys !! UserRoleKey) as [[role |] |] eqn:Hk.
  - destruct (decide (role ∈ (list_to_set allowedRoles : gset string))) as [Hin | Hout];
      rewrite Hset in *; cbn [app].
    + repeat split.
      * intros _. left. eauto.
      * intros _. left. reflexivity.
      * intros H. exfalso. apply H. left. reflexivity.
      * intros e [<- | []]. auto.
      * discriminate.
      * intros _ _. eauto.
    + repeat split.
      * intros [[=] | []].
      * intros [(role' & [= <-] & Hin) | ([=] & _)]. contradiction.
      * intros _. cbn. eauto.
      * intros e [<- | []]. eauto.
      * discriminate.
      * intros _ [[=] | []].
  - destruct (decide ("" ∈ (list_to_set allowedRoles : gset string))) as [Hin | Hout];
      rewrite Hset in *; cbn [app].
    + repeat split.
      * intros _. right. auto.
      * intros _. right. left. reflexivity.
      * intros H. exfalso. apply H. right. left. reflexivity.
      * intros e [<- | [<- | []]]; eauto.
      * discriminate.
      * intros Hno. contradiction.
    + repeat split.
      * intros [[=] | [[=] | []]].
      * intros [(role' & [=] & _) | (_ & Hin)]. contradiction.
      * intros _. cbn. eauto.
      * intros e [<- | [<- | []]]; eauto.
      * discriminate.
      * intros _ [[=] | [[=] | []]].
  - repeat split.
    + intros [[=] | []].
    + intros [(role' & [=] & _) | ([=] & _)].
    + intros _. cbn. eauto.
    + intros e [<- | []]. eauto.
    + intros _ [[=] | []].
Qed.

End RolesFacts.

(** ** The agent: tasks that parse *)
Section AgentMore.
Import GoStrings wire agent.

Variable unmarshalTask : string -> result TaskMessage.t.
Variable unmarshalStringMap : string -> option (list (string * string)).
Variable unmarshalStringList : string -> option (list string).
Variable windows : bool.
Variable decodeCodePage : string -> string.
Variable ipFamily : string -> option bool.
Variable formatSeconds : Z -> string.
Variable cmdString : string -> list string -> string.
Variable hopsOf : string -> json.value.

Abbreviation normalize := (normalizeCheckParams unmarshalStringMap unmarshalStringList).
Abbreviation normalizeAll := (normalizeChecks unmarshalStringMap unmarshalStringList).
Abbreviation parse := (ParseTask unmarshalTask unmarshalStringMap unmarshalStringList).
Abbreviation runOne' := (runOne windows decodeCodePage ipFamily formatSeconds cmdString hopsOf).
Abbreviation runCheckAt' :=
  (runCheckAt windows decodeCodePage ipFamily formatSeconds cmdString hopsOf).
Abbreviation RunCheck' := (RunCheck windows decodeCodePage ipFamily formatSeconds cmdString hopsOf).
Abbreviation process' :=
  (process unmarshalTask unmarshalStringMap unmarshalStringList
     windows decodeCodePage ipFamily formatSeconds cmdString hopsOf).





(** *** [mustToMap] then [decodeLoose], struct by struct *)









Lemma withParams_twice c m m' : withParams (withParams c m) m' = withParams c m'.
Proof. reflexivity. Qed.












Lemma obind_Returned {A B} (m : outcome A) (k : A -> outcome B) b :
  obind m k = Returned b -> exists a, m = Returned a /\ k a = Returned b.
Proof. destruct m; cbn; [eauto | discriminate | discriminate]. Qed.




Lemma nth_error_imap {A B} (f : nat -> A -> B) (l : list A) i :
  nth_error (imap f l) i = option_map (f i) (nth_error l i).
Proof.
  revert f i. induction l as [| x l IH]; intros f i; [destruct i; reflexivity |].
  rewrite imap_cons. destruct i as [| i]; [reflexivity |]. cbn [nth_error].
  rewrite IH. reflexivity.
Qed.

Lemma runCheckAt_fields task i chk f :
  let r := runCheckAt' task i chk f in
  CheckResult.TaskID r = TaskMessage.ID task /\
  CheckResult.CheckIndex r = i /\
  CheckResult.Type_ r = ToLower (CheckRequest.Type_ chk) /\
  CheckResult.Target r = TaskMessage.Target task.
Proof.
  cbn zeta. destruct f as [e t | a]; cbn [runCheckAt]; [repeat split |].
  unfold runOne. cbn zeta.
  repeat match goal with
         | |- context [if String.eqb ?x ?y then _ else _] => destruct (String.eqb x y)
         end.
  - unfold runHTTP. destruct (http a); repeat split.
  - unfold runPing. destruct (failure (ping a)); repeat split.
  - unfold runTCP. destruct (tcp a); repeat split.
  - unfold runTraceroute. repeat split.
  - unfold runDNS. repeat split.
  - repeat split.
Qed.

Lemma normalizeChecks_Returned checks : forall i l,
  normalizeAll i checks = Returned l ->
  Forall2 (fun c c' => normalize c = Returned c') checks l.
Proof.
  induction checks as [| c rest IH]; intros i l H; cbn [normalizeChecks] in H.
  - injection H as <-. constructor.
  - destruct (normalize c) as [c' | e | w] eqn:Hc; try discriminate.
    apply obind_Returned in H as (rest' & Hrest & H). injection H as <-.
    constructor; [assumption | eapply IH, Hrest].
Qed.

Lemma normalize_known c c' :
  normalize c = Returned c' ->
  knownKind (CheckRequest.Type_ c) = true /\ CheckRequest.Type_ c' = CheckRequest.Type_ c.
Proof.
  intros H. destruct (knownKind (CheckRequest.Type_ c)) eqn:Hk.
  2:{ rewrite (normalizeCheckParams_unknown unmarshalStringMap unmarshalStringList c Hk) in H.
      discriminate. }
  split; [reflexivity |].
  unfold normalizeCheckParams in H. cbn zeta in H.
  repeat match type of H with
         | context [if String.eqb ?x ?y then _ else _] => destruct (String.eqb x y)
         end;
    repeat match type of H with
           | obind _ _ = Returned _ => apply obind_Returned in H as (? & _ & H)
           end;
    try discriminate; injection H as <-; reflexivity.
Qed.

(** X14. When [process] gets to [RunCheck], the task has parsed, and it
    hands one envelope to [publish] for every check of the task: the i-th
    envelope carries the check index i, the lower-cased type of the i-th
    check, the id of the task and its target; every check of such a task is
    of a known kind. *)
Theorem process_one_envelope_per_check data fates l :
  process' data fates = Returned l ->
  exists t,
    unmarshalTask data = Ok t /\
    length l = length (TaskMessage.Checks t) /\
    forall i chk, nth_error (TaskMessage.Checks t) i = Some chk ->
      knownKind (CheckRequest.Type_ chk) = true /\
      exists r, nth_error l i = Some r /\
                CheckResult.CheckIndex r = i /\
                CheckResult.Type_ r = ToLower (CheckRequest.Type_ chk) /\
                CheckResult.TaskID r = TaskMessage.ID t /\
                CheckResult.Target r = TaskMessage.Target t.
Proof.
  unfold process, ParseTask. intros H.
  destruct (unmarshalTask data) as [t | e]; [| discriminate].
  exists t. split; [reflexivity |].
  destruct (normalizeAll 0 (TaskMessage.Checks t)) as [checks | e | w] eqn:Hn;
    cbn [obind] in H; try discriminate.
  injection H as <-. apply normalizeChecks_Returned in Hn.
  unfold RunCheck. cbn [withChecks TaskMessage.Checks TaskMessage.ID TaskMessage.Target].
  rewrite length_imap. split; [symmetry; eapply Forall2_length, Hn |].
  intros i chk Hi.
  assert (exists chk', nth_error checks i = Some chk' /\ normalize chk = Returned chk')
    as (chk' & Hi' & Hnorm).
  { clear -Hn Hi. revert i Hi. induction Hn as [| c c' cs cs' Hc _ IH]; intros i Hi.
    - destruct i; discriminate.
    - destruct i as [| i]; cbn [nth_error] in *.
      + injection Hi as <-. eauto.
      + apply IH, Hi. }
  destruct (normalize_known _ _ Hnorm) as [Hk Hty]. split; [assumption |].
  rewrite nth_error_imap, Hi'. cbn [option_map]. eexists. split; [reflexivity |].
  match goal with |- context [runCheckAt' ?task i chk' ?f] =>
    destruct (runCheckAt_fields task i chk' f) as (H1 & H2 & H3 & H4)
  end.
  cbn [TaskMessage.ID TaskMessage.Target withChecks] in H1, H4.
  rewrite Hty in H3. auto.
Qed.

(** X15. An envelope with ok=true always carries a payload, whatever the
    kind of the check. *)
Theorem ok_envelope_has_payload task i chk f :
  let res := runCheckAt windows decodeCodePage ipFamily formatSeconds cmdString hopsOf
               task i chk f in
  CheckResult.OK res = true -> CheckResult.Payload res <> None.
Proof.
  cbn zeta. destruct f as [e t | a]; cbn [runCheckAt]; [discriminate |].
  unfold runOne. cbn zeta.
  repeat match goal with
         | |- context [if String.eqb ?x ?y then _ else _] => destruct (String.eqb x y)
         end.
  - unfold runHTTP. destruct (http a); cbn; discriminate.
  - unfold runPing. destruct (failure (ping a)); cbn; discriminate.
  - unfold runTCP. destruct (tcp a); cbn; discriminate.
  - unfold runTraceroute. cbn. discriminate.
  - unfold runDNS. cbn. discriminate.
  - cbn. discriminate.
Qed.


End AgentMore.

(** ** The agent: runners and helpers *)
Section RunnerFacts.
Import GoStrings wire agent.

Variable windows : bool.
Variable decodeCodePage : string -> string.
Variable ipFamily : string -> option bool.
Variable formatSeconds : Z -> string.
Variable cmdString : string -> list string -> string.
Variable hopsOf : string -> json.value.

Lemma insert_keeps (m : gmap string json.value) k k' v :
  is_Some (m !! k) -> is_Some (<[k' := v]> m !! k).
Proof.
  intros H. destruct (decide (k' = k)) as [-> | Hne].
  - rewrite lookup_insert_eq. eauto.
  - rewrite lookup_insert_ne by assumption. exact H.
Qed.

Lemma dnsLoop_grows a records : forall i results haveError k,
  is_Some (results !! k) ->
  is_Some (fst (dnsLoop ipFamily a i records results haveError) !! k).
Proof.
  induction records as [| rr rest IH]; intros i results haveError k Hk; [exact Hk |].
  cbn [dnsLoop]. apply IH.
  repeat match goal with
         | |- context [if ?b then _ else _] => destruct b
         | |- context [match ?r with Ok _ => _ | Err _ => _ end] => destruct r
         end; cbn [fst]; apply insert_keeps, Hk.
Qed.

Lemma dnsLoop_spec a records : forall i results haveError,
  snd (dnsLoop ipFamily a i records results haveError) =
    haveError || existsb (fun b => b) (imap (fun j rr => recordFails a (i + j) rr) records) /\
  forall j rr, nth_error records j = Some rr ->
    is_Some (fst (dnsLoop ipFamily a i records results haveError) !! recordKey a (i + j) rr).
Proof.
  induction records as [| rr rest IH]; intros i results haveError.
  - cbn. rewrite orb_false_r. split; [reflexivity |]. intros [| j]; discriminate.
  - cbn [dnsLoop]. rewrite imap_cons. cbn [existsb].
    match goal with |- context [dnsLoop ipFamily a (S i) rest (fst ?st) (snd ?st)] =>
      set (step := st) end.
    destruct (IH (S i) (fst step) (snd step)) as [Hsnd Hkeys].
    assert (snd step = haveError || recordFails a (i + 0) rr /\
            is_Some (fst step !! recordKey a (i + 0) rr)) as [Hstep Hkey].
    { unfold step, recordKey, recordFails. rewrite Nat.add_0_r. cbn zeta.
      destruct (String.eqb (ToUpper rr) "A") eqn:E1.
      { apply String.eqb_eq in E1. rewrite E1.
        destruct (lookupHost a i); cbn [isErr fst snd];
          rewrite ?orb_false_r, ?orb_true_r;
          (split; [reflexivity | apply lookup_insert_is_Some; left; reflexivity]). }
      destruct (String.eqb (ToUpper rr) "AAAA") eqn:E2.
      { apply String.eqb_eq in E2. rewrite E2.
        destruct (lookupHost a i); cbn [isErr fst snd];
          rewrite ?orb_false_r, ?orb_true_r;
          (split; [reflexivity | apply lookup_insert_is_Some; left; reflexivity]). }
      destruct (String.eqb (ToUpper rr) "MX") eqn:E3.
      { apply String.eqb_eq in E3. rewrite E3.
        destruct (lookupMX a i); cbn [isErr fst snd];
          rewrite ?orb_false_r, ?orb_true_r;
          (split; [reflexivity | apply lookup_insert_is_Some; left; reflexivity]). }
      cbn [fst snd]. rewrite orb_true_r.
      split; [reflexivity | apply lookup_insert_is_Some; left; reflexivity]. }
    split.
    + rewrite Hsnd, Hstep, <- orb_assoc. f_equal. f_equal.
      f_equal. apply imap_ext. intros j x _. cbn. f_equal. lia.
    + intros [| j] rr' Hj; cbn [nth_error] in Hj.
      * injection Hj as <-. apply dnsLoop_grows. exact Hkey.
      * replace (i + S j)%nat with (S i + j)%nat by lia. apply Hkeys, Hj.
Qed.

(** X17. A dns check reports ok exactly when none of its records fails,
    a record failing when its lookup fails or when its type is none of A,
    AAAA and MX (in any case); and every record is accounted for in the
    payload, by its answers under its upper-cased name or by its error
    under <RECORD>_error. *)
Theorem runDNS_accounts_for_records p a makeRes :
  let loop := dnsLoop ipFamily a 0 (DNSParams.Records p) ∅ false in
  runDNS ipFamily p a makeRes =
    makeRes (negb (snd loop)) None (Some (json.Object (map_to_list (fst loop)))) /\
  snd loop = existsb (fun b => b) (imap (recordFails a) (DNSParams.Records p)) /\
  forall j rr, nth_error (DNSParams.Records p) j = Some rr ->
    is_Some (fst loop !! recordKey a j rr).
Proof.
  cbn zeta. split; [reflexivity |].
  destruct (dnsLoop_spec a (DNSParams.Records p) 0 ∅ false) as [Hsnd Hkeys].
  split; [exact Hsnd | exact Hkeys].
Qed.

Lemma substring_skip n : forall s,
  (n <= String.length s)%nat ->
  exists front, s = (front ++ String.substring n (String.length s - n) s)%string /\
                String.length front = n.
Proof.
  induction n as [| n IH]; intros s Hn.
  - exists ""%string. rewrite Nat.sub_0_r, substring_whole. split; reflexivity.
  - destruct s as [| c s]; cbn [String.length] in Hn; [lia |].
    destruct (IH s ltac:(lia)) as (front & Hs & Hlen).
    exists (String c front). cbn [String.substring String.length].
    replace (S (String.length s) - S n)%nat with (String.length s - n)%nat by lia.
    rewrite append_cons. rewrite <- Hs. split; [reflexivity | lia].
Qed.

(** X18. [tail] keeps the end of the output: the result is a suffix of the
    string, of length the smaller of the length of the string and the
    limit, so a short output is kept whole and a payload never holds more
    than the limit. *)
Theorem tail_is_bounded_suffix s max :
  (0 <= max)%Z ->
  exists front,
    s = (front ++ tail s max)%string /\
    String.length (tail s max) = Nat.min (String.length s) (Z.to_nat max) /\
    ((String.length s <= Z.to_nat max)%nat -> tail s max = s).
Proof.
  intros _. unfold tail.
  destruct (String.length s <=? Z.to_nat max)%nat eqn:E.
  - apply Nat.leb_le in E. exists ""%string. rewrite append_nil.
    split; [reflexivity |]. split; [lia | reflexivity].
  - apply Nat.leb_gt in E.
    destruct (substring_skip (String.length s - Z.to_nat max) s ltac:(lia))
      as (front & Hs & Hlen).
    replace (String.length s - (String.length s - Z.to_nat max))%nat
      with (Z.to_nat max) in Hs by lia.
    exists front. split; [exact Hs |]. split; [| lia].
    apply (f_equal String.length) in Hs. rewrite length_append in Hs. lia.
Qed.

End RunnerFacts.

(** ** The agent: the addresses of a trace and the position cache *)
Section TraceFacts.
Import agent.

Variable ParseIP : string -> parsedIP.

Lemma mask_172 b : byte b -> (Z.land b 240 =? 16)%Z = ((16 <=? b) && (b <=? 31))%Z.
Proof.
  intros [Hlo Hhi].
  assert (forallb (fun n => Bool.eqb (Z.land (Z.of_nat n) 240 =? 16)%Z
                              ((16 <=? Z.of_nat n) && (Z.of_nat n <=? 31))%Z)
                  (seq 0 256) = true) as Hall by (vm_compute; reflexivity).
  rewrite forallb_forall in Hall. specialize (Hall (Z.to_nat b)).
  rewrite Z2Nat.id in Hall by assumption.
  apply Bool.eqb_prop, Hall, in_seq. lia.
Qed.

Lemma mask_100 b : byte b -> (Z.land b 192 =? 64)%Z = ((64 <=? b) && (b <=? 127))%Z.
Proof.
  intros [Hlo Hhi].
  assert (forallb (fun n => Bool.eqb (Z.land (Z.of_nat n) 192 =? 64)%Z
                              ((64 <=? Z.of_nat n) && (Z.of_nat n <=? 127))%Z)
                  (seq 0 256) = true) as Hall by (vm_compute; reflexivity).
  rewrite forallb_forall in Hall. specialize (Hall (Z.to_nat b)).
  rewrite Z2Nat.id in Hall by assumption.
  apply Bool.eqb_prop, Hall, in_seq. lia.
Qed.

(** X19. [isPrivateOrReserved] holds of every text that is no IPv4
    address, and of an IPv4 address exactly when it lies in one of the
    blocks 10.0.0.0/8, 172.16.0.0/12, 192.168.0.0/16, 100.64.0.0/10,
    127.0.0.0/8 and 169.254.0.0/16: the two masks on the second byte select
    172.16 to 172.31 and 100.64 to 100.127. *)
Theorem isPrivateOrReserved_blocks ip :
  (validIPv4 ParseIP ip = false -> isPrivateOrReserved ParseIP ip = true) /\
  forall b0 b1 b2 b3,
    ParseIP ip = IPv4 b0 b1 b2 b3 -> byte b0 -> byte b1 ->
    (isPrivateOrReserved ParseIP ip = true <->
     b0 = 10 \/ (b0 = 172 /\ 16 <= b1 <= 31) \/ (b0 = 192 /\ b1 = 168) \/
     (b0 = 100 /\ 64 <= b1 <= 127) \/ b0 = 127 \/ (b0 = 169 /\ b1 = 254)).
Proof.
  unfold isPrivateOrReserved, validIPv4. split.
  - destruct (ParseIP ip); [reflexivity | reflexivity | discriminate].
  - intros b0 b1 b2 b3 -> H0 H1. rewrite (mask_172 b1 H1), (mask_100 b1 H1).
    repeat match goal with
           | |- context [if ?b then true else _] => destruct b eqn:?
           end;
      rewrite ?andb_true_iff, ?andb_false_iff, ?Z.eqb_eq, ?Z.eqb_neq, ?Z.leb_le, ?Z.leb_gt in *;
      (split; [intros Ht; try discriminate; lia | intros Ht; try reflexivity; lia]).
Qed.

(** X20. [MemoryGeoCache.Resolve]: a position the inner resolver has
    given is served from the map, without a further call, at every time
    before it expires, and the inner resolver is asked again from the
    expiry on; an error of the inner resolver is returned and not cached;
    the entries of the other addresses are never touched. *)
Theorem Resolve_caches_until_expiry inner ttl t0 ip mapt :
  let first := Resolve inner ttl t0 ip mapt in
  let mapt1 := snd (fst first) in
  (forall other, other <> ip -> mapt1 !! other = mapt !! other) /\
  (forall e, inner ip = Err e ->
     snd first = [ip] -> fst (fst first) = Err e /\ mapt1 = mapt) /\
  (forall la lo, inner ip = Ok (la, lo) -> snd first = [ip] ->
     fst (fst first) = Ok (la, lo) /\
     (forall inner' t1, t1 < t0 + ttl ->
        Resolve inner' ttl t1 ip mapt1 = (Ok (la, lo), mapt1, [])) /\
     (forall inner' t1, t0 + ttl <= t1 ->
        snd (Resolve inner' ttl t1 ip mapt1) = [ip])).
Proof.
  cbn zeta. unfold Resolve.
  destruct (mapt !! ip) as [e0 |] eqn:Hm.
  - destruct (t0 <? exp e0) eqn:Hfresh; cbn [fst snd].
    + split; [auto |]. split; [discriminate |]. discriminate.
    + destruct (inner ip) as [[la lo] | e] eqn:Hi; cbn [fst snd].
      * split; [intros other Hne; apply lookup_insert_ne; congruence |].
        split; [discriminate |].
        intros la' lo' [= <- <-] _. split; [reflexivity |]. split.
        -- intros inner' t1 Ht. rewrite lookup_insert_eq. cbn [exp lat lon].
           apply Z.ltb_lt in Ht. rewrite Ht. reflexivity.
        -- intros inner' t1 Ht. rewrite lookup_insert_eq. cbn [exp lat lon].
           apply Z.ltb_ge in Ht. rewrite Ht.
           destruct (inner' ip) as [[? ?] |]; reflexivity.
      * split; [auto |]. split; [intros e' [= <-] _; auto | discriminate].
  - destruct (inner ip) as [[la lo] | e] eqn:Hi; cbn [fst snd].
    + split; [intros other Hne; apply lookup_insert_ne; congruence |].
      split; [discriminate |].
      intros la' lo' [= <- <-] _. split; [reflexivity |]. split.
      * intros inner' t1 Ht. rewrite lookup_insert_eq. cbn [exp lat lon].
        apply Z.ltb_lt in Ht. rewrite Ht. reflexivity.
      * intros inner' t1 Ht. rewrite lookup_insert_eq. cbn [exp lat lon].
        apply Z.ltb_ge in Ht. rewrite Ht.
        destruct (inner' ip) as [[? ?] |]; reflexivity.
    + split; [auto |]. split; [intros e' [= <-] _; auto | discriminate].
Qed.

End TraceFacts.

(** ** The agent: what the worker acknowledges and publishes *)
Section WorkerFacts.
Import wire agent.

Variable unmarshalTask : string -> result TaskMessage.t.
Variable unmarshalStringMap : string -> option (list (string * string)).
Variable unmarshalStringList : string -> option (list string).
Variable windows : bool.
Variable decodeCodePage : string -> string.
Variable ipFamily : string -> option bool.
Variable formatSeconds : Z -> string.
Variable cmdString : string -> list string -> string.
Variable hopsOf : string -> json.value.
Variable produceTopic : string.
Variable marshalResult : CheckResult.t -> result string.

Abbreviation process' :=
  (process unmarshalTask unmarshalStringMap unmarshalStringList
     windows decodeCodePage ipFamily formatSeconds cmdString hopsOf).
Abbreviation worker' :=
  (worker unmarshalTask unmarshalStringMap unmarshalStringList
     windows decodeCodePage ipFamily formatSeconds cmdString hopsOf
     produceTopic marshalResult).

Lemma publishAll_pushed l accepted : forall i q,
  pushed (publishAll produceTopic marshalResult l accepted i q) =
    pushed q ++ map (recordOf produceTopic marshalResult) l /\
  marked (publishAll produceTopic marshalResult l accepted i q) = marked q.
Proof.
  induction l as [| res rest IH]; intros i q; cbn [publishAll map].
  - rewrite app_nil_r. auto.
  - destruct (IH (S i) (publish produceTopic marshalResult res (accepted i) q)) as [Hp Hm].
    rewrite Hp, Hm. cbn [publish pushed marked]. rewrite <- app_assoc. auto.
Qed.

(** X21. The agent acknowledges every task whose key is a UUID once
    [process] has returned, whether the task parsed or not and whether the
    broker took the results or not: a task that does not parse is
    acknowledged with nothing published, and a result the broker refuses is
    not published again.  What is handed to the producer is one record per
    envelope, keyed by the task id of the envelope, on the produce topic.
    A message whose key is no UUID is neither processed nor acknowledged,
    and a panic of [ParseTask] ends the worker before the
    acknowledgement. *)
Theorem agent_worker_acks msg fates accepted q :
  (forall e, uuid.FromBytes (kafka.Key msg) = Err e ->
     exists q', worker' msg fates accepted q = Returned q' /\
                pushed q' = pushed q /\ marked q' = marked q) /\
  (forall id, uuid.FromBytes (kafka.Key msg) = Ok id ->
     match process' (kafka.Value msg) fates with
     | Panicked w => worker' msg fates accepted q = Panicked w
     | result =>
         exists q', worker' msg fates accepted q = Returned q' /\
                    marked q' = marked q ++ [msg] /\
                    pushed q' = pushed q ++
                                map (recordOf produceTopic marshalResult) (envelopes result)
     end).
Proof.
  unfold worker. split.
  - intros e ->. eexists. split; [reflexivity |]. auto.
  - intros id ->.
    destruct (process' (kafka.Value msg) fates) as [l | e | w]; [| | reflexivity].
    + destruct (publishAll_pushed l accepted 0%nat q) as [Hp Hm].
      eexists. split; [reflexivity |]. cbn [pushed marked envelopes].
      rewrite Hp, Hm. auto.
    + eexists. split; [reflexivity |]. cbn [pushed marked envelopes map].
      rewrite app_nil_r. auto.
Qed.

End WorkerFacts.

(** ** Printing and reading integers *)
Section NumberFacts.
Import GoStrings agent.
Local Open Scope string_scope.




Lemma plain_string_of_uint d : plain (NilEmpty.string_of_uint d) = true.
Proof. induction d; cbn; auto. Qed.



Lemma plain_Itoa z : plain (Itoa z) = true.
Proof.
  unfold Itoa. destruct z as [| p | p]; cbn [Z.to_int NilZero.string_of_int]; [reflexivity | |];
    unfold NilZero.string_of_uint;
    destruct (Pos.to_uint p) eqn:E; try reflexivity;
    rewrite <- E; try (apply plain_string_of_uint);
    cbn [plain]; rewrite plain_string_of_uint; reflexivity.
Qed.

End NumberFacts.

(** ** The agent: the forms of a status range, and a task that does not parse *)
Section ParseFacts.
Import GoStrings wire agent.

Variable unmarshalTask : string -> result TaskMessage.t.
Variable unmarshalStringMap : string -> option (list (string * string)).
Variable unmarshalStringList : string -> option (list string).

Abbreviation normalize := (normalizeCheckParams unmarshalStringMap unmarshalStringList).
Abbreviation normalizeAll := (normalizeChecks unmarshalStringMap unmarshalStringList).
Abbreviation parse := (ParseTask unmarshalTask unmarshalStringMap unmarshalStringList).


(** X23. When a task decodes but one of its checks is refused,
    [ParseTask] fails on the first such check: the error names the index
    and the type of that check and ends with the error of
    [normalizeCheckParams], and every check before it was accepted. *)
Theorem ParseTask_reports_first_failure data t e :
  unmarshalTask data = Ok t ->
  parse data = Failed e ->
  exists i c e',
    nth_error (TaskMessage.Checks t) i = Some c /\
    normalize c = Failed e' /\
    e = ("check " ++ Itoa (Z.of_nat i) ++ " (" ++ CheckRequest.Type_ c ++ "): " ++ e')%string /\
    forall j cj, (j < i)%nat -> nth_error (TaskMessage.Checks t) j = Some cj ->
                 exists cj', normalize cj = Returned cj'.
Proof.
  intros Ht H. unfold ParseTask in H. rewrite Ht in H.
  destruct (normalizeAll 0 (TaskMessage.Checks t)) as [l | e0 | w] eqn:Hn;
    cbn [obind] in H; try discriminate.
  injection H as <-.
  assert (forall checks k e0, normalizeAll k checks = Failed e0 ->
            exists i c e',
              nth_error checks i = Some c /\ normalize c = Failed e' /\
              e0 = ("check " ++ Itoa (Z.of_nat (k + i)) ++ " (" ++ CheckRequest.Type_ c
                    ++ "): " ++ e')%string /\
              forall j cj, (j < i)%nat -> nth_error checks j = Some cj ->
                           exists cj', normalize cj = Returned cj') as Hgen.
  { clear. induction checks as [| c rest IH]; intros k e0 H; cbn [normalizeChecks] in H;
      [discriminate |].
    destruct (normalize c) as [c' | e1 | w] eqn:Hc; try discriminate.
    - destruct (normalizeAll (S k) rest) as [l | e2 | w] eqn:Hrest; cbn [obind] in H;
        try discriminate.
      injection H as <-.
      destruct (IH (S k) e2 Hrest) as (i & ci & e' & Hi & Hfail & -> & Hbefore).
      exists (S i), ci, e'. split; [exact Hi |]. split; [exact Hfail |].
      split; [replace (k + S i)%nat with (S k + i)%nat by lia; reflexivity |].
      intros [| j] cj Hj Hnth; cbn [nth_error] in Hnth.
      + injection Hnth as <-. eauto.
      + apply (Hbefore j cj); [lia | exact Hnth].
    - injection H as <-. exists 0%nat, c, e1. split; [reflexivity |].
      split; [exact Hc |]. split; [rewrite Nat.add_0_r; reflexivity |].
      intros j cj Hj. lia. }
  destruct (Hgen _ _ _ Hn) as (i & c & e' & Hi & Hfail & He & Hbefore).
  exists i, c, e'. auto.
Qed.

End ParseFacts.

(** ** The dispatcher: the region of a nearest-agent dispatch *)
Section NearestFacts.
Import GoStrings model db repository wire service.

Variable geo : geoip.Geo.
Variable gen : nat -> UUID.
Variable marshalTask : TaskMessage.t -> result string.
Variable ipText : string -> string.

Lemma dispatchTo_assignment id payload topic agent s s' d :
  dispatchTo gen id payload topic agent s = (Ok tt, s') ->
  tx s = Some d ->
  exists d',
    tx s' = Some d' /\
    assignments d' =
      assignments d ++
        [Assignment.withStatus
           (assignmentOf (gen (S (nextID s))) id agent (gen (nextID s))) "PENDING"].
Proof.
  unfold dispatchTo. intros H Hd.
  apply bind_Ok in H as (oid & s1 & H1 & H). injection H1 as <- <-.
  apply bind_Ok in H as (aid & s2 & H2 & H). injection H2 as <- <-.
  apply bind_Ok in H as ([] & s3 & H3 & H).
  apply wrap_Ok, OutboxInsertMessage_Ok in H3 as (d1 & Hd1 & Hd3 & _).
  cbn in Hd1. rewrite Hd in Hd1. injection Hd1 as <-.
  apply wrap_Ok, InsertAssignment_Ok in H as (d2 & _ & _ & Hd2 & Hd4 & _).
  rewrite Hd3 in Hd2. injection Hd2 as <-.
  eexists. split; [exact Hd4 |].
  destruct (hasOutbox d (gen (nextID s))); reflexivity.
Qed.

Lemma regionOf_documented c :
  In c geoip.databaseContinents \/ c = "" ->
  geoip.regionOf c <> "US" /\ (geoip.regionOf c = "APAC" \/ geoip.regionOf c = "EU").
Proof.
  intros [H | ->]; [| split; [discriminate | right; reflexivity]].
  cbn in H.
  repeat (destruct H as [<- | H]; [split; [discriminate | auto] |]). contradiction.
Qed.

(** X24. A dispatch that is no broadcast gives its one assignment to an
    agent of the region [Geo.Lookup] has computed for the client, the
    region recorded in the request.  For every continent code the country
    database emits, and without one, that region is APAC or EU and never
    US: the agents of region US get work through broadcasts only. *)
Theorem nearest_dispatch_never_US req ip ua s request s' :
  TaskMessageRequest.Broadcast req = false ->
  CreateRequest geo gen marshalTask ipText req ip ua s = (Ok request, s') ->
  exists agent assignment,
    In agent (agents (store s)) /\
    assignments (store s') = assignments (store s) ++ [assignment] /\
    Assignment.AgentID assignment = Agent.ID agent /\
    Assignment.AgentRegion assignment = Agent.Region agent /\
    Agent.Region agent = geoip.Region (geoip.Lookup geo ip) /\
    Request.ClientRegion request = geoip.Region (geoip.Lookup geo ip) /\
    (In (geoip.Continent (geoip.Lookup geo ip)) geoip.databaseContinents \/
     geoip.Continent (geoip.Lookup geo ip) = "" ->
     Agent.Region agent <> "US" /\
     (Agent.Region agent = "APAC" \/ Agent.Region agent = "EU")).
Proof.
  intros Hb H. unfold CreateRequest in H. cbn zeta in H. rewrite Hb in H.
  apply bind_Ok in H as (id & s1 & H1 & H). injection H1 as <- <-.
  apply bind_Ok in H as (payload & s2 & H2 & H).
  apply wrap_Ok in H2. unfold lift in H2. injection H2 as Hm <-.
  apply bind_Ok in H as ([] & s3 & H3 & H).
  apply wrap_Ok, Begin_Ok in H3 as (Ht3 & Hs3 & _). cbn in Ht3, Hs3.
  apply defer_Ok in H as (s4 & H & ->). rewrite (keeps_Rollback s4).
  apply bind_Ok in H as (row & s5 & H5 & H).
  apply wrap_Ok, InsertRequest_Ok in H5 as (d5 & Hinet & _ & -> & Hd5 & Ht5 & _).
  rewrite Ht3 in Hd5. injection Hd5 as <-.
  apply bind_Ok in H as (agent & s6 & H6 & H).
  apply wrap_Ok, SelectAgentByRegion_Ok in H6 as (d6 & Hin & Hreg & Hd6 & Ht6 & _).
  rewrite Ht5 in Hd6. injection Hd6 as <-. cbn in Hin.
  apply bind_Ok in H as ([] & s7 & H7 & H).
  eapply dispatchTo_assignment in H7 as (d7 & Ht7 & Ha7); [| eassumption].
  apply bind_Ok in H as ([] & s8 & H8 & H). injection H as <- <-.
  apply wrap_Ok, Commit_Ok in H8 as (d8 & Hd8 & Hs8 & _).
  rewrite Ht7 in Hd8. injection Hd8 as <-.
  eexists agent, _. split; [exact Hin |].
  split; [rewrite Hs8, Ha7; reflexivity |].
  split; [reflexivity |]. split; [reflexivity |]. split; [exact Hreg |].
  split; [reflexivity |].
  intros Hdoc. rewrite Hreg, Lookup_Region. apply regionOf_documented, Hdoc.
Qed.

End NearestFacts.

(** ** Opening and closing the geo databases *)
Section GeoFiles.
Import geofiles.

Variable openErr : string -> option string.
Variable closeErr : string -> option string.

(** X25. [NewGeo] opens the country database and, when a path is given,
    the ASN database.  When it returns an error it has closed what it had
    opened: with closes that succeed, as many readers are open as before.
    When it returns a [Geo], [Geo.Close] closes its readers again, and
    [Geo.Close] returns nil whatever the readers answer to the close: the
    error it builds is dropped. *)
Theorem NewGeo_leaves_no_reader_open countryPath asnPath opened :
  let out := NewGeo openErr closeErr countryPath asnPath opened in
  (forall g, fst out = Ok g ->
     countryDB g = Some countryPath /\
     asnDB g = (if String.eqb asnPath "" then None else Some asnPath) /\
     snd out = (opened + (if String.eqb asnPath "" then 1 else 2))%nat /\
     ((forall path, closeErr path = None) ->
      snd (Close closeErr g (snd out)) = opened)) /\
  (isErr (fst out) = true ->
   openErr countryPath <> None \/ (asnPath <> "" /\ openErr asnPath <> None)) /\
  (isErr (fst out) = true -> closeErr countryPath = None -> snd out = opened) /\
  (forall g n, fst (Close closeErr g n) = None).
Proof.
  cbn zeta. unfold NewGeo.
  split; [| split; [| split]]; [| | | reflexivity].
  - intros g.
    destruct (openErr countryPath) as [e |]; [discriminate |].
    destruct (String.eqb asnPath "").
    + cbn [fst snd]. intros [= <-]. cbn [countryDB asnDB].
      split; [reflexivity |]. split; [reflexivity |]. split; [lia |].
      intros Hclose. unfold Close, close. cbn [countryDB asnDB snd]. rewrite Hclose.
      reflexivity.
    + destruct (openErr asnPath) as [e |];
        [destruct (closeErr countryPath); discriminate |].
      cbn [fst snd]. intros [= <-]. cbn [countryDB asnDB].
      split; [reflexivity |]. split; [reflexivity |]. split; [lia |].
      intros Hclose. unfold Close, close. cbn [countryDB asnDB snd]. rewrite !Hclose.
      reflexivity.
  - destruct (openErr countryPath) as [e |]; [left; discriminate |].
    destruct (String.eqb asnPath "") eqn:Ha; [discriminate |].
    apply String.eqb_neq in Ha.
    destruct (openErr asnPath) as [e |]; [| discriminate].
    intros _. right. split; [assumption | discriminate].
  - destruct (openErr countryPath) as [e |]; [reflexivity |].
    destruct (String.eqb asnPath ""); [discriminate |].
    destruct (openErr asnPath) as [e |]; [| discriminate].
    intros _ Hclose. unfold close. rewrite Hclose. reflexivity.
Qed.

End GeoFiles.

(** ** What lasts: sent rows, acknowledged messages, terminal results *)
Section LastingFacts.
Import model db repository.

Lemma isSent_step cfg e q id :
  outbox.isSent (store (outbox.world q)) id = true ->
  outbox.isSent (store (outbox.world (outbox.step cfg e q))) id = true.
Proof.
  intros H. destruct e as [| | push | i | dt | id' topic payload]; cbn [outbox.step].
  - destruct (outbox.sending q); [| assumption].
    destruct (SelectUnsentBatch_pool (outbox.BatchSize cfg) (outbox.world q)) as (Hs & _).
    destruct (SelectUnsentBatch viaPool (outbox.BatchSize cfg) (outbox.world q))
      as [[l | err] w']; cbn in *; rewrite Hs; assumption.
  - destruct (outbox.sending q); [assumption |].
    destruct (length (outbox.messagePipe q) <?
              outbox.BatchSize cfg * outbox.BathSizeMultiply)%nat; assumption.
  - destruct (outbox.messagePipe q); [assumption |].
    destruct (length (outbox.marking q) <? outbox.WorkerCount cfg)%nat; [| assumption].
    destruct push; assumption.
  - destruct (nth_error (outbox.marking q) i) as [msg |]; [| assumption].
    cbn [outbox.world].
    destruct (UpdateAsSent_pool (OutboxMessage.ID msg) (outbox.world q))
      as [[_ Hs] | [_ Hs]]; rewrite Hs; [assumption |].
    unfold outbox.isSent. cbn [outbox_messages setOutbox].
    apply (sentRow_markRows id). exact H.
  - assumption.
  - unfold outbox.setWorld. cbn [outbox.world].
    destruct (OutboxInsertMessage_pool id' topic payload (outbox.world q)) as [Hs | Hs];
      rewrite Hs; [assumption |].
    unfold outbox.isSent in *. cbn [outbox_messages setOutbox].
    rewrite existsb_app, H. reflexivity.
Qed.

(** X26. A row that is sent stays sent: whatever the publisher, the
    dispatchers and the database do afterwards, no step of a run brings a
    row with [sent = true] back to [sent = false]. *)
Theorem publisher_sent_is_final cfg evs q id :
  outbox.isSent (store (outbox.world q)) id = true ->
  outbox.isSent (store (outbox.world (outbox.run cfg evs q))) id = true.
Proof.
  revert q. induction evs as [| e evs IH]; intros q H; [exact H |].
  cbn [outbox.run fold_left]. apply IH, isSent_step, H.
Qed.

Variable cfg : inbox.Config.
Variable gen : nat -> UUID.
Variable unmarshal : string -> result CheckResultFromAgent.t.

(** X27. Over any sequence of messages a worker receives, and whatever
    the database answers, the worker acknowledges exactly the messages
    whose key is a UUID, each once, in the order it receives them: the fate
    of the ingest has no part in it. *)
Theorem subscriber_acks_by_key msgs q :
  inbox.marked (inbox.workerRun cfg gen unmarshal msgs q) =
  inbox.marked q ++ List.filter inbox.keyIsUUID msgs.
Proof.
  unfold inbox.workerRun. revert q.
  induction msgs as [| msg msgs IH]; intros q; cbn [fold_left List.filter].
  - rewrite app_nil_r. reflexivity.
  - rewrite IH.
    unfold inbox.worker, inbox.keyIsUUID.
    destruct (uuid.FromBytes (kafka.Key msg)) as [id | e]; cbn [isErr negb].
    + destruct (inbox.process cfg gen unmarshal msg (inbox.world q)) as [r w].
      cbn [inbox.marked]. rewrite <- app_assoc. reflexivity.
    + reflexivity.
Qed.

(** X28. The statuses the inbox stores are DONE and FAILED, and of these
    [allTerminal] knows FAILED only: for the results of a request as the
    inbox has stored them, the stream finds the list terminal exactly when
    it is not empty and every result has failed. *)
Theorem stream_ends_only_on_failures :
  (forall id c t v,
     CheckResult.Status (inbox.checkResultOf id c t v) =
       (if CheckResultFromAgent.OK c then "DONE" else "FAILED")) /\
  forall results,
    Forall (fun r => CheckResultResponse.Status r = "DONE" \/
                     CheckResultResponse.Status r = "FAILED") results ->
    (handler.allTerminal results = true <->
     results <> [] /\
     Forall (fun r => CheckResultResponse.Status r = "FAILED") results).
Proof.
  split.
  - intros id c t v. unfold inbox.checkResultOf.
    destruct (CheckResultFromAgent.OK c); reflexivity.
  - intros results Hst. rewrite allTerminal_spec. split; intros [Hne Hall]; (split; [assumption |]).
    + rewrite List.Forall_forall in *. intros r Hr.
      destruct (Hst r Hr) as [Hd | Hf]; [| assumption].
      specialize (Hall r Hr). rewrite Hd in Hall. cbn in Hall.
      intuition discriminate.
    + eapply List.Forall_impl; [| exact Hall]. cbn. intros r ->. auto.
Qed.

End LastingFacts.

(** ** The properties above at concrete inputs *)
Section Instances.
Import GoStrings model db repository wire service samples.

(** The one result of the request comes back twice: once for each of the
    two assignments. *)
Lemma GetResultsByRequestID_rows_witness :
  let run := GetResultsByRequestID "0123456789abcdef" (worldOf answered []) in
  isErr (fst run) = false /\
  length (match fst run with Ok rows => rows | Err _ => [] end) = 2%nat /\
  store (snd run) = answered.
Proof.
  cbn zeta.
  destruct (GetResultsByRequestID "0123456789abcdef" (worldOf answered []))
    as [[rows | e] s'] eqn:Hrun; [| vm_compute in Hrun; discriminate].
  destruct (GetResultsByRequestID_rows "0123456789abcdef" (worldOf answered []) rows s' Hrun)
    as (Hlen & _ & _ & Hs).
  cbn [fst snd isErr]. split; [reflexivity |]. split; [rewrite Hlen; reflexivity | exact Hs].
Defined.

(** Of the two unsent rows, a batch of one holds the older, which stands
    second in the table. *)
Lemma SelectUnsentBatch_oldest_first_witness :
  let run := SelectUnsentBatch viaPool 1 (worldOf backlog []) in
  isErr (fst run) = false /\
  length (match fst run with Ok l => l | Err _ => [] end) = 1%nat /\
  store (snd run) = backlog.
Proof.
  cbn zeta.
  destruct (SelectUnsentBatch viaPool 1 (worldOf backlog []))
    as [[l | e] s'] eqn:Hrun; [| vm_compute in Hrun; discriminate].
  destruct (SelectUnsentBatch_oldest_first 1 (worldOf backlog []) l s' Hrun)
    as (Hlen & _ & _ & _ & Hs).
  cbn [fst snd isErr]. split; [reflexivity |]. split; [rewrite Hlen; reflexivity | exact Hs].
Defined.

Lemma outbox_insert_select_mark_witness :
  let s := worldOf seeded [] in
  let s1 := snd (OutboxInsertMessage viaPool "k1" "hosts-check-EU" "{task}" s) in
  let s2 := snd (UpdateAsSent viaPool "k1" s1) in
  outbox_messages (store s1) = [outboxRow "k1" "hosts-check-EU" "{task}" 1000] /\
  forall n m, In m (unsentBatch (store s2) n) -> OutboxMessage.ID m <> "k1".
Proof.
  cbn zeta.
  destruct (outbox_insert_select_mark "k1" "hosts-check-EU" "{task}" (worldOf seeded [])
              (snd (OutboxInsertMessage viaPool "k1" "hosts-check-EU" "{task}"
                      (worldOf seeded [])))
              (snd (UpdateAsSent viaPool "k1"
                      (snd (OutboxInsertMessage viaPool "k1" "hosts-check-EU" "{task}"
                              (worldOf seeded [])))))
              ltac:(vm_compute; reflexivity) ltac:(vm_compute; reflexivity)
              ltac:(vm_compute; reflexivity))
    as (Hrows & _ & _ & Hnot & _).
  split; [exact Hrows | exact Hnot].
Defined.

Lemma publisher_delivers_batch_witness :
  let q := outbox.run publisherConfig (outbox.quietRound 1)
             (outbox.init (worldOf withOutbox [])) in
  outbox.bus q = [outbox.busRecord pendingRow] /\
  outbox.isSent (store (outbox.world q)) "k1" = true /\
  outbox.sending q = [] /\ outbox.messagePipe q = [] /\ outbox.marking q = [].
Proof.
  cbn zeta.
  destruct (publisher_delivers_batch publisherConfig (worldOf withOutbox [])
              eq_refl ltac:(vm_compute; lia))
    as (Hbus & Hsent & _ & Hrest).
  split; [exact Hbus |]. split; [| exact Hrest].
  apply (Hsent pendingRow). left. reflexivity.
Defined.

Lemma worker_stores_redelivery_twice_witness :
  let q := subscriber [] in
  let worker := inbox.worker inboxConfig unary (fun _ => Ok decodedResult) resultMessage in
  inbox.marked (worker (worker q)) = [resultMessage; resultMessage] /\
  length (check_results (store (inbox.world (worker (worker q))))) = 2%nat /\
  length (inbox_messages (store (inbox.world (worker (worker q))))) = 1%nat.
Proof.
  cbn zeta.
  destruct (worker_stores_redelivery_twice inboxConfig unary (fun _ => Ok decodedResult)
              resultMessage decodedResult (subscriber [])
              eq_refl eq_refl eq_refl eq_refl eq_refl eq_refl
              ltac:(vm_compute; discriminate))
    as (Hm & Hc & Hi).
  split; [exact Hm |]. split; [rewrite Hc | rewrite Hi]; reflexivity.
Defined.

Lemma stream_sends_unchanged_results_once_witness :
  let c1 := handler.onTick (fun _ => "h1") (Ok [doneRow]) true handler.opened in
  handler.returned c1 = false /\
  handler.lastHash c1 = "h1" /\
  (length (handler.frames c1) <= 1)%nat /\
  handler.onTick (fun _ => "h1") (Ok [doneRow]) false c1 = c1.
Proof.
  apply (stream_sends_unchanged_results_once (fun _ => "h1") [doneRow] false handler.opened).
  - reflexivity.
  - discriminate.
  - reflexivity.
Defined.

Lemma stream_frames_follow_protocol_witness :
  let c := handler.StreamResults (fun _ => "h1") (Ok "0123456789abcdef")
             [handler.Ticked (Ok [doneRow]) true; handler.Ticked (Ok [doneRow]) true;
              handler.Cancelled] in
  exists p, handler.protocol handler.Fresh
              (map handler.wsMessage.Type_ (handler.frames c)) = Some p.
Proof.
  apply (stream_frames_follow_protocol (fun _ => "h1") (Ok "0123456789abcdef")
           [handler.Ticked (Ok [doneRow]) true; handler.Ticked (Ok [doneRow]) true;
            handler.Cancelled]).
  intros r. discriminate.
Defined.



Lemma process_one_envelope_per_check_witness :
  exists l,
    agentProcess (taskOf [httpCheck; dnsCheck]) (fun _ => agent.Probed healthy) =
      agent.Returned l /\
    length l = 2%nat.
Proof.
  destruct (agentProcess (taskOf [httpCheck; dnsCheck]) (fun _ => agent.Probed healthy))
    as [l | e | e] eqn:Hp; [| vm_compute in Hp; discriminate ..].
  exists l. split; [reflexivity |].
  destruct (process_one_envelope_per_check
              (fun _ => Ok (taskOf [httpCheck; dnsCheck])) (fun _ => None) (fun _ => None)
              false (fun s => s) (fun _ => None) (fun _ => "1.000")
              (fun name args => String.concat " " (name :: args)) (fun _ => json.Array [])
              "{task}" (fun _ => agent.Probed healthy) l Hp)
    as (t & Ht & Hlen & _).
  injection Ht as <-. exact Hlen.
Defined.

Lemma ok_envelope_has_payload_witness :
  agent.CheckResult.Payload
    (agentRunCheckAt (taskOf [dnsCheck]) 0 dnsCheck (agent.Probed healthy)) <> None.
Proof.
  apply (ok_envelope_has_payload false (fun s => s) (fun _ => None) (fun _ => "1.000")
           (fun name args => String.concat " " (name :: args)) (fun _ => json.Array [])
           (taskOf [dnsCheck]) 0%nat dnsCheck (agent.Probed healthy)).
  vm_compute. reflexivity.
Defined.


Lemma tail_is_bounded_suffix_witness :
  exists front,
    "exit status 1" = (front ++ GoStrings.tail "exit status 1" 8)%string /\
    String.length (GoStrings.tail "exit status 1" 8) =
      Nat.min (String.length "exit status 1") (Z.to_nat 8) /\
    ((String.length "exit status 1" <= Z.to_nat 8)%nat ->
     GoStrings.tail "exit status 1" 8 = "exit status 1").
Proof.
  apply (tail_is_bounded_suffix "exit status 1" 8). lia.
Defined.


Lemma ParseTask_reports_first_failure_witness :
  exists i c e',
    nth_error [httpCheck; smtpCheck; dnsCheck] i = Some c /\
    agent.normalizeCheckParams (fun _ => None) (fun _ => None) c = agent.Failed e' /\
    agent.ParseTask (fun _ => Ok (taskOf [httpCheck; smtpCheck; dnsCheck]))
      (fun _ => None) (fun _ => None) "{task}" =
      agent.Failed ("check " ++ agent.Itoa (Z.of_nat i) ++ " (" ++ CheckRequest.Type_ c ++ "): "
                    ++ e')%string.
Proof.
  destruct (agent.ParseTask (fun _ => Ok (taskOf [httpCheck; smtpCheck; dnsCheck]))
              (fun _ => None) (fun _ => None) "{task}")
    as [t | e | e] eqn:Hp; [vm_compute in Hp; discriminate | | vm_compute in Hp; discriminate].
  destruct (ParseTask_reports_first_failure
              (fun _ => Ok (taskOf [httpCheck; smtpCheck; dnsCheck]))
              (fun _ => None) (fun _ => None) "{task}"
              (taskOf [httpCheck; smtpCheck; dnsCheck]) e eq_refl Hp)
    as (i & c & e' & Hi & Hn & He & _).
  exists i, c, e'. split; [exact Hi |]. split; [exact Hn |]. rewrite He. reflexivity.
Defined.

Lemma nearest_dispatch_never_US_witness :
  let run := dispatch nearestRequest (Some "8.8.8.8") (worldOf seeded []) in
  isErr (fst run) = false /\
  exists assignment,
    assignments (store (snd run)) = [assignment] /\
    Assignment.AgentRegion assignment = "EU".
Proof.
  cbn zeta. unfold dispatch.
  destruct (CreateRequest northAmerica unary (fun _ => Ok "{task}") (fun a => a)
              nearestRequest (Some "8.8.8.8") "curl" (worldOf seeded []))
    as [[request | e] s'] eqn:Hrun; [| vm_compute in Hrun; discriminate].
  destruct (nearest_dispatch_never_US northAmerica unary (fun _ => Ok "{task}") (fun a => a)
              nearestRequest (Some "8.8.8.8") "curl" (worldOf seeded []) request s'
              eq_refl Hrun)
    as (agent & assignment & _ & Ha & _ & Hr & Hreg & _).
  cbn [fst snd isErr]. split; [reflexivity |].
  exists assignment. split; [exact Ha |]. rewrite Hr, Hreg. reflexivity.
Defined.

Lemma publisher_sent_is_final_witness :
  let q := outbox.run publisherConfig retryAfterFailure (outbox.init (worldOf withOutbox [])) in
  outbox.isSent (store (outbox.world (outbox.run publisherConfig twoPolls q))) "k1" = true.
Proof.
  apply (publisher_sent_is_final publisherConfig twoPolls
           (outbox.run publisherConfig retryAfterFailure (outbox.init (worldOf withOutbox [])))
           "k1").
  vm_compute. reflexivity.
Defined.

Lemma publisher_publishes_table_rows_witness :
  let q := outbox.run publisherConfig retryAfterFailure (outbox.init (worldOf withOutbox [])) in
  exists row,
    In row (outbox_messages (store (outbox.world q))) /\
    outbox.publishes (outbox.busRecord pendingRow) row.
Proof.
  apply (publisher_publishes_table_rows publisherConfig (worldOf withOutbox [])
           retryAfterFailure (outbox.busRecord pendingRow)).
  vm_compute. left. reflexivity.
Defined.

End Instances.
